(** * Box authentication: session store and credential strategies

    A shallow embedding of [src/authentication.py], followed by the option
    blocks of [src/modules/metadata_config.py].  The Streamlit script is
    re-run from the top on every user interaction; one run of [authenticate]
    is modelled as a computation over the session store ([st.session_state],
    a dictionary) that also emits the user-visible messages and the calls made
    to the Box SDK.  User input, the secret source and the answers of the SDK
    for one run are gathered in a [world]. *)

From Stdlib Require Import Ascii String DecimalString.
From stdpp Require Import gmap strings list fin_maps.

Set Warnings "-register-all".
Open Scope string_scope.
Open Scope list_scope.

(** ** Values *)

(** A value of the secret source ([st.secrets], parsed TOML): a string, a
    table, or any other value (number, boolean, date, array).  The code only
    observes of the last kind that it is not a [dict], that it cannot be
    indexed by a string, and its truth value. *)
Inductive sval :=
| SStr (s : string)
| SDict (d : gmap string sval)
| SOther (truthy : bool).

(** Python exceptions.  [RerunException] is Streamlit's script-control
    exception raised by [st.rerun()]; it derives from [BaseException], so an
    [except Exception] clause does not catch it. *)
Inductive exn :=
| IndexError
| KeyError (k : string)
| TypeError
| AttributeError
| ValueError
| SdkError (msg : string)
| RerunException.

Definition is_Exception (e : exn) : bool :=
  match e with
  | RerunException => false
  | _ => true
  end.

(** The authentication objects of the SDK: [OAuth2(...)] and
    [JWTAuth.from_settings_dictionary(...)]. *)
Inductive auth_handle :=
| OAuth2Obj (client_id client_secret : sval) (access_token : option sval)
| JWTAuthObj (config : sval).

(** What is stored under the keys of [st.session_state]: the values this
    script writes, and any other value ([VOther], as the other pages store
    them), of which only the truth value is observed here. *)
Inductive value :=
| VNone
| VBool (b : bool)
| VStr (s : string)
| VAuth (a : auth_handle)
| VClient (a : auth_handle)
| VUser (name : string)
| VCreds (d : gmap string sval)
| VOther (truthy : bool).

(** Python truth values. *)
Definition str_truthy (s : string) : bool := negb (String.eqb s "").

Definition sval_truthy (v : sval) : bool :=
  match v with
  | SStr s => str_truthy s
  | SDict d => negb (Nat.eqb (size d) 0)
  | SOther b => b
  end.

Definition value_truthy (v : value) : bool :=
  match v with
  | VNone => false
  | VBool b => b
  | VStr s => str_truthy s
  | VAuth _ | VClient _ | VUser _ => true
  | VCreds d => negb (Nat.eqb (size d) 0)
  | VOther b => b
  end.

(** [bool(m.get(k))] *)
Definition get_truthy (m : gmap string sval) (k : string) : bool :=
  match m !! k with
  | Some v => sval_truthy v
  | None => false
  end.

(** [v[k]] for a string key [k]. *)
Definition sval_getitem (v : sval) (k : string) : exn + sval :=
  match v with
  | SDict d =>
      match d !! k with
      | Some x => inr x
      | None => inl (KeyError k)
      end
  | SStr _ | SOther _ => inl TypeError
  end.

(** ** Strings *)

(** [s.split(sep)] for a one-character separator. *)
Fixpoint split_on (sep : ascii) (s : string) : list string :=
  match s with
  | EmptyString => [EmptyString]
  | String c rest =>
      if Ascii.eqb c sep then EmptyString :: split_on sep rest
      else match split_on sep rest with
           | [] => [String c EmptyString]
           | h :: t => String c h :: t
           end
  end.

(** The text after the first occurrence of [c] (empty when there is none),
    and the text before it (everything when there is none). *)
Fixpoint after_char (c : ascii) (s : string) : string :=
  match s with
  | EmptyString => EmptyString
  | String a rest => if Ascii.eqb a c then rest else after_char c rest
  end.

Fixpoint before_char (c : ascii) (s : string) : string :=
  match s with
  | EmptyString => EmptyString
  | String a rest => if Ascii.eqb a c then EmptyString else String a (before_char c rest)
  end.

(** ** The secret validator: [check_secrets_available] *)

(** One element of [required_sections]: a plain string, or a dictionary
    literal [{name: [key, ...]}] given by its entries in insertion order. *)
Inductive required :=
| ReqKey (section : string)
| ReqSection (entries : list (string * list string)).

(** Lines 37-43: walk [parts] down from [current_level]. *)
Fixpoint walk (parts : list string) (current_level : sval) : bool :=
  match parts with
  | [] => true
  | part :: rest =>
      match current_level with
      | SDict d =>
          match d !! part with
          | Some next => walk rest next
          | None => false
          end
      | _ => false
      end
  end.

Definition section_label (section_name : string) : string :=
  "Section '" +:+ section_name +:+ "'".

Definition key_label (section_name key : string) : string :=
  "'" +:+ section_name +:+ "." +:+ key +:+ "'".

(** Lines 32-43: the loop over [keys]. *)
Fixpoint check_keys (section_name : string) (sec : sval) (keys : list string)
    (missing : list string) : list string :=
  match keys with
  | [] => missing
  | key :: rest =>
      let parts := split_on "."%char key in
      if walk parts sec
      then check_keys section_name sec rest missing
      else check_keys section_name sec rest (missing ++ [key_label section_name key])
  end.

(** Lines 22-43: the loop over [required_sections].  [list(section.keys())[0]]
    raises [IndexError] on an empty dictionary. *)
Fixpoint check_sections (m : gmap string sval) (required_sections : list required)
    (missing : list string) : exn + list string :=
  match required_sections with
  | [] => inr missing
  | ReqKey section :: rest =>
      if get_truthy m section
      then check_sections m rest missing
      else check_sections m rest (missing ++ [section])
  | ReqSection entries :: rest =>
      match entries with
      | [] => inl IndexError
      | (section_name, keys) :: _ =>
          match m !! section_name with
          | Some sec =>
              if sval_truthy sec
              then check_sections m rest (check_keys section_name sec keys missing)
              else check_sections m rest (missing ++ [section_label section_name])
          | None => check_sections m rest (missing ++ [section_label section_name])
          end
      end
  end.

(** ** Runs of the script *)

(** Messages shown with [st.error] and [st.success], problems written to the
    log, and calls that leave the process.  [logger.info] lines and the purely
    presentational [st.write]/[st.markdown]/[st.subheader] calls are not
    recorded. *)
Inductive ui_error :=
| ErrSecretsUnavailable                      (* line 19 *)
| ErrMissingSecrets (missing : list string)  (* line 47 *)
| ErrCsrfMismatch                            (* line 181 *)
| ErrNoAuthCode                              (* line 205 *)
| ErrProcessingCode (e : exn)                (* line 207 *)
| ErrOAuthInit (e : exn)                     (* line 211 *)
| ErrJwtStructure                            (* line 232 *)
| ErrJwtFailed (e : exn)                     (* line 266 *)
| ErrDevTokenFailed (e : exn).               (* line 319 *)

Inductive ui_success :=
| AlreadyAuthenticated (name : string)       (* line 59 *)
| Authenticated (name : string)              (* lines 202, 315 *)
| AuthenticatedServiceAccount (name : string). (* line 262 *)

Inductive log_item :=
| LogCsrfMismatch                            (* line 182 *)
| LogProcessingCode                          (* line 208 *)
| LogOAuthInit                               (* line 212 *)
| LogJwtStructure                            (* line 233 *)
| LogJwtFailed                               (* line 267 *)
| LogDevTokenFailed                          (* line 320 *)
| LogNoClientSecrets                         (* line 351 *)
| LogSecretsAccess (e : exn).                (* line 353 *)

Inductive event :=
| StError (e : ui_error)
| StSuccess (m : ui_success)
| LogProblem (l : log_item)
| BrowserOpen (url : string)
| SdkGetAuthorizationUrl (redirect_uri : sval)
| SdkAuthenticate (auth_code : string)
| SdkJwtFromSettings (config : sval)
| SdkCurrentUser (a : auth_handle).

Inductive auth_method := OAuth20 | JWT | DeveloperToken.

(** Everything one run reads from outside the session store: the secret
    source ([None]: an object without a [get] method), the widgets, the URL
    parser of the standard library ([parse_qs(urlparse(url).query)], [None]
    when it raises [ValueError]) and the answers of the Box SDK (on the left
    the message of the exception it raises). *)
Record world := World {
  secrets : option (gmap string sval);
  radio_auth_method : auth_method;
  button_logout : bool;
  button_open_link : bool;
  button_jwt : bool;
  button_dev : bool;
  text_redirect_url : string;
  parse_query : string -> option (gmap string (list string));
  sdk_get_authorization_url : auth_handle -> sval -> string + (string * string);
  sdk_authenticate : string -> string + (string * option string);
  sdk_jwt_from_settings : sval -> option string;
  sdk_current_user : auth_handle -> string + string
}.

(** The result of running a piece of the script on a session store. *)
Record outcome (A : Type) := Outcome {
  st_after : gmap string value;
  emitted : list event;
  returned : exn + A
}.
Arguments Outcome {A} _ _ _.
Arguments st_after {A} _.
Arguments emitted {A} _.
Arguments returned {A} _.

Definition M (A : Type) : Type := gmap string value -> outcome A.

Definition ret {A} (a : A) : M A := fun s => Outcome s [] (inr a).

Definition raise {A} (e : exn) : M A := fun s => Outcome s [] (inl e).

Definition bind {A B} (m : M A) (f : A -> M B) : M B := fun s =>
  let o := m s in
  match returned o with
  | inl e => Outcome (st_after o) (emitted o) (inl e)
  | inr a =>
      let o' := f a (st_after o) in
      Outcome (st_after o') (emitted o ++ emitted o') (returned o')
  end.

(** [try: body except Exception as e: handler(e)] *)
Definition try_except {A} (body : M A) (handler : exn -> M A) : M A := fun s =>
  let o := body s in
  match returned o with
  | inl e =>
      if is_Exception e
      then let o' := handler e (st_after o) in
           Outcome (st_after o') (emitted o ++ emitted o') (returned o')
      else o
  | inr _ => o
  end.

Definition emit (ev : event) : M unit := fun s => Outcome s [ev] (inr tt).

Definition lift {A} (r : exn + A) : M A := fun s => Outcome s [] r.

Notation "x <- m ;; k" := (bind m (fun x => k))
  (at level 100, m at next level, right associativity).
Notation "m ;;; k" := (bind m (fun _ => k))
  (at level 100, right associativity).

(** Access to [st.session_state]. *)
Definition get_key (k : string) : M (option value) := fun s => Outcome s [] (inr (s !! k)).

Definition set_key (k : string) (v : value) : M unit := fun s =>
  Outcome (<[k := v]> s) [] (inr tt).

Definition pop_key (k : string) : M unit := fun s => Outcome (delete k s) [] (inr tt).

Definition opt_truthy (o : option value) : bool :=
  match o with
  | Some v => value_truthy v
  | None => false
  end.

(** [if "auth_credentials" not in st.session_state:
       st.session_state.auth_credentials = {}] *)
Definition ensure_auth_credentials : M unit := fun s =>
  match s !! "auth_credentials" with
  | Some _ => Outcome s [] (inr tt)
  | None => Outcome (<["auth_credentials" := VCreds ∅]> s) [] (inr tt)
  end.

(** [st.session_state.auth_credentials[k] = v], the dictionary being updated
    in place. *)
Definition creds_setitem (k : string) (v : sval) : M unit := fun s =>
  match s !! "auth_credentials" with
  | Some (VCreds d) => Outcome (<["auth_credentials" := VCreds (<[k := v]> d)]> s) [] (inr tt)
  | Some _ => Outcome s [] (inl TypeError)
  | None => Outcome s [] (inl AttributeError)
  end.

(** Access to [st.secrets]: [st.secrets.get(k)] and [st.secrets[k]]. *)
Definition secrets_get (w : world) (k : string) : M (option sval) :=
  match secrets w with
  | Some m => ret (m !! k)
  | None => raise AttributeError
  end.

Definition secrets_getitem (w : world) (k : string) : M sval :=
  match secrets w with
  | Some m =>
      match m !! k with
      | Some v => ret v
      | None => raise (KeyError k)
      end
  | None => raise TypeError
  end.

(** [st.secrets[section][key]] *)
Definition secrets_getitem2 (w : world) (section key : string) : M sval :=
  sec <- secrets_getitem w section ;;
  lift (sval_getitem sec key).

(** Lines 15-49. *)
Definition check_secrets_available (w : world) (required_sections : list required)
    : M (bool * list string) :=
  match secrets w with
  | None =>
      emit (StError ErrSecretsUnavailable) ;;;
      ret (false, ["Streamlit Secrets configuration"])
  | Some m =>
      missing <- lift (check_sections m required_sections []) ;;
      match missing with
      | [] => ret (true, [])
      | _ :: _ =>
          emit (StError (ErrMissingSecrets missing)) ;;;
          ret (false, missing)
      end
  end.

(** ** The token-storage callback: [store_tokens] (lines 322-363) *)

Definition opt_sval_truthy (o : option sval) : bool :=
  match o with
  | Some v => sval_truthy v
  | None => false
  end.

(** Lines 341-351, the body of the [try]. *)
Definition capture_client_secrets (w : world) : M unit :=
  box_oauth <- secrets_get w "box_oauth" ;;
  if opt_sval_truthy box_oauth then
    client_id <- secrets_getitem2 w "box_oauth" "client_id" ;;
    creds_setitem "client_id" client_id ;;;
    client_secret <- secrets_getitem2 w "box_oauth" "client_secret" ;;
    creds_setitem "client_secret" client_secret
  else
    box_dev <- secrets_get w "box_dev" ;;
    if opt_sval_truthy box_dev then
      client_id <- secrets_getitem2 w "box_dev" "client_id" ;;
      creds_setitem "client_id" client_id ;;;
      client_secret <- secrets_getitem2 w "box_dev" "client_secret" ;;
      creds_setitem "client_secret" client_secret
    else
      emit (LogProblem LogNoClientSecrets).

Definition store_tokens (w : world) (access_token : string)
    (refresh_token : option string) : M (string * option string) :=
  set_key "access_token" (VStr access_token) ;;;
  match refresh_token with
  | Some r => if str_truthy r then set_key "refresh_token" (VStr r) else ret tt
  | None => ret tt
  end ;;;
  ensure_auth_credentials ;;;
  try_except (capture_client_secrets w)
             (fun e => emit (LogProblem (LogSecretsAccess e))) ;;;
  creds_setitem "access_token" (SStr access_token) ;;;
  match refresh_token with
  | Some r => if str_truthy r then creds_setitem "refresh_token" (SStr r) else ret tt
  | None => ret tt
  end ;;;
  ret (access_token, refresh_token).

(** ** The SDK, as the script uses it *)

(** [oauth.get_authorization_url(redirect_uri)] *)
Definition get_authorization_url (w : world) (oauth : auth_handle) (redirect_uri : sval)
    : M (string * string) :=
  emit (SdkGetAuthorizationUrl redirect_uri) ;;;
  match sdk_get_authorization_url w oauth redirect_uri with
  | inl msg => raise (SdkError msg)
  | inr r => ret r
  end.

(** [oauth.authenticate(auth_code)]: the SDK exchanges the code and, when the
    exchange succeeds, hands the tokens to the [store_tokens] callback it was
    constructed with (line 147) before returning them; line 199 relies on
    this. *)
Definition oauth_authenticate (w : world) (auth_code : string) : M (string * option string) :=
  emit (SdkAuthenticate auth_code) ;;;
  match sdk_authenticate w auth_code with
  | inl msg => raise (SdkError msg)
  | inr (access_token, refresh_token) => store_tokens w access_token refresh_token
  end.

(** [client.user().get()] for [client = Client(auth)]; returns the user's
    name. *)
Definition current_user_get (w : world) (auth : auth_handle) : M string :=
  emit (SdkCurrentUser auth) ;;;
  match sdk_current_user w auth with
  | inl msg => raise (SdkError msg)
  | inr name => ret name
  end.

(** [JWTAuth.from_settings_dictionary(config)] *)
Definition jwt_from_settings (w : world) (config : sval) : M auth_handle :=
  emit (SdkJwtFromSettings config) ;;;
  match sdk_jwt_from_settings w config with
  | Some msg => raise (SdkError msg)
  | None => ret (JWTAuthObj config)
  end.

(** ** Committing a session (lines 196-198, 252-254, 303-305) *)
Definition commit (auth : auth_handle) (name : string) : M unit :=
  set_key "authenticated" (VBool true) ;;;
  set_key "client" (VClient auth) ;;;
  set_key "user" (VUser name).

(** ** Delegated authorization: [oauth2_authentication_secrets] *)

Definition default_redirect_uri : sval := SStr "http://localhost:8501/".

(** Line 140: [st.secrets.get("box_oauth", {}).get("redirect_uri", default)] *)
Definition secrets_redirect_uri (w : world) : M sval :=
  box_oauth <- secrets_get w "box_oauth" ;;
  match box_oauth with
  | None => ret default_redirect_uri
  | Some (SDict d) => ret (default default_redirect_uri (d !! "redirect_uri"))
  | Some _ => raise AttributeError
  end.

(** [l[0]] *)
Definition first_item {A} (l : list A) : M A :=
  match l with
  | x :: _ => ret x
  | [] => raise IndexError
  end.

(** Line 180: [not state or state != st.session_state.get("csrf_token")] *)
Definition csrf_rejected (state : option string) (pending : option value) : bool :=
  match state with
  | None => true
  | Some st =>
      negb (str_truthy st) ||
      match pending with
      | Some (VStr t) => negb (String.eqb st t)
      | _ => true
      end
  end.

(** Lines 186-203: what follows an accepted anti-forgery check. *)
Definition exchange_and_commit (w : world) (oauth : auth_handle) (auth_code : string)
    : M unit :=
  _ <- oauth_authenticate w auth_code ;;
  current_user <- current_user_get w oauth ;;
  commit oauth current_user ;;;
  emit (StSuccess (Authenticated current_user)) ;;;
  raise RerunException.

(** Lines 171-205, the body of the inner [try]. *)
Definition complete_authorization (w : world) (oauth : auth_handle)
    (auth_code_url : string) : M unit :=
  match parse_query w auth_code_url with
  | None => raise ValueError
  | Some query_params =>
      match query_params !! "code" with
      | Some codes =>
          auth_code <- first_item codes ;;
          state <- match query_params !! "state" with
                   | Some l => st <- first_item l ;; ret (Some st)
                   | None => ret None
                   end ;;
          pending <- get_key "csrf_token" ;;
          if csrf_rejected state pending then
            emit (StError ErrCsrfMismatch) ;;;
            emit (LogProblem LogCsrfMismatch)
          else exchange_and_commit w oauth auth_code
      | None => emit (StError ErrNoAuthCode)
      end
  end.

(** Lines 144-155: the authorization URL is issued and its anti-forgery token
    stored, on every run. *)
Definition begin_authorization (w : world) (oauth : auth_handle) (redirect_uri : sval)
    : M string :=
  r <- get_authorization_url w oauth redirect_uri ;;
  set_key "csrf_token" (VStr (snd r)) ;;;
  set_key "oauth" (VAuth oauth) ;;;
  ret (fst r).

(** Lines 143-208, the body of the outer [try]. *)
Definition authorization_flow (w : world) (oauth : auth_handle) (redirect_uri : sval)
    : M unit :=
  auth_url <- begin_authorization w oauth redirect_uri ;;
  (if button_open_link w then emit (BrowserOpen auth_url) else ret tt) ;;;
  let auth_code_url := text_redirect_url w in
  if str_truthy auth_code_url then
    try_except (complete_authorization w oauth auth_code_url)
               (fun e => emit (StError (ErrProcessingCode e)) ;;;
                         emit (LogProblem LogProcessingCode))
  else ret tt.

(** Lines 126-212. *)
Definition oauth2_authentication_secrets (w : world) : M unit :=
  chk <- check_secrets_available w [ReqSection [("box_oauth", ["client_id"; "client_secret"])]] ;;
  if negb (fst chk) then ret tt else
  client_id <- secrets_getitem2 w "box_oauth" "client_id" ;;
  client_secret <- secrets_getitem2 w "box_oauth" "client_secret" ;;
  redirect_uri <- secrets_redirect_uri w ;;
  try_except
    (authorization_flow w (OAuth2Obj client_id client_secret None) redirect_uri)
    (fun e => emit (StError (ErrOAuthInit e)) ;;;
              emit (LogProblem LogOAuthInit)).

(** ** Signed assertion: [jwt_authentication_secrets] (lines 214-267) *)

(** Line 231 *)
Definition jwt_structure_ok (config : sval) : bool :=
  match config with
  | SDict d => bool_decide (is_Some (d !! "boxAppSettings")) &&
               bool_decide (is_Some (d !! "enterpriseID"))
  | _ => false
  end.

(** Lines 238-263, the body of the [try]. *)
Definition jwt_attempt (w : world) (config_dict_plain : sval) : M unit :=
  auth <- jwt_from_settings w config_dict_plain ;;
  service_account <- current_user_get w auth ;;
  commit auth service_account ;;;
  ensure_auth_credentials ;;;
  creds_setitem "jwt_config" config_dict_plain ;;;
  emit (StSuccess (AuthenticatedServiceAccount service_account)) ;;;
  raise RerunException.

Definition jwt_authentication_secrets (w : world) : M unit :=
  chk <- check_secrets_available w [ReqKey "box_jwt"] ;;
  if negb (fst chk) then ret tt else
  config_dict <- secrets_getitem w "box_jwt" ;;
  let config_dict_plain := config_dict in
  if negb (jwt_structure_ok config_dict_plain) then
    emit (StError ErrJwtStructure) ;;;
    emit (LogProblem LogJwtStructure)
  else if button_jwt w then
    try_except (jwt_attempt w config_dict_plain)
               (fun e => emit (StError (ErrJwtFailed e)) ;;;
                         emit (LogProblem LogJwtFailed))
  else ret tt.

(** ** Static token: [developer_token_authentication_secrets] (lines 269-320) *)

(** Lines 287-316, the body of the [try]. *)
Definition developer_token_attempt (w : world)
    (client_id client_secret developer_token : sval) : M unit :=
  let auth := OAuth2Obj client_id client_secret (Some developer_token) in
  current_user <- current_user_get w auth ;;
  commit auth current_user ;;;
  ensure_auth_credentials ;;;
  creds_setitem "client_id" client_id ;;;
  creds_setitem "client_secret" client_secret ;;;
  creds_setitem "access_token" developer_token ;;;
  emit (StSuccess (Authenticated current_user)) ;;;
  raise RerunException.

Definition developer_token_authentication_secrets (w : world) : M unit :=
  chk <- check_secrets_available w
           [ReqSection [("box_dev", ["client_id"; "client_secret"; "developer_token"])]] ;;
  if negb (fst chk) then ret tt else
  client_id <- secrets_getitem2 w "box_dev" "client_id" ;;
  client_secret <- secrets_getitem2 w "box_dev" "client_secret" ;;
  developer_token <- secrets_getitem2 w "box_dev" "developer_token" ;;
  if button_dev w then
    try_except (developer_token_attempt w client_id client_secret developer_token)
               (fun e => emit (StError (ErrDevTokenFailed e)) ;;;
                         emit (LogProblem LogDevTokenFailed))
  else ret tt.

(** ** The page: [authenticate] (lines 51-90) *)

(** Lines 62-66 *)
Definition logout : M unit :=
  set_key "authenticated" (VBool false) ;;;
  set_key "client" VNone ;;;
  set_key "user" VNone ;;;
  pop_key "auth_credentials" ;;;
  raise RerunException.

(** [st.session_state.user.name] *)
Definition session_user_name : M string :=
  user <- get_key "user" ;;
  match user with
  | Some (VUser name) => ret name
  | _ => raise AttributeError
  end.

Definition authenticate (w : world) : M unit :=
  authenticated <- get_key "authenticated" ;;
  client <- get_key "client" ;;
  if opt_truthy authenticated && opt_truthy client then
    name <- session_user_name ;;
    emit (StSuccess (AlreadyAuthenticated name)) ;;;
    if button_logout w then logout else ret tt
  else
    match radio_auth_method w with
    | OAuth20 => oauth2_authentication_secrets w
    | JWT => jwt_authentication_secrets w
    | DeveloperToken => developer_token_authentication_secrets w
    end.

(** ** Reachable sessions *)

(** A session starts empty; it is changed by runs of the page and by the SDK
    calling [store_tokens] again when it refreshes a token. *)
Inductive reachable : gmap string value -> Prop :=
| reachable_init : reachable ∅
| reachable_run w s :
    reachable s -> reachable (st_after (authenticate w s))
| reachable_refresh w access_token refresh_token s :
    reachable s -> reachable (st_after (store_tokens w access_token refresh_token s)).

(** The credential store, when there is one, is a dictionary. *)
Definition creds_ok (s : gmap string value) : Prop :=
  match s !! "auth_credentials" with
  | Some (VCreds _) | None => True
  | Some _ => False
  end.

(** What the other pages read (line 58; [metadata_config.py] line 17). *)
Definition is_authenticated (s : gmap string value) : bool :=
  opt_truthy (s !! "authenticated").

Definition has_identity (s : gmap string value) : Prop :=
  exists name, s !! "user" = Some (VUser name).

Definition has_client (s : gmap string value) : Prop :=
  exists auth, s !! "client" = Some (VClient auth).

(** The credential material recorded for the strategy in use: an access token
    (delegated code, static token) or the assertion configuration. *)
Definition has_token_material (s : gmap string value) : Prop :=
  exists d, s !! "auth_credentials" = Some (VCreds d) /\
            (is_Some (d !! "access_token") \/ is_Some (d !! "jwt_config")).

(** ** Query strings *)

(** [parse_qs(urlparse(url).query)] on URLs without percent-escapes or [+]:
    the text between the first [?] and the [#], cut at [&]; a parameter with
    an empty value is dropped, values of one name are kept in order. *)
Definition add_param (m : gmap string (list string)) (piece : string)
    : gmap string (list string) :=
  let name := before_char "="%char piece in
  let v := after_char "="%char piece in
  if str_truthy v then <[name := default [] (m !! name) ++ [v]]> m else m.

Definition url_query_params (url : string) : option (gmap string (list string)) :=
  let query := before_char "#"%char (after_char "?"%char url) in
  Some (foldl add_param ∅ (split_on "&"%char query)).

(** ** The validator, as the specification words it *)

(** A path is resolved when each of its keys is found, level by level,
    starting from the secret mapping itself. *)
Definition spec_resolves (m : gmap string sval) (path : list string) : bool :=
  walk path (SDict m).

(** A well-formed requirement: a dictionary literal has an entry. *)
Definition wf_required (r : required) : Prop :=
  match r with
  | ReqSection [] => False
  | _ => True
  end.



(** The same, with a section counting as unresolved when it is absent or
    its value is empty. *)
Definition expected_missing_of (m : gmap string sval) (r : required) : list string :=
  match r with
  | ReqKey section => if get_truthy m section then [] else [section]
  | ReqSection [] => []
  | ReqSection ((section_name, keys) :: _) =>
      if get_truthy m section_name
      then flat_map (fun key =>
                       if spec_resolves m (section_name :: split_on "."%char key)
                       then [] else [key_label section_name key]) keys
      else [section_label section_name]
  end.

Definition expected_missing (m : gmap string sval) (reqs : list required) : list string :=
  flat_map (expected_missing_of m) reqs.



(** ** Sample inputs *)

(** A run in which nothing is clicked or pasted and the SDK answers
    [url], [token], [tokens] and [Alice]. *)
Definition quiet_world (m : option (gmap string sval)) : world :=
  {| secrets := m;
     radio_auth_method := OAuth20;
     button_logout := false;
     button_open_link := false;
     button_jwt := false;
     button_dev := false;
     text_redirect_url := "";
     parse_query := url_query_params;
     sdk_get_authorization_url := fun _ _ => inr ("https://box/authorize?state=T1", "T1");
     sdk_authenticate := fun _ => inr ("AT1", Some "RT1");
     sdk_jwt_from_settings := fun _ => None;
     sdk_current_user := fun _ => inr "Alice" |}.




(** ** Vocabulary of the statements about [store_tokens] *)

Definition is_log (ev : event) : Prop :=
  match ev with
  | LogProblem _ => True
  | _ => False
  end.

(** A computation that, on a session with a credential dictionary, changes
    nothing but that dictionary, emits nothing but log lines, and raises
    nothing but ordinary exceptions. *)
Definition touches_only_creds {A} (m : M A) : Prop :=
  forall s d,
    s !! "auth_credentials" = Some (VCreds d) ->
    exists d',
      st_after (m s) = <["auth_credentials" := VCreds d']> s /\
      Forall is_log (emitted (m s)) /\
      match returned (m s) with
      | inl e => is_Exception e = true
      | inr _ => True
      end.

(** The sentence about the token-storage callback, as stated: the pair is
    returned, the access token recorded, and the refresh token recorded
    whenever one is given. *)
Definition store_tokens_claim (w : world) (access_token : string)
    (refresh_token : option string) (s : gmap string value) : Prop :=
  let o := store_tokens w access_token refresh_token s in
  returned o = inr (access_token, refresh_token) /\
  exists d,
    st_after o !! "auth_credentials" = Some (VCreds d) /\
    d !! "access_token" = Some (SStr access_token) /\
    forall r, refresh_token = Some r -> d !! "refresh_token" = Some (SStr r).

Definition secrets_oauth : gmap string sval :=
  {[ "box_oauth" := SDict {[ "client_id" := SStr "c1"; "client_secret" := SStr "s1" ]} ]}.

(** A secret source whose [box_oauth] entry is not a table: looking up the
    client id in it raises. *)
Definition secrets_oauth_broken : gmap string sval := {[ "box_oauth" := SStr "c1:s1" ]}.

(** Lines 331-332 and 357-358: a refresh token is recorded when it is given
    and not the empty string. *)
Definition record_refresh_session (refresh_token : option string)
    (s : gmap string value) : gmap string value :=
  match refresh_token with
  | Some r => if str_truthy r then <["refresh_token" := VStr r]> s else s
  | None => s
  end.

Definition record_refresh_creds (refresh_token : option string)
    (d : gmap string sval) : gmap string sval :=
  match refresh_token with
  | Some r => if str_truthy r then <["refresh_token" := SStr r]> d else d
  | None => d
  end.

(** The session after [store_tokens], given the credential dictionary [d]
    left by the guarded lookup. *)
Definition tokens_stored (access_token : string) (refresh_token : option string)
    (d : gmap string sval) (s : gmap string value) : gmap string value :=
  <["auth_credentials" :=
      VCreds (record_refresh_creds refresh_token (<["access_token" := SStr access_token]> d))]>
    (record_refresh_session refresh_token (<["access_token" := VStr access_token]> s)).

(** ** Vocabulary of the statements about delegated authorization *)

(** The secret source holds a [box_oauth] table with a client id and a
    client secret; [redirect_uri] is the redirect target of line 140. *)
Definition oauth_configured (w : world) (client_id client_secret redirect_uri : sval) : Prop :=
  exists m d,
    secrets w = Some m /\
    m !! "box_oauth" = Some (SDict d) /\
    d !! "client_id" = Some client_id /\
    d !! "client_secret" = Some client_secret /\
    redirect_uri = default default_redirect_uri (d !! "redirect_uri").

(** The session once the authorization URL with anti-forgery token [token]
    has been issued (lines 154-155). *)
Definition pending_session (token : string) (oauth : auth_handle)
    (s : gmap string value) : gmap string value :=
  <["oauth" := VAuth oauth]> (<["csrf_token" := VStr token]> s).

(** What a run emits up to the text input. *)
Definition begin_events (w : world) (redirect_uri : sval) (auth_url : string) : list event :=
  SdkGetAuthorizationUrl redirect_uri ::
  (if button_open_link w then [BrowserOpen auth_url] else []).

(** The first value of a query parameter, if any. *)
Definition first_param (q : gmap string (list string)) (name : string) : option string :=
  q !! name ≫= head.

(** Python's [parse_qs] never maps a name to an empty list. *)
Definition no_empty_entry (q : gmap string (list string)) (name : string) : Prop :=
  q !! name <> Some [].

(** Did the run call the token exchange; did it announce success. *)
Definition is_exchange_event (ev : event) : bool :=
  match ev with
  | SdkAuthenticate _ => true
  | _ => false
  end.

Definition is_success_event (ev : event) : bool :=
  match ev with
  | StSuccess (Authenticated _) | StSuccess (AuthenticatedServiceAccount _) => true
  | _ => false
  end.

Definition exchange_called (evs : list event) : bool := existsb is_exchange_event evs.

Definition succeeded (evs : list event) : bool := existsb is_success_event evs.

(** The session after lines 196-198. *)
Definition committed (auth : auth_handle) (name : string)
    (s : gmap string value) : gmap string value :=
  <["user" := VUser name]> (<["client" := VClient auth]> (<["authenticated" := VBool true]> s)).

(** The outcome of a guarded block whose handler shows [msg e] and logs [l]. *)
Definition guarded {A} (s2 : gmap string value) (evs : list event) (r : exn + A)
    (msg : exn -> ui_error) (l : log_item) : outcome unit :=
  match r with
  | inl e =>
      if is_Exception e
      then Outcome s2 (evs ++ [StError (msg e); LogProblem l]) (inr tt)
      else Outcome s2 evs (inl e)
  | inr _ => Outcome s2 evs (inr tt)
  end.

(** ** Vocabulary of the statements about the other strategies *)

(** The credential dictionary of a session, empty when there is none. *)
Definition creds_dict (s : gmap string value) : gmap string sval :=
  match s !! "auth_credentials" with
  | Some (VCreds d) => d
  | _ => ∅
  end.

(** The session after a successful signed-assertion attempt (lines 252-259)
    and after a successful static-token attempt (lines 303-312). *)
Definition jwt_committed (config : sval) (name : string)
    (s : gmap string value) : gmap string value :=
  <["auth_credentials" := VCreds (<["jwt_config" := config]> (creds_dict s))]>
    (committed (JWTAuthObj config) name s).

Definition dev_committed (client_id client_secret developer_token : sval) (name : string)
    (s : gmap string value) : gmap string value :=
  <["auth_credentials" :=
      VCreds (<["access_token" := developer_token]>
                (<["client_secret" := client_secret]>
                   (<["client_id" := client_id]> (creds_dict s))))]>
    (committed (OAuth2Obj client_id client_secret (Some developer_token)) name s).

(** The session after [logout] (lines 62-65). *)
Definition logged_out (s : gmap string value) : gmap string value :=
  delete "auth_credentials"
    (<["user" := VNone]> (<["client" := VNone]> (<["authenticated" := VBool false]> s))).

(** The secret source holds what the other two strategies ask for. *)
Definition jwt_configured (w : world) (config : sval) : Prop :=
  exists m, secrets w = Some m /\ m !! "box_jwt" = Some config /\ sval_truthy config = true.

Definition dev_configured (w : world) (client_id client_secret developer_token : sval) : Prop :=
  exists m d,
    secrets w = Some m /\
    m !! "box_dev" = Some (SDict d) /\
    d !! "client_id" = Some client_id /\
    d !! "client_secret" = Some client_secret /\
    d !! "developer_token" = Some developer_token.

(** A run that ended before any strategy was tried: the session is as it
    was, nothing was exchanged, nothing announced. *)
Definition stopped_early (o : outcome unit) (s : gmap string value) : Prop :=
  st_after o = s /\ returned o = inr tt /\
  succeeded (emitted o) = false /\ exchange_called (emitted o) = false.

(** ** The sentences of the specification about the session, as stated *)

(** A run of the delegated strategy that issues the authorization URL
    [auth_url] with anti-forgery token [token]. *)
Definition issues_token (w : world) (oauth : auth_handle) (redirect_uri : sval)
    (auth_url token : string) : Prop :=
  exists client_id client_secret,
    oauth = OAuth2Obj client_id client_secret None /\
    oauth_configured w client_id client_secret redirect_uri /\
    sdk_get_authorization_url w oauth redirect_uri = inr (auth_url, token).

(** C1: whenever the state parameter of the pasted URL is absent or differs
    from the pending token, the mismatch error is shown, the exchange is not
    called and the session is not authenticated. *)
Definition antiforgery_claim (w : world) (token : string) (s : gmap string value) : Prop :=
  forall q,
    parse_query w (text_redirect_url w) = Some q ->
    first_param q "state" <> Some token ->
    StError ErrCsrfMismatch ∈ emitted (oauth2_authentication_secrets w s) /\
    exchange_called (emitted (oauth2_authentication_secrets w s)) = false /\
    is_authenticated (st_after (oauth2_authentication_secrets w s)) = false.


(** C4: after the run [w1], which detects a mismatch against [token], the
    token is no longer the pending one, and the later run [w2] does not accept
    a callback. *)
Definition mismatch_invalidates_claim (w1 w2 : world) (token : string)
    (s : gmap string value) : Prop :=
  st_after (oauth2_authentication_secrets w1 s) !! "csrf_token" <> Some (VStr token) /\
  exchange_called
    (emitted (oauth2_authentication_secrets w2
                (st_after (oauth2_authentication_secrets w1 s)))) = false.

(** C5: a successful run leaves the session authenticated and without a
    pending anti-forgery token. *)
Definition commit_clears_pending_claim (w : world) (s : gmap string value) : Prop :=
  succeeded (emitted (authenticate w s)) = true ->
  is_authenticated (st_after (authenticate w s)) = true /\
  st_after (authenticate w s) !! "csrf_token" = None.

(** C8: after a logout nothing of the login remains in the session. *)
Definition logout_clears_all_claim (w : world) (s : gmap string value) : Prop :=
  is_authenticated (st_after (authenticate w s)) = false /\
  ~ has_identity (st_after (authenticate w s)) /\
  ~ has_client (st_after (authenticate w s)) /\
  st_after (authenticate w s) !! "auth_credentials" = None /\
  st_after (authenticate w s) !! "csrf_token" = None.

(** ** More sample inputs *)

(** [w] with [url] pasted into the text input. *)
Definition paste (url : string) (w : world) : world :=
  {| secrets := secrets w;
     radio_auth_method := radio_auth_method w;
     button_logout := button_logout w;
     button_open_link := button_open_link w;
     button_jwt := button_jwt w;
     button_dev := button_dev w;
     text_redirect_url := url;
     parse_query := parse_query w;
     sdk_get_authorization_url := sdk_get_authorization_url w;
     sdk_authenticate := sdk_authenticate w;
     sdk_jwt_from_settings := sdk_jwt_from_settings w;
     sdk_current_user := sdk_current_user w |}.

(** [w] with the SDK issuing the anti-forgery token [token]. *)
Definition issuing (token : string) (w : world) : world :=
  {| secrets := secrets w;
     radio_auth_method := radio_auth_method w;
     button_logout := button_logout w;
     button_open_link := button_open_link w;
     button_jwt := button_jwt w;
     button_dev := button_dev w;
     text_redirect_url := text_redirect_url w;
     parse_query := parse_query w;
     sdk_get_authorization_url :=
       fun _ _ => inr ("https://box/authorize?state=" +:+ token, token);
     sdk_authenticate := sdk_authenticate w;
     sdk_jwt_from_settings := sdk_jwt_from_settings w;
     sdk_current_user := sdk_current_user w |}.

(** [w] with the identity fetch failing. *)
Definition identity_failing (w : world) : world :=
  {| secrets := secrets w;
     radio_auth_method := radio_auth_method w;
     button_logout := button_logout w;
     button_open_link := button_open_link w;
     button_jwt := button_jwt w;
     button_dev := button_dev w;
     text_redirect_url := text_redirect_url w;
     parse_query := parse_query w;
     sdk_get_authorization_url := sdk_get_authorization_url w;
     sdk_authenticate := sdk_authenticate w;
     sdk_jwt_from_settings := sdk_jwt_from_settings w;
     sdk_current_user := fun _ => inl "401 Unauthorized" |}.

(** [w] with the Logout button clicked. *)
Definition clicking_logout (w : world) : world :=
  {| secrets := secrets w;
     radio_auth_method := radio_auth_method w;
     button_logout := true;
     button_open_link := button_open_link w;
     button_jwt := button_jwt w;
     button_dev := button_dev w;
     text_redirect_url := text_redirect_url w;
     parse_query := parse_query w;
     sdk_get_authorization_url := sdk_get_authorization_url w;
     sdk_authenticate := sdk_authenticate w;
     sdk_jwt_from_settings := sdk_jwt_from_settings w;
     sdk_current_user := sdk_current_user w |}.

Definition oauth_world : world := quiet_world (Some secrets_oauth).

Definition oauth_client : auth_handle := OAuth2Obj (SStr "c1") (SStr "s1") None.

(** Scenario A of the specification: the callback carries the code and the
    token the SDK issued. *)
Definition scenario_a : world := paste "https://x/?code=ABC&state=T1" oauth_world.

(** Scenario B: the callback carries no state. *)
Definition scenario_b : world := paste "https://x/?code=ABC" oauth_world.

(** What the sample URLs parse to. *)
Definition query_code_only : gmap string (list string) := {[ "code" := ["ABC"] ]}.

Definition query_bad_state_only : gmap string (list string) := {[ "state" := ["BAD"] ]}.

Definition query_code_and (state : string) : gmap string (list string) :=
  {[ "code" := ["ABC"]; "state" := [state] ]}.

(** A callback with a code and a wrong state. *)
Definition mismatching_callback : world := paste "https://x/?code=ABC&state=BAD" oauth_world.

(** A callback without a code, and the retry that follows it, for which the
    SDK has issued a new token. *)
Definition malformed_callback : world := paste "https://x/?state=T1" oauth_world.

Definition retried_callback : world :=
  paste "https://x/?code=ABC&state=T1" (issuing "T2" oauth_world).

(** ** The session invariant *)

(** Either the session is authenticated and holds an identity, a client
    handle and credential material, or it is not authenticated and holds
    neither an identity nor a client handle; the credential store, when there
    is one, is a dictionary. *)
Definition session_inv (s : gmap string value) : Prop :=
  creds_ok s /\
  ((is_authenticated s = true /\ has_identity s /\ has_client s /\ has_token_material s) \/
   (is_authenticated s = false /\ ~ has_identity s /\ ~ has_client s)).

(** The keys a login may write. *)
Definition login_keys : list string :=
  ["authenticated"; "client"; "user"; "auth_credentials";
   "access_token"; "refresh_token"; "csrf_token"; "oauth"].


(** ** Vocabulary of the further properties *)



(** A world whose URL parser raises. *)
Definition unparseable (w : world) : world :=
  {| secrets := secrets w;
     radio_auth_method := radio_auth_method w;
     button_logout := button_logout w;
     button_open_link := button_open_link w;
     button_jwt := button_jwt w;
     button_dev := button_dev w;
     text_redirect_url := text_redirect_url w;
     parse_query := fun _ => None;
     sdk_get_authorization_url := sdk_get_authorization_url w;
     sdk_authenticate := sdk_authenticate w;
     sdk_jwt_from_settings := sdk_jwt_from_settings w;
     sdk_current_user := sdk_current_user w |}.

(** A world in which the SDK refuses to build the authorization URL. *)
Definition url_failing (w : world) : world :=
  {| secrets := secrets w;
     radio_auth_method := radio_auth_method w;
     button_logout := button_logout w;
     button_open_link := button_open_link w;
     button_jwt := button_jwt w;
     button_dev := button_dev w;
     text_redirect_url := text_redirect_url w;
     parse_query := parse_query w;
     sdk_get_authorization_url := fun _ _ => inl "invalid client";
     sdk_authenticate := sdk_authenticate w;
     sdk_jwt_from_settings := sdk_jwt_from_settings w;
     sdk_current_user := sdk_current_user w |}.

(** Worlds for the other two strategies. *)
Definition choosing (method : auth_method) (jwt_clicked dev_clicked : bool) (w : world) : world :=
  {| secrets := secrets w;
     radio_auth_method := method;
     button_logout := button_logout w;
     button_open_link := button_open_link w;
     button_jwt := jwt_clicked;
     button_dev := dev_clicked;
     text_redirect_url := text_redirect_url w;
     parse_query := parse_query w;
     sdk_get_authorization_url := sdk_get_authorization_url w;
     sdk_authenticate := sdk_authenticate w;
     sdk_jwt_from_settings := sdk_jwt_from_settings w;
     sdk_current_user := sdk_current_user w |}.

Definition jwt_config_sample : sval :=
  SDict {[ "boxAppSettings" := SDict {[ "clientID" := SStr "j1" ]};
           "enterpriseID" := SStr "e1" ]}.

Definition secrets_jwt : gmap string sval := {[ "box_jwt" := jwt_config_sample ]}.

(** A [box_jwt] section without the enterprise identifier (scenario D). *)
Definition secrets_jwt_no_enterprise : gmap string sval :=
  {[ "box_jwt" := SDict {[ "boxAppSettings" := SDict {[ "clientID" := SStr "j1" ]} ]} ]}.

Definition secrets_dev : gmap string sval :=
  {[ "box_dev" := SDict {[ "client_id" := SStr "c2"; "client_secret" := SStr "s2";
                           "developer_token" := SStr "DT" ]} ]}.

(** A [box_dev] section without the developer token (scenario C). *)
Definition secrets_dev_no_token : gmap string sval :=
  {[ "box_dev" := SDict {[ "client_id" := SStr "c2"; "client_secret" := SStr "s2" ]} ]}.

Definition jwt_world : world := choosing JWT true false (quiet_world (Some secrets_jwt)).

Definition dev_world : world := choosing DeveloperToken false true (quiet_world (Some secrets_dev)).

(** What lines 341-349 copy from one section of the secret source before an
    exception, if any, stops them: the client id, then the client secret. *)
Definition section_client_entries (sec : sval) : gmap string sval :=
  match sval_getitem sec "client_id" with
  | inr client_id =>
      match sval_getitem sec "client_secret" with
      | inr client_secret => <["client_secret" := client_secret]> {[ "client_id" := client_id ]}
      | inl _ => {[ "client_id" := client_id ]}
      end
  | inl _ => ∅
  end.

(** The entries [store_tokens] copies from the secret source: those of
    [box_oauth] when that section is not empty, else those of [box_dev]. *)
Definition captured_entries (w : world) : gmap string sval :=
  match secrets w with
  | None => ∅
  | Some m =>
      if get_truthy m "box_oauth"
      then from_option section_client_entries ∅ (m !! "box_oauth")
      else if get_truthy m "box_dev"
           then from_option section_client_entries ∅ (m !! "box_dev")
           else ∅
  end.

(** A secret source with both sections. *)
Definition secrets_oauth_and_dev : gmap string sval :=
  {[ "box_oauth" := SDict {[ "client_id" := SStr "c1"; "client_secret" := SStr "s1" ]};
     "box_dev" := SDict {[ "client_id" := SStr "c2"; "client_secret" := SStr "s2";
                           "developer_token" := SStr "DT" ]} ]}.

(** A session that already holds a signed-assertion configuration. *)
Definition session_with_jwt_config : gmap string value :=
  {[ "auth_credentials" := VCreds {[ "jwt_config" := jwt_config_sample ]} ]}.

(** ** Vocabulary of the invariant of the credential store *)

(** The names under which the module writes into [auth_credentials]
    (lines 259, 310-312, 342-343, 347-348, 356 and 358). *)
Definition credential_keys : list string :=
  ["client_id"; "client_secret"; "access_token"; "refresh_token"; "jwt_config"].

Definition known_credentials (s : gmap string value) : Prop :=
  creds_ok s /\ forall k, is_Some (creds_dict s !! k) -> k ∈ credential_keys.

(** A piece of the script keeps [P] when it ends, normally or not, in a
    session satisfying [P] whenever it starts in one. *)
Definition keeps {A} (P : gmap string value -> Prop) (m : M A) : Prop :=
  forall s, P s -> P (st_after (m s)).

(** ** The debug view (lines 372-391) *)

(** [k.lower()] and ["token" in k], on ASCII strings; the names the module
    uses for session keys and credential entries are ASCII. *)
Definition ascii_lower (c : ascii) : ascii :=
  let n := nat_of_ascii c in
  if Nat.leb 65 n && Nat.leb n 90 then ascii_of_nat (n + 32) else c.

Fixpoint str_lower (s : string) : string :=
  match s with
  | EmptyString => EmptyString
  | String c s' => String (ascii_lower c) (str_lower s')
  end.

Fixpoint str_contains (sub s : string) : bool :=
  String.prefix sub s ||
  match s with
  | EmptyString => false
  | String _ s' => str_contains sub s'
  end.

(** What the sidebar writes about the session; the headings of lines 373,
    375 and 387 are left out.  Python lists the keys of a dictionary in the
    order of their insertion, which the session model does not record: the
    two key lists are given as sets. *)
Inductive debug_line :=
| DebugSessionKeys (keys : gset string)       (* line 376 *)
| DebugAuthenticated (v : value)              (* line 379 *)
| DebugClientAvailable                        (* line 382 *)
| DebugClientNotAvailable                     (* line 384 *)
| DebugCredentialKeys (keys : gset string)    (* line 389 *)
| DebugCredentialsNotAvailable.               (* line 391 *)

(** Line 389: [[k for k in auth_credentials.keys() if "token" not in k.lower()]] *)
Definition shown_credential_keys (d : gmap string sval) : gset string :=
  filter (fun k => str_contains "token" (str_lower k) = false) (dom d).

(** Lines 372-391: the lines written, and the exception that ends the block
    when [auth_credentials] holds something without [keys]. *)
Definition debug_authentication (checkbox : bool) (s : gmap string value)
    : list debug_line * option exn :=
  if checkbox then
    let written :=
      [DebugSessionKeys (dom s)] ++
      match s !! "authenticated" with
      | Some v => [DebugAuthenticated v]
      | None => []
      end ++
      [if bool_decide (is_Some (s !! "client"))
       then DebugClientAvailable else DebugClientNotAvailable] in
    match s !! "auth_credentials" with
    | Some (VCreds d) => (written ++ [DebugCredentialKeys (shown_credential_keys d)], None)
    | Some _ => (written, Some AttributeError)
    | None => (written ++ [DebugCredentialsNotAvailable], None)
    end
  else ([], None).

(** * The metadata configuration page ([modules/metadata_config.py]) *)

(** ** The entry of the page (lines 17-19) *)

(** [st.session_state.k]: attribute access, which raises when the key is
    absent. *)
Definition session_attr (k : string) (s : gmap string value) : exn + value :=
  match s !! k with
  | Some v => inr v
  | None => inl AttributeError
  end.

(** Line 17: [not st.session_state.authenticated or not st.session_state.client].
    [inr true]: the page shows 'Please authenticate with Box first' and
    returns. *)
Definition login_required (s : gmap string value) : exn + bool :=
  match session_attr "authenticated" s with
  | inl e => inl e
  | inr authenticated =>
      if negb (value_truthy authenticated) then inr true
      else match session_attr "client" s with
           | inl e => inl e
           | inr client => inr (negb (value_truthy client))
           end
  end.

(** ** Dictionaries whose order matters *)

(** [metadata_templates] and the model tables are iterated over: they are
    kept as the list of their items in insertion order. *)
Definition items_get {V} (d : list (string * V)) (k : string) : option V :=
  snd <$> (snd <$> list_find (fun p => fst p = k) d).

(** [d[k] = v]: an existing key keeps its place. *)
Fixpoint items_set {V} (d : list (string * V)) (k : string) (v : V) : list (string * V) :=
  match d with
  | [] => [(k, v)]
  | p :: d' => if decide (fst p = k) then (k, v) :: d' else p :: items_set d' k v
  end.

(** The values the page keeps in [st.session_state.metadata_config], as far
    as the modelled blocks tell them apart. *)
Inductive cval :=
| CStr (s : string)
| CBool (b : bool)
| COther.

(** ** The template selection (lines 142-213) *)

(** A metadata template: the page reads its display name for the options and
    its fields for the details. *)
Record template := Template {
  displayName : string;
  fields : list (string * string)
}.

(** Lines 142-144 *)
Definition template_options (templates : list (string * template)) : list (string * string) :=
  ("", "None - Use custom fields") ::
  map (fun item => (fst item, displayName (snd item))) templates.

(** Lines 170-174: the position of the first option that carries the current
    id, 0 when there is none. *)
Definition selected_index (template_options : list (string * string))
    (current_template_id : option string) : nat :=
  match current_template_id with
  | Some current =>
      from_option fst 0 (list_find (fun entry => fst entry = current) template_options)
  | None => 0
  end.

(** Lines 186-190 and 205-209: the id of the first option that carries the
    selected name, the empty string when there is none. *)
Definition selected_template_id (template_options : list (string * string))
    (selected_template : string) : string :=
  from_option (fun found => fst (snd found)) ""
    (list_find (fun entry => snd entry = selected_template) template_options).

(** Lines 165-193, for one document type: [selectbox options index] is what
    the select box returns. *)
Definition map_document_type (templates : list (string * template))
    (selectbox : list string -> nat -> string)
    (doc_type : string) (document_type_to_template : gmap string (option string))
    : gmap string (option string) :=
  let template_options := template_options templates in
  let current_template_id := mjoin (document_type_to_template !! doc_type) in
  let selected_template :=
    selectbox (template_options.*2) (selected_index template_options current_template_id) in
  <[doc_type := Some (selected_template_id template_options selected_template)]>
    document_type_to_template.

(** Lines 196-217: the general selection, and the template looked up for the
    details ([None] when no template is selected, [KeyError] when
    [templates[selected_template_id]] fails). *)
Definition select_template (templates : list (string * template))
    (selectbox : list string -> nat -> string) (metadata_config : gmap string cval)
    : gmap string cval * (exn + option template) :=
  let template_options := template_options templates in
  let selected_template_name := selectbox (template_options.*2) 0 in
  let selected_template_id := selected_template_id template_options selected_template_name in
  let metadata_config :=
    <["use_template" := CBool (negb (String.eqb selected_template_id ""))]>
      (<["template_id" := CStr selected_template_id]> metadata_config) in
  (metadata_config,
   if str_truthy selected_template_id
   then match items_get templates selected_template_id with
        | Some template => inr (Some template)
        | None => inl (KeyError selected_template_id)
        end
   else inr None).

(** ** The model selection (lines 283-370) *)

(** Line 318 and line 324: [f"{name} (Description not found)"] *)
Definition description_not_found (name : string) : string :=
  String.append name " (Description not found)".

(** What the block logs. *)
Inductive model_log :=
| LogMissingDescription (name : string)                   (* line 325 *)
| LogModelNotAllowed (current : cval) (fallback : string) (* line 338 *)
| LogModelIndex (current : string).                       (* line 348 *)

(** Lines 318-319, for the two tables of lines 283-315. *)
Definition described_models (all_models_with_desc : list (string * string))
    (allowed_model_names : list string) : list (string * string) :=
  foldl (fun d name =>
           if bool_decide (is_Some (items_get all_models_with_desc name))
           then items_set d name
                  (default (description_not_found name) (items_get all_models_with_desc name))
           else d)
        [] allowed_model_names.

(** Lines 322-325: the allowed names without a description get a placeholder,
    with a warning. *)
Definition add_placeholder (acc : list (string * string) * list model_log) (name : string)
    : list (string * string) * list model_log :=
  if bool_decide (is_Some (items_get (fst acc) name)) then acc
  else (items_set (fst acc) name (description_not_found name),
        snd acc ++ [LogMissingDescription name]).

Definition ai_models_with_desc_logged (all_models_with_desc : list (string * string))
    (allowed_model_names : list string) : list (string * string) * list model_log :=
  foldl add_placeholder
        (described_models all_models_with_desc allowed_model_names, [])
        allowed_model_names.

Definition ai_models_with_desc (all_models_with_desc : list (string * string))
    (allowed_model_names : list string) : list (string * string) :=
  fst (ai_models_with_desc_logged all_models_with_desc allowed_model_names).

Record model_selection := ModelSelection {
  shown_options : list string;
  shown_index : nat;
  metadata_config_after : gmap string cval;
  logged : list model_log
}.

(** Lines 327-370.  [ai_model_names[0]] raises on an empty table; the
    [except (ValueError, KeyError)] of line 346 catches a failed [index]. *)
Definition select_ai_model (all_models_with_desc : list (string * string))
    (allowed_model_names : list string)
    (selectbox : list string -> nat -> string) (metadata_config : gmap string cval)
    : exn + model_selection :=
  let ai_models_with_desc := ai_models_with_desc all_models_with_desc allowed_model_names in
  let ai_model_names := ai_models_with_desc.*1 in
  let ai_model_options := ai_models_with_desc.*2 in
  match head ai_model_names, head ai_model_options with
  | Some first_name, Some first_option =>
      let current := default (CStr first_name) (metadata_config !! "ai_model") in
      let allowed_current :=
        match current with
        | CStr name => if bool_decide (name ∈ ai_model_names) then Some name else None
        | _ => None
        end in
      let current_model_name := default first_name allowed_current in
      let metadata_config1 :=
        match allowed_current with
        | Some _ => metadata_config
        | None => <["ai_model" := CStr first_name]> metadata_config
        end in
      let log1 :=
        match allowed_current with
        | Some _ => []
        | None => [LogModelNotAllowed current first_name]
        end in
      let current_model_desc :=
        default first_option (items_get ai_models_with_desc current_model_name) in
      let found := list_find (fun desc => desc = current_model_desc) ai_model_options in
      let selected_index := from_option fst 0 found in
      let metadata_config2 :=
        match found with
        | Some _ => metadata_config1
        | None => <["ai_model" := CStr first_name]> metadata_config1
        end in
      let log2 :=
        match found with
        | Some _ => []
        | None => [LogModelIndex current_model_name]
        end in
      let selected_model_desc := selectbox ai_model_options selected_index in
      let selected_model_name :=
        from_option (fun found => fst (snd found)) ""
          (list_find (fun item => snd item = selected_model_desc) ai_models_with_desc) in
      inr {| shown_options := ai_model_options;
             shown_index := selected_index;
             metadata_config_after :=
               <["ai_model" := CStr selected_model_name]> metadata_config2;
             logged := snd (ai_models_with_desc_logged all_models_with_desc
                              allowed_model_names) ++ log1 ++ log2 |}
  | _, _ => inl IndexError
  end.

(** Lines 283-306 *)
Definition all_models_with_desc : list (string * string) :=
  [("google__gemini_2_0_flash_lite_preview",
    "Google Gemini 2.0 Flash Lite: Lightweight multimodal model (Default for Box AI Extract) (Preview)");
   ("azure__openai__gpt_4o_mini", "Azure OpenAI GPT-4o Mini: Lightweight multimodal model");
   ("azure__openai__gpt_4o",
    "Azure OpenAI GPT-4o: Highly efficient multimodal model for complex tasks");
   ("azure__openai__gpt_4_1_mini",
    "Azure OpenAI GPT-4.1 Mini: Lightweight multimodal model (Default for some Box AI features)");
   ("azure__openai__gpt_4_1",
    "Azure OpenAI GPT-4.1: Highly efficient multimodal model for complex tasks");
   ("azure__openai__gpt_o3",
    "Azure OpenAI GPT o3: Highly efficient multimodal model for complex tasks");
   ("azure__openai__gpt_o4-mini",
    "Azure OpenAI GPT o4-mini: Highly efficient multimodal model for complex tasks");
   ("google__gemini_2_5_pro_preview",
    "Google Gemini 2.5 Pro: Optimal for high-volume, high-frequency tasks (Preview)");
   ("google__gemini_2_5_flash_preview",
    "Google Gemini 2.5 Flash: Optimal for high-volume, high-frequency tasks (Preview)");
   ("google__gemini_2_0_flash_001",
    "Google Gemini 2.0 Flash: Optimal for high-volume, high-frequency tasks");
   ("google__gemini_1_5_flash_001",
    "Google Gemini 1.5 Flash: High volume tasks & latency-sensitive applications");
   ("google__gemini_1_5_pro_001",
    "Google Gemini 1.5 Pro: Foundation model for various multimodal tasks");
   ("aws__claude_3_haiku", "AWS Claude 3 Haiku: Tailored for various language tasks");
   ("aws__claude_3_sonnet",
    "AWS Claude 3 Sonnet: Advanced language tasks, comprehension & context handling");
   ("aws__claude_3_5_sonnet",
    "AWS Claude 3.5 Sonnet: Enhanced language understanding and generation");
   ("aws__claude_3_7_sonnet",
    "AWS Claude 3.7 Sonnet: Enhanced language understanding and generation");
   ("aws__titan_text_lite",
    "AWS Titan Text Lite: Advanced language processing, extensive contexts");
   ("ibm__llama_3_2_instruct",
    "IBM Llama 3.2 Instruct: Instruction-tuned text model for dialogue, retrieval, summarization");
   ("ibm__llama_3_2_90b_vision_instruct",
    "IBM Llama 3.2 90B Vision Instruct: Instruction-tuned vision model (From Error Log)");
   ("ibm__llama_4_scout",
    "IBM Llama 4 Scout: Natively multimodal model for text and multimodal experiences");
   ("xai__grok_3_beta",
    "xAI Grok 3: Excels at data extraction, coding, summarization (Beta)");
   ("xai__grok_3_mini_beta",
    "xAI Grok 3 Mini: Lightweight model for logic-based tasks (Beta)")].

(** Lines 309-315 *)
Definition allowed_model_names : list string :=
  ["azure__openai__gpt_4o_mini"; "azure__openai__gpt_4_1"; "azure__openai__gpt_4_1_mini";
   "google__gemini_1_5_pro_001"; "google__gemini_1_5_flash_001"; "google__gemini_2_0_flash_001";
   "google__gemini_2_0_flash_lite_preview"; "aws__claude_3_haiku"; "aws__claude_3_sonnet";
   "aws__claude_3_5_sonnet"; "aws__claude_3_7_sonnet"; "aws__titan_text_lite";
   "ibm__llama_3_2_90b_vision_instruct"; "ibm__llama_4_scout"].

(** ** Sample inputs of the metadata page *)

Definition templates_sample : list (string * template) :=
  [("invoice", {| displayName := "Invoice"; fields := [("Total", "float")] |});
   ("contract", {| displayName := "Contract"; fields := [("Party", "string")] |})].

(** A select box in which the user picks [name], and one left as it is
    rendered. *)
Definition picking (name : string) : list string -> nat -> string := fun _ _ => name.

Definition untouched : list string -> nat -> string :=
  fun options index => default "" (options !! index).

(** ** The custom fields (lines 230-273) *)

Record custom_field := CustomField {
  field_name : string;
  field_type : string
}.

(** Lines 252-253 *)
Definition field_type_options : list string := ["string"; "number"; "date"; "enum"].

(** The widgets of the block: what the text input and the select box of row
    [i] return, given the value and the index they are rendered with, and
    the buttons that are clicked. *)
Record field_widgets := FieldWidgets {
  field_name_input : nat -> string -> string;
  field_type_selectbox : nat -> nat -> string;
  remove_field_button : nat -> bool;
  add_field_button : bool
}.

(** Lines 238-265, from row [i] on: [before] are the rows already passed, with
    the values of their widgets written back; [index] raises [ValueError] on a
    stored type that is not an option, and a click on Remove pops the row and
    asks for a rerun, which ends the loop. *)
Fixpoint edit_custom_fields (w : field_widgets) (i : nat)
    (before rest : list custom_field) : list custom_field * (exn + unit) :=
  match rest with
  | [] => (before, inr tt)
  | field :: rest' =>
      let name := field_name_input w i (field_name field) in
      match list_find (fun candidate => candidate = field_type field) field_type_options with
      | None => (before ++ rest, inl ValueError)
      | Some (index, _) =>
          let type := field_type_selectbox w i index in
          if remove_field_button w i then (before ++ rest', inl RerunException)
          else edit_custom_fields w (S i)
                 (before ++ [{| field_name := name; field_type := type |}]) rest'
      end
  end.

(** Line 270: [f"Field {n}"] *)
Definition new_field_name (n : nat) : string :=
  String.append "Field " (NilZero.string_of_uint (Nat.to_uint n)).

(** Lines 233-273, reached when no template is selected: the list kept under
    [custom_fields] after the block ([None]: no such entry before), and how
    the block ends. *)
Definition custom_fields_block (w : field_widgets)
    (custom_fields : option (list custom_field)) : list custom_field * (exn + unit) :=
  let edited := edit_custom_fields w 0 [] (default [] custom_fields) in
  match snd edited with
  | inr _ =>
      if add_field_button w
      then (fst edited ++
              [{| field_name := new_field_name (length (fst edited) + 1);
                  field_type := "string" |}],
            inl RerunException)
      else (fst edited, inr tt)
  | inl e => (fst edited, inl e)
  end.

(** The row written back for row [i] (lines 264-265). *)
Definition edited_row (w : field_widgets) (i : nat) (field : custom_field) : custom_field :=
  {| field_name := field_name_input w i (field_name field);
     field_type :=
       field_type_selectbox w i
         (from_option fst 0
            (list_find (fun candidate => candidate = field_type field) field_type_options)) |}.

(** Sample rows and widgets: rows left as rendered, with the Remove button
    of row [clicked] pressed. *)
Definition fields_sample : list custom_field :=
  [{| field_name := "Vendor"; field_type := "string" |};
   {| field_name := "Total"; field_type := "number" |};
   {| field_name := "Due"; field_type := "date" |}].

Definition removing (clicked : nat) : field_widgets :=
  {| field_name_input := fun _ value => value;
     field_type_selectbox := fun _ index => default "" (field_type_options !! index);
     remove_field_button := fun i => Nat.eqb i clicked;
     add_field_button := false |}.

(** * Properties *)

(** ** The validator *)

Lemma check_keys_flat_map m section_name sec keys missing :
  m !! section_name = Some sec ->
  check_keys section_name sec keys missing =
  missing ++ flat_map (fun key =>
                         if spec_resolves m (section_name :: split_on "."%char key)
                         then [] else [key_label section_name key]) keys.
Proof.
  intros Hsec. revert missing.
  induction keys as [|key rest IH]; intros missing; simpl.
  - by rewrite app_nil_r.
  - unfold spec_resolves at 1. simpl. rewrite Hsec.
    destruct (walk (split_on "." key) sec); rewrite IH; simpl.
    + done.
    + by rewrite <- app_assoc.
Qed.

Lemma check_sections_expected m reqs missing :
  Forall wf_required reqs ->
  check_sections m reqs missing = inr (missing ++ expected_missing m reqs).
Proof.
  intros Hwf. revert missing.
  induction Hwf as [|r reqs Hr _ IH]; intros missing; simpl.
  - by rewrite app_nil_r.
  - destruct r as [section|[|[section_name keys] more]]; simpl in *; try done.
    + destruct (get_truthy m section); rewrite IH; simpl; [done|].
      by rewrite <- app_assoc.
    + unfold get_truthy. destruct (m !! section_name) as [sec|] eqn:Hsec.
      * destruct (sval_truthy sec); rewrite IH.
        -- rewrite (check_keys_flat_map m) by done. by rewrite <- app_assoc.
        -- by rewrite <- app_assoc.
      * rewrite IH. by rewrite <- app_assoc.
Qed.

Lemma check_secrets_available_run w m reqs s :
  secrets w = Some m ->
  Forall wf_required reqs ->
  check_secrets_available w reqs s =
  match expected_missing m reqs with
  | [] => Outcome s [] (inr (true, []))
  | x :: l => Outcome s [StError (ErrMissingSecrets (x :: l))] (inr (false, x :: l))
  end.
Proof.
  intros Hm Hwf. unfold check_secrets_available. rewrite Hm.
  unfold bind, lift. simpl. rewrite check_sections_expected by done. simpl.
  by destruct (expected_missing m reqs).
Qed.








(** The requirement lists of the three call sites (lines 133, 222, 277) are
    well formed. *)
Example call_sites_well_formed :
  Forall wf_required [ReqSection [("box_oauth", ["client_id"; "client_secret"])]] /\
  Forall wf_required [ReqKey "box_jwt"] /\
  Forall wf_required
    [ReqSection [("box_dev", ["client_id"; "client_secret"; "developer_token"])]].
Proof. repeat split; repeat constructor. Qed.


(** ** The token-storage callback *)

Section TouchesOnlyCreds.
Context {A B : Type}.

Lemma toc_ret (a : A) : touches_only_creds (ret a).
Proof. intros s d Hs. exists d. simpl. by rewrite insert_id. Qed.

Lemma toc_raise (e : exn) : is_Exception e = true -> touches_only_creds (@raise A e).
Proof. intros He s d Hs. exists d. simpl. by rewrite insert_id. Qed.

Lemma toc_lift (r : exn + A) :
  match r with inl e => is_Exception e = true | inr _ => True end ->
  touches_only_creds (lift r).
Proof. intros Hr s d Hs. exists d. simpl. by rewrite insert_id. Qed.

Lemma toc_bind (m : M A) (f : A -> M B) :
  touches_only_creds m -> (forall a, touches_only_creds (f a)) ->
  touches_only_creds (bind m f).
Proof.
  intros Hm Hf s d Hs. destruct (Hm s d Hs) as (d1 & Hst & Hev & Hret).
  unfold bind. destruct (returned (m s)) as [e|a]; simpl.
  - by exists d1.
  - destruct (Hf a (st_after (m s)) d1) as (d2 & Hst2 & Hev2 & Hret2).
    { rewrite Hst. apply lookup_insert_eq. }
    exists d2. split; [|split; [|done]].
    + rewrite Hst2, Hst. apply insert_insert_eq.
    + by apply Forall_app.
Qed.
End TouchesOnlyCreds.

Lemma toc_emit_log l : touches_only_creds (emit (LogProblem l)).
Proof.
  intros s d Hs. exists d. simpl. rewrite insert_id by done.
  split; [done|]. split; [|done]. by repeat constructor.
Qed.

Lemma toc_creds_setitem k v : touches_only_creds (creds_setitem k v).
Proof.
  intros s d Hs. exists (<[k := v]> d). unfold creds_setitem. rewrite Hs. simpl.
  split; [done|]. split; [constructor|done].
Qed.

Lemma toc_secrets_get w k : touches_only_creds (secrets_get w k).
Proof.
  unfold secrets_get. destruct (secrets w); [apply toc_ret|by apply toc_raise].
Qed.

Lemma toc_secrets_getitem2 w section key : touches_only_creds (secrets_getitem2 w section key).
Proof.
  unfold secrets_getitem2, secrets_getitem. apply toc_bind.
  - destruct (secrets w) as [m|]; [|by apply toc_raise].
    destruct (m !! section); [apply toc_ret|by apply toc_raise].
  - intros sec. apply toc_lift. unfold sval_getitem.
    destruct sec as [?|d|?]; try done. by destruct (d !! key).
Qed.

Lemma toc_capture_client_secrets w : touches_only_creds (capture_client_secrets w).
Proof.
  unfold capture_client_secrets.
  apply toc_bind; [apply toc_secrets_get|]. intros box_oauth.
  destruct (opt_sval_truthy box_oauth).
  - repeat (apply toc_bind; [first [apply toc_secrets_getitem2|apply toc_creds_setitem]|intros ?]).
    apply toc_creds_setitem.
  - apply toc_bind; [apply toc_secrets_get|]. intros box_dev.
    destruct (opt_sval_truthy box_dev); [|apply toc_emit_log].
    repeat (apply toc_bind; [first [apply toc_secrets_getitem2|apply toc_creds_setitem]|intros ?]).
    apply toc_creds_setitem.
Qed.

(** Lines 339-353: whatever the secret source holds, the guarded lookup
    ends normally, having changed the credential dictionary only. *)
Lemma capture_guarded w s d :
  s !! "auth_credentials" = Some (VCreds d) ->
  exists d' evs,
    try_except (capture_client_secrets w)
               (fun e => emit (LogProblem (LogSecretsAccess e))) s =
    Outcome (<["auth_credentials" := VCreds d']> s) evs (inr tt) /\
    Forall is_log evs.
Proof.
  intros Hs. destruct (toc_capture_client_secrets w s d Hs) as (d' & Hst & Hev & Hret).
  unfold try_except.
  destruct (capture_client_secrets w s) as [s1 evs1 [e|[]]]; simpl in *; subst s1.
  - rewrite Hret. simpl. eexists d', _. split; [done|].
    apply Forall_app. split; [done|]. by repeat constructor.
  - by exists d', evs1.
Qed.

(** Running a sequence step by step. *)
Section Running.
Context {A B : Type}.

Lemma bind_run (m : M A) (f : A -> M B) s s1 evs1 a s2 evs2 r :
  m s = Outcome s1 evs1 (inr a) ->
  f a s1 = Outcome s2 evs2 r ->
  bind m f s = Outcome s2 (evs1 ++ evs2) r.
Proof. intros Hm Hf. unfold bind. rewrite Hm. simpl. by rewrite Hf. Qed.

Lemma bind_raise (m : M A) (f : A -> M B) s s1 evs1 e :
  m s = Outcome s1 evs1 (inl e) ->
  bind m f s = Outcome s1 evs1 (inl e).
Proof. intros Hm. unfold bind. by rewrite Hm. Qed.

Lemma try_except_caught (m : M A) h s s1 evs1 e s2 evs2 r :
  m s = Outcome s1 evs1 (inl e) ->
  is_Exception e = true ->
  h e s1 = Outcome s2 evs2 r ->
  try_except m h s = Outcome s2 (evs1 ++ evs2) r.
Proof. intros Hm He Hh. unfold try_except. rewrite Hm. simpl. rewrite He. by rewrite Hh. Qed.

Lemma try_except_passed (m : M A) h s s1 evs1 r :
  m s = Outcome s1 evs1 r ->
  match r with inl e => is_Exception e = false | inr _ => True end ->
  try_except m h s = Outcome s1 evs1 r.
Proof.
  intros Hm Hr. unfold try_except. rewrite Hm. simpl.
  destruct r as [e|a]; [|done]. by rewrite Hr.
Qed.
End Running.

Lemma record_refresh_session_creds rt s :
  record_refresh_session rt s !! "auth_credentials" = s !! "auth_credentials".
Proof.
  unfold record_refresh_session. destruct rt as [r|]; [|done].
  destruct (str_truthy r); [|done]. by rewrite lookup_insert_ne.
Qed.

Lemma store_tokens_run w access_token refresh_token s :
  creds_ok s ->
  exists d evs,
    store_tokens w access_token refresh_token s =
    Outcome (tokens_stored access_token refresh_token d s) evs
            (inr (access_token, refresh_token)) /\
    Forall is_log evs.
Proof.
  intros Hok.
  set (s1 := record_refresh_session refresh_token (<["access_token" := VStr access_token]> s)).
  assert (exists d0 s2, s2 !! "auth_credentials" = Some (VCreds d0) /\
            ensure_auth_credentials s1 = Outcome s2 [] (inr tt) /\
            forall x, <["auth_credentials" := x]> s2 = <["auth_credentials" := x]> s1)
    as (d0 & s2 & Hs2 & Hens & Hins).
  { unfold ensure_auth_credentials, creds_ok in *. subst s1.
    rewrite record_refresh_session_creds, lookup_insert_ne by done.
    destruct (s !! "auth_credentials") as [[]|] eqn:Hc; try done.
    - eexists _, _. split; [|split; [done|done]].
      by rewrite record_refresh_session_creds, lookup_insert_ne.
    - eexists ∅, _. split; [apply lookup_insert_eq|]. split; [done|].
      intros x. apply insert_insert_eq. }
  destruct (capture_guarded w s2 d0 Hs2) as (d' & evs & Hcap & Hlog).
  exists d', (evs ++ []). split; [|by rewrite app_nil_r].
  unfold store_tokens, tokens_stored. fold s1.
  eapply (bind_run _ _ _ _ []); [done|].
  eapply (bind_run _ _ _ s1 []).
  { subst s1. unfold record_refresh_session. destruct refresh_token as [r|]; [|done].
    by destruct (str_truthy r). }
  eapply (bind_run _ _ _ _ []); [exact Hens|].
  eapply bind_run; [exact Hcap|].
  eapply (bind_run _ _ _ _ []).
  { unfold creds_setitem. by rewrite lookup_insert_eq. }
  rewrite insert_insert_eq, Hins.
  eapply (bind_run _ _ _ _ []); [|done].
  unfold record_refresh_creds. destruct refresh_token as [r|]; [|done].
  destruct (str_truthy r); [|done].
  unfold creds_setitem. rewrite lookup_insert_eq. by rewrite insert_insert_eq.
Qed.

Lemma str_truthy_nonempty r : str_truthy r = true <-> r <> "".
Proof.
  unfold str_truthy. destruct (String.eqb_spec r ""); simpl; split; congruence.
Qed.

(** C10, amended: on a session whose credential store is absent or a
    dictionary (every reachable session is such), and for every secret
    source, [store_tokens] returns exactly the pair it was given, emits log
    lines only, and records the access token; it records the refresh token
    when one is given and is not the empty string. *)
Theorem store_tokens_returns_and_records w access_token refresh_token s :
  creds_ok s ->
  returned (store_tokens w access_token refresh_token s) = inr (access_token, refresh_token) /\
  Forall is_log (emitted (store_tokens w access_token refresh_token s)) /\
  st_after (store_tokens w access_token refresh_token s) !! "access_token" =
    Some (VStr access_token) /\
  exists d,
    st_after (store_tokens w access_token refresh_token s) !! "auth_credentials" =
      Some (VCreds d) /\
    d !! "access_token" = Some (SStr access_token) /\
    forall r, refresh_token = Some r -> r <> "" ->
      d !! "refresh_token" = Some (SStr r) /\
      st_after (store_tokens w access_token refresh_token s) !! "refresh_token" =
        Some (VStr r).
Proof.
  intros Hok. destruct (store_tokens_run w access_token refresh_token s Hok)
    as (d & evs & -> & Hlog). simpl.
  split; [done|]. split; [done|]. unfold tokens_stored. split.
  - rewrite lookup_insert_ne by done. unfold record_refresh_session.
    destruct refresh_token as [r|]; [destruct (str_truthy r)|].
    + rewrite lookup_insert_ne by done. apply lookup_insert_eq.
    + apply lookup_insert_eq.
    + apply lookup_insert_eq.
  - eexists. split; [apply lookup_insert_eq|]. split.
    + unfold record_refresh_creds.
      destruct refresh_token as [r|]; [destruct (str_truthy r)|].
      * rewrite lookup_insert_ne by done. apply lookup_insert_eq.
      * apply lookup_insert_eq.
      * apply lookup_insert_eq.
    + intros r -> Hr%str_truthy_nonempty. simpl. rewrite Hr. split.
      * apply lookup_insert_eq.
      * rewrite lookup_insert_ne by done. apply lookup_insert_eq.
Qed.

Lemma store_tokens_returns_and_records_witness :
  creds_ok ∅ /\
  returned (store_tokens (quiet_world (Some secrets_oauth_broken)) "AT1" (Some "RT1") ∅) =
    inr ("AT1", Some "RT1") /\
  Forall is_log (emitted (store_tokens (quiet_world (Some secrets_oauth_broken)) "AT1"
                            (Some "RT1") ∅)) /\
  st_after (store_tokens (quiet_world (Some secrets_oauth_broken)) "AT1" (Some "RT1") ∅)
    !! "access_token" = Some (VStr "AT1") /\
  exists d,
    st_after (store_tokens (quiet_world (Some secrets_oauth_broken)) "AT1" (Some "RT1") ∅)
      !! "auth_credentials" = Some (VCreds d) /\
    d !! "access_token" = Some (SStr "AT1") /\
    forall r, Some "RT1" = Some r -> r <> "" ->
      d !! "refresh_token" = Some (SStr r) /\
      st_after (store_tokens (quiet_world (Some secrets_oauth_broken)) "AT1" (Some "RT1") ∅)
        !! "refresh_token" = Some (VStr r).
Proof.
  split; [exact I|].
  apply (store_tokens_returns_and_records
           (quiet_world (Some secrets_oauth_broken)) "AT1" (Some "RT1") ∅).
  exact I.
Defined.

(** The failed lookup of the witness above is caught and logged. *)
Example store_tokens_logs_failed_lookup :
  emitted (store_tokens (quiet_world (Some secrets_oauth_broken)) "AT1" (Some "RT1") ∅) =
  [LogProblem (LogSecretsAccess TypeError)].
Proof. reflexivity. Qed.

(** C10 as stated fails: a refresh token that is given as the empty string is
    not recorded. *)
Lemma store_tokens_claim_fails_on_empty_refresh_token :
  ~ store_tokens_claim (quiet_world (Some secrets_oauth)) "AT1" (Some "") ∅.
Proof.
  intros (_ & d & Hd & _ & Hrt). specialize (Hrt "" eq_refl).
  vm_compute in Hd. injection Hd as <-. vm_compute in Hrt. discriminate.
Qed.

(** ** Delegated authorization, run by run *)

Lemma sdict_with_key_truthy (d : gmap string sval) k v :
  d !! k = Some v -> sval_truthy (SDict d) = true.
Proof.
  intros Hk. simpl. destruct (size d) eqn:Hsize; [|done].
  apply map_size_empty_iff in Hsize. subst d. by rewrite lookup_empty in Hk.
Qed.

Lemma oauth2_after_check w client_id client_secret redirect_uri s :
  oauth_configured w client_id client_secret redirect_uri ->
  oauth2_authentication_secrets w s =
  try_except (authorization_flow w (OAuth2Obj client_id client_secret None) redirect_uri)
             (fun e => emit (StError (ErrOAuthInit e)) ;;; emit (LogProblem LogOAuthInit)) s.
Proof.
  intros (m & d & Hm & Hsec & Hid & Hsecret & ->).
  unfold oauth2_authentication_secrets.
  unfold bind at 1.
  rewrite (check_secrets_available_run w m); [|done|by repeat constructor].
  assert (expected_missing m [ReqSection [("box_oauth", ["client_id"; "client_secret"])]] = [])
    as ->.
  { unfold expected_missing. simpl. unfold get_truthy. rewrite Hsec.
    rewrite (sdict_with_key_truthy d _ _ Hid). unfold spec_resolves. simpl.
    by rewrite Hsec, Hid, Hsecret. }
  simpl.
  unfold secrets_getitem2, secrets_getitem, secrets_redirect_uri, secrets_get.
  rewrite Hm, Hsec. unfold bind, ret, lift. simpl. rewrite Hid, Hsecret. simpl.
  by destruct (try_except _ _ s).
Qed.

Lemma begin_authorization_run w oauth redirect_uri auth_url token s :
  sdk_get_authorization_url w oauth redirect_uri = inr (auth_url, token) ->
  begin_authorization w oauth redirect_uri s =
  Outcome (pending_session token oauth s) [SdkGetAuthorizationUrl redirect_uri] (inr auth_url).
Proof.
  intros Hsdk. unfold begin_authorization, get_authorization_url.
  rewrite Hsdk. reflexivity.
Qed.

Lemma try_except_guarded (m : M unit) msg l s s2 evs r :
  m s = Outcome s2 evs r ->
  try_except m (fun e => emit (StError (msg e)) ;;; emit (LogProblem l)) s =
  guarded s2 evs r msg l.
Proof.
  intros Hm. unfold try_except, guarded. rewrite Hm. simpl.
  destruct r as [e|[]]; [|done]. by destruct (is_Exception e).
Qed.

Lemma guarded_returned {A} s2 evs (r : exn + A) msg l :
  returned (guarded s2 evs r msg l) = inr tt \/
  returned (guarded s2 evs r msg l) = inl RerunException.
Proof.
  unfold guarded. destruct r as [e|a]; [|by left].
  destruct e; simpl; auto.
Qed.

(** One run of the delegated strategy, in terms of what the processing of the
    pasted URL does. *)
Lemma authorization_flow_run w oauth redirect_uri auth_url token s s2 evs r :
  sdk_get_authorization_url w oauth redirect_uri = inr (auth_url, token) ->
  str_truthy (text_redirect_url w) = true ->
  complete_authorization w oauth (text_redirect_url w) (pending_session token oauth s) =
    Outcome s2 evs r ->
  authorization_flow w oauth redirect_uri s =
  let o := guarded s2 evs r ErrProcessingCode LogProcessingCode in
  Outcome (st_after o) (begin_events w redirect_uri auth_url ++ emitted o) (returned o).
Proof.
  intros Hsdk Hurl Hcomplete. unfold authorization_flow. rewrite Hurl.
  pose proof (try_except_guarded _ ErrProcessingCode LogProcessingCode _ _ _ _ Hcomplete)
    as Hinner.
  destruct (guarded s2 evs r ErrProcessingCode LogProcessingCode) as [s3 evs3 r3].
  simpl. unfold begin_events.
  apply (bind_run _ _ s (pending_session token oauth s) [SdkGetAuthorizationUrl redirect_uri]
           auth_url).
  { by apply begin_authorization_run. }
  apply (bind_run _ _ _ (pending_session token oauth s)
           (if button_open_link w then [BrowserOpen auth_url] else []) tt).
  { by destruct (button_open_link w). }
  exact Hinner.
Qed.

Lemma oauth2_run w client_id client_secret redirect_uri auth_url token s s2 evs r :
  oauth_configured w client_id client_secret redirect_uri ->
  sdk_get_authorization_url w (OAuth2Obj client_id client_secret None) redirect_uri =
    inr (auth_url, token) ->
  str_truthy (text_redirect_url w) = true ->
  complete_authorization w (OAuth2Obj client_id client_secret None) (text_redirect_url w)
    (pending_session token (OAuth2Obj client_id client_secret None) s) = Outcome s2 evs r ->
  oauth2_authentication_secrets w s =
  let o := guarded s2 evs r ErrProcessingCode LogProcessingCode in
  Outcome (st_after o) (begin_events w redirect_uri auth_url ++ emitted o) (returned o).
Proof.
  intros Hconf Hsdk Hurl Hcomplete.
  rewrite (oauth2_after_check w client_id client_secret redirect_uri) by done.
  pose proof (authorization_flow_run w _ _ _ _ s _ _ _ Hsdk Hurl Hcomplete) as Hflow.
  simpl in *.
  rewrite (try_except_passed _ _ _ _ _ _ Hflow); [done|].
  by destruct (guarded_returned s2 evs r ErrProcessingCode LogProcessingCode) as [->| ->].
Qed.

Lemma oauth2_run_no_input w client_id client_secret redirect_uri auth_url token s :
  oauth_configured w client_id client_secret redirect_uri ->
  sdk_get_authorization_url w (OAuth2Obj client_id client_secret None) redirect_uri =
    inr (auth_url, token) ->
  str_truthy (text_redirect_url w) = false ->
  oauth2_authentication_secrets w s =
  Outcome (pending_session token (OAuth2Obj client_id client_secret None) s)
          (begin_events w redirect_uri auth_url) (inr tt).
Proof.
  intros Hconf Hsdk Hurl.
  rewrite (oauth2_after_check w client_id client_secret redirect_uri) by done.
  apply try_except_passed; [|done].
  unfold authorization_flow. rewrite Hurl. unfold begin_events.
  apply (bind_run _ _ s (pending_session token (OAuth2Obj client_id client_secret None) s)
           [SdkGetAuthorizationUrl redirect_uri] auth_url).
  { by apply begin_authorization_run. }
  destruct (button_open_link w); reflexivity.
Qed.

Lemma pending_session_csrf token oauth s :
  pending_session token oauth s !! "csrf_token" = Some (VStr token).
Proof. unfold pending_session. rewrite lookup_insert_ne by done. apply lookup_insert_eq. Qed.

Lemma csrf_rejected_iff state token :
  csrf_rejected state (Some (VStr token)) = false <->
  state = Some token /\ token <> "".
Proof.
  unfold csrf_rejected. destruct state as [st|]; [|split; [done|by intros [? _]]].
  rewrite <- str_truthy_nonempty.
  destruct (String.eqb_spec st token) as [->|Hne]; simpl.
  - destruct (str_truthy token); simpl; split; try done. by intros [_ ?].
  - destruct (str_truthy st); simpl; split; try done; intros [[= ?] _]; done.
Qed.

Lemma bind_pure {A B} (m : M A) (f : A -> M B) s a :
  m s = Outcome s [] (inr a) -> bind m f s = f a s.
Proof. intros Hm. unfold bind. rewrite Hm. simpl. by destruct (f a s). Qed.

(** Lines 175-205, case by case. *)
Lemma complete_no_code w oauth url q s :
  parse_query w url = Some q -> q !! "code" = None ->
  complete_authorization w oauth url s = Outcome s [StError ErrNoAuthCode] (inr tt).
Proof. intros Hq Hcode. unfold complete_authorization. by rewrite Hq, Hcode. Qed.

Lemma complete_checks_state w oauth url q auth_code codes s :
  parse_query w url = Some q ->
  q !! "code" = Some (auth_code :: codes) ->
  no_empty_entry q "state" ->
  complete_authorization w oauth url s =
  if csrf_rejected (first_param q "state") (s !! "csrf_token")
  then Outcome s [StError ErrCsrfMismatch; LogProblem LogCsrfMismatch] (inr tt)
  else exchange_and_commit w oauth auth_code s.
Proof.
  intros Hq Hcode Hne. unfold complete_authorization. rewrite Hq, Hcode.
  rewrite (bind_pure _ _ _ auth_code) by done.
  rewrite (bind_pure _ _ _ (first_param q "state")).
  - rewrite (bind_pure _ _ _ (s !! "csrf_token")) by done.
    by destruct (csrf_rejected _ _).
  - unfold first_param, no_empty_entry in *.
    by destruct (q !! "state") as [[|st l]|].
Qed.

Lemma oauth_authenticate_rejected w auth_code msg s :
  sdk_authenticate w auth_code = inl msg ->
  oauth_authenticate w auth_code s =
  Outcome s [SdkAuthenticate auth_code] (inl (SdkError msg)).
Proof. intros Hsdk. unfold oauth_authenticate. unfold bind, emit. simpl. by rewrite Hsdk. Qed.

Lemma oauth_authenticate_accepted w auth_code access_token refresh_token s :
  sdk_authenticate w auth_code = inr (access_token, refresh_token) ->
  creds_ok s ->
  exists d evs,
    Forall is_log evs /\
    oauth_authenticate w auth_code s =
    Outcome (tokens_stored access_token refresh_token d s) (SdkAuthenticate auth_code :: evs)
            (inr (access_token, refresh_token)).
Proof.
  intros Hsdk Hok.
  destruct (store_tokens_run w access_token refresh_token s Hok) as (d & evs & Hrun & Hlog).
  exists d, evs. split; [done|]. unfold oauth_authenticate.
  apply (bind_run _ _ s s [SdkAuthenticate auth_code] tt); [done|].
  by rewrite Hsdk.
Qed.

Lemma current_user_get_run w auth s :
  current_user_get w auth s =
  Outcome s [SdkCurrentUser auth]
          match sdk_current_user w auth with
          | inl msg => inl (SdkError msg)
          | inr name => inr name
          end.
Proof.
  unfold current_user_get, bind, emit. simpl.
  by destruct (sdk_current_user w auth).
Qed.

Lemma commit_run auth name s :
  commit auth name s = Outcome (committed auth name s) [] (inr tt).
Proof. reflexivity. Qed.

Lemma exchange_rejected w oauth auth_code msg s :
  sdk_authenticate w auth_code = inl msg ->
  exchange_and_commit w oauth auth_code s =
  Outcome s [SdkAuthenticate auth_code] (inl (SdkError msg)).
Proof.
  intros Hsdk. unfold exchange_and_commit.
  by apply bind_raise, oauth_authenticate_rejected.
Qed.

Lemma exchange_accepted w oauth auth_code access_token refresh_token s :
  sdk_authenticate w auth_code = inr (access_token, refresh_token) ->
  creds_ok s ->
  exists d evs,
    Forall is_log evs /\
    exchange_and_commit w oauth auth_code s =
    match sdk_current_user w oauth with
    | inl msg =>
        Outcome (tokens_stored access_token refresh_token d s)
                (SdkAuthenticate auth_code :: evs ++ [SdkCurrentUser oauth])
                (inl (SdkError msg))
    | inr name =>
        Outcome (committed oauth name (tokens_stored access_token refresh_token d s))
                (SdkAuthenticate auth_code :: evs ++
                 [SdkCurrentUser oauth; StSuccess (Authenticated name)])
                (inl RerunException)
    end.
Proof.
  intros Hsdk Hok.
  destruct (oauth_authenticate_accepted w auth_code _ _ s Hsdk Hok) as (d & evs & Hlog & Hrun).
  exists d, evs. split; [done|]. unfold exchange_and_commit.
  destruct (sdk_current_user w oauth) as [msg|name] eqn:Huser.
  - change (SdkAuthenticate auth_code :: evs ++ [SdkCurrentUser oauth])
      with ((SdkAuthenticate auth_code :: evs) ++ [SdkCurrentUser oauth]).
    eapply bind_run; [exact Hrun|].
    apply bind_raise. rewrite current_user_get_run. by rewrite Huser.
  - change (SdkAuthenticate auth_code :: evs ++
            [SdkCurrentUser oauth; StSuccess (Authenticated name)])
      with ((SdkAuthenticate auth_code :: evs) ++
            ([SdkCurrentUser oauth] ++ ([] ++ ([StSuccess (Authenticated name)] ++ [])))).
    eapply bind_run; [exact Hrun|].
    eapply bind_run; [rewrite current_user_get_run; by rewrite Huser|].
    eapply bind_run; [apply commit_run|].
    eapply bind_run; reflexivity.
Qed.

(** ** Signed assertion and static token, run by run *)

Lemma ensure_auth_credentials_run s :
  creds_ok s ->
  exists s_e,
    ensure_auth_credentials s = Outcome s_e [] (inr tt) /\
    s_e !! "auth_credentials" = Some (VCreds (creds_dict s)) /\
    forall x, <["auth_credentials" := x]> s_e = <["auth_credentials" := x]> s.
Proof.
  unfold creds_ok, ensure_auth_credentials, creds_dict.
  destruct (s !! "auth_credentials") as [[]|] eqn:Hc; try done; intros _.
  - by exists s.
  - eexists. split; [done|]. split; [apply lookup_insert_eq|].
    intros x. apply insert_insert_eq.
Qed.

Lemma creds_setitem_run k v s d :
  s !! "auth_credentials" = Some (VCreds d) ->
  creds_setitem k v s = Outcome (<["auth_credentials" := VCreds (<[k := v]> d)]> s) [] (inr tt).
Proof. intros Hs. unfold creds_setitem. by rewrite Hs. Qed.

Lemma committed_creds auth name s :
  committed auth name s !! "auth_credentials" = s !! "auth_credentials".
Proof. unfold committed. by rewrite !lookup_insert_ne. Qed.

Lemma committed_creds_ok auth name s : creds_ok s -> creds_ok (committed auth name s).
Proof. unfold creds_ok. by rewrite committed_creds. Qed.

Lemma committed_creds_dict auth name s : creds_dict (committed auth name s) = creds_dict s.
Proof. unfold creds_dict. by rewrite committed_creds. Qed.

Lemma jwt_attempt_run w config s :
  creds_ok s ->
  jwt_attempt w config s =
  match sdk_jwt_from_settings w config with
  | Some msg => Outcome s [SdkJwtFromSettings config] (inl (SdkError msg))
  | None =>
      match sdk_current_user w (JWTAuthObj config) with
      | inl msg =>
          Outcome s [SdkJwtFromSettings config; SdkCurrentUser (JWTAuthObj config)]
                  (inl (SdkError msg))
      | inr name =>
          Outcome (jwt_committed config name s)
                  [SdkJwtFromSettings config; SdkCurrentUser (JWTAuthObj config);
                   StSuccess (AuthenticatedServiceAccount name)]
                  (inl RerunException)
      end
  end.
Proof.
  intros Hok. unfold jwt_attempt.
  assert (Hjwt : jwt_from_settings w config s =
            Outcome s [SdkJwtFromSettings config]
              match sdk_jwt_from_settings w config with
              | Some msg => inl (SdkError msg)
              | None => inr (JWTAuthObj config)
              end).
  { unfold jwt_from_settings, bind, emit. simpl.
    by destruct (sdk_jwt_from_settings w config). }
  destruct (sdk_jwt_from_settings w config) as [msg|].
  { by apply bind_raise. }
  pose proof (current_user_get_run w (JWTAuthObj config) s) as Huser.
  destruct (sdk_current_user w (JWTAuthObj config)) as [msg|name].
  { apply (bind_run _ _ _ _ [SdkJwtFromSettings config] _ _ [_] _ Hjwt).
    by apply bind_raise. }
  destruct (ensure_auth_credentials_run (committed (JWTAuthObj config) name s))
    as (s_e & Hens & Hlook & Hins); [by apply committed_creds_ok|].
  apply (bind_run _ _ _ _ [SdkJwtFromSettings config] _ _
           [SdkCurrentUser (JWTAuthObj config); StSuccess (AuthenticatedServiceAccount name)]
           _ Hjwt).
  apply (bind_run _ _ _ _ [SdkCurrentUser (JWTAuthObj config)] _ _
           [StSuccess (AuthenticatedServiceAccount name)] _ Huser).
  apply (bind_run _ _ _ _ [] _ _ [StSuccess (AuthenticatedServiceAccount name)] _
           (commit_run _ _ _)).
  apply (bind_run _ _ _ _ [] _ _ [StSuccess (AuthenticatedServiceAccount name)] _ Hens).
  apply (bind_run _ _ _ _ [] _ _ [StSuccess (AuthenticatedServiceAccount name)] _
           (creds_setitem_run _ _ _ _ Hlook)).
  rewrite Hins, committed_creds_dict. reflexivity.
Qed.

Lemma developer_token_attempt_run w client_id client_secret developer_token s :
  creds_ok s ->
  developer_token_attempt w client_id client_secret developer_token s =
  let auth := OAuth2Obj client_id client_secret (Some developer_token) in
  match sdk_current_user w auth with
  | inl msg => Outcome s [SdkCurrentUser auth] (inl (SdkError msg))
  | inr name =>
      Outcome (dev_committed client_id client_secret developer_token name s)
              [SdkCurrentUser auth; StSuccess (Authenticated name)]
              (inl RerunException)
  end.
Proof.
  intros Hok. unfold developer_token_attempt. simpl.
  set (auth := OAuth2Obj client_id client_secret (Some developer_token)).
  pose proof (current_user_get_run w auth s) as Huser.
  destruct (sdk_current_user w auth) as [msg|name].
  { by apply bind_raise. }
  destruct (ensure_auth_credentials_run (committed auth name s))
    as (s_e & Hens & Hlook & Hins); [by apply committed_creds_ok|].
  apply (bind_run _ _ _ _ [SdkCurrentUser auth] _ _ [StSuccess (Authenticated name)] _ Huser).
  apply (bind_run _ _ _ _ [] _ _ [StSuccess (Authenticated name)] _ (commit_run _ _ _)).
  apply (bind_run _ _ _ _ [] _ _ [StSuccess (Authenticated name)] _ Hens).
  apply (bind_run _ _ _ _ [] _ _ [StSuccess (Authenticated name)] _
           (creds_setitem_run _ _ _ _ Hlook)).
  apply (bind_run _ _ _ _ [] _ _ [StSuccess (Authenticated name)] _
           (creds_setitem_run _ _ _ _ (lookup_insert_eq _ _ _))).
  apply (bind_run _ _ _ _ [] _ _ [StSuccess (Authenticated name)] _
           (creds_setitem_run _ _ _ _ (lookup_insert_eq _ _ _))).
  rewrite !insert_insert_eq, Hins, committed_creds_dict. reflexivity.
Qed.

(** ** What a run emitted *)

Lemma succeeded_app evs1 evs2 : succeeded (evs1 ++ evs2) = succeeded evs1 || succeeded evs2.
Proof. apply existsb_app. Qed.

Lemma exchange_called_app evs1 evs2 :
  exchange_called (evs1 ++ evs2) = exchange_called evs1 || exchange_called evs2.
Proof. apply existsb_app. Qed.

Lemma logs_not_succeeded evs : Forall is_log evs -> succeeded evs = false.
Proof.
  induction 1 as [|ev evs Hev _ IH]; [done|]. simpl. rewrite IH. by destruct ev.
Qed.

Lemma logs_not_exchange evs : Forall is_log evs -> exchange_called evs = false.
Proof.
  induction 1 as [|ev evs Hev _ IH]; [done|]. simpl. rewrite IH. by destruct ev.
Qed.

Lemma begin_events_quiet w redirect_uri auth_url :
  succeeded (begin_events w redirect_uri auth_url) = false /\
  exchange_called (begin_events w redirect_uri auth_url) = false.
Proof. unfold begin_events. by destruct (button_open_link w). Qed.

Lemma guarded_events {A} s2 evs (r : exn + A) msg l :
  st_after (guarded s2 evs r msg l) = s2 /\
  succeeded (emitted (guarded s2 evs r msg l)) = succeeded evs /\
  exchange_called (emitted (guarded s2 evs r msg l)) = exchange_called evs.
Proof.
  unfold guarded. destruct r as [e|a]; [|done]. destruct (is_Exception e); [|done].
  simpl. rewrite succeeded_app, exchange_called_app. simpl. by rewrite !orb_false_r.
Qed.

(** ** The secrets gate of each strategy *)

Lemma stopped_on_missing w m reqs (k : bool * list string -> M unit) s :
  secrets w = Some m ->
  Forall wf_required reqs ->
  expected_missing m reqs <> [] ->
  stopped_early ((chk <- check_secrets_available w reqs ;;
                  if negb (fst chk) then ret tt else k chk) s) s.
Proof.
  intros Hm Hwf Hne. pose proof (check_secrets_available_run w m reqs s Hm Hwf) as Hrun.
  destruct (expected_missing m reqs) as [|x l]; [done|].
  by rewrite (bind_run _ _ _ _ _ _ s [] (inr tt) Hrun eq_refl).
Qed.

Lemma stopped_on_no_secrets w reqs (k : bool * list string -> M unit) s :
  secrets w = None ->
  stopped_early ((chk <- check_secrets_available w reqs ;;
                  if negb (fst chk) then ret tt else k chk) s) s.
Proof.
  intros Hm.
  assert (check_secrets_available w reqs s =
          Outcome s [StError ErrSecretsUnavailable]
                  (inr (false, ["Streamlit Secrets configuration"]))) as Hrun.
  { unfold check_secrets_available. by rewrite Hm. }
  by rewrite (bind_run _ _ _ _ _ _ s [] (inr tt) Hrun eq_refl).
Qed.

Lemma passed_check w m reqs (k : bool * list string -> M unit) s :
  secrets w = Some m ->
  Forall wf_required reqs ->
  expected_missing m reqs = [] ->
  (chk <- check_secrets_available w reqs ;;
   if negb (fst chk) then ret tt else k chk) s = k (true, []) s.
Proof.
  intros Hm Hwf Hnil. pose proof (check_secrets_available_run w m reqs s Hm Hwf) as Hrun.
  rewrite Hnil in Hrun. by rewrite (bind_pure _ _ _ _ Hrun).
Qed.

Lemma jwt_gate w s :
  stopped_early (jwt_authentication_secrets w s) s \/
  exists config, jwt_configured w config.
Proof.
  destruct (secrets w) as [m|] eqn:Hm; [|left; by apply stopped_on_no_secrets].
  destruct (expected_missing m [ReqKey "box_jwt"]) as [|x l] eqn:Hexp.
  - right. unfold expected_missing in Hexp. simpl in Hexp. unfold get_truthy in Hexp.
    destruct (m !! "box_jwt") as [config|] eqn:Hcfg; [|done].
    destruct (sval_truthy config) eqn:Ht; [|done]. by exists config, m.
  - left. apply (stopped_on_missing w m); [done|by repeat constructor|by rewrite Hexp].
Qed.

Lemma oauth_gate w s :
  stopped_early (oauth2_authentication_secrets w s) s \/
  exists client_id client_secret redirect_uri,
    oauth_configured w client_id client_secret redirect_uri.
Proof.
  destruct (secrets w) as [m|] eqn:Hm; [|left; by apply stopped_on_no_secrets].
  destruct (expected_missing m [ReqSection [("box_oauth", ["client_id"; "client_secret"])]])
    as [|x l] eqn:Hexp.
  - right. unfold expected_missing in Hexp. simpl in Hexp. unfold get_truthy in Hexp.
    destruct (m !! "box_oauth") as [sec|] eqn:Hsec; [|done].
    destruct (sval_truthy sec); [|done]. unfold spec_resolves in Hexp. simpl in Hexp.
    rewrite Hsec in Hexp. destruct sec as [|d|]; [done| |done].
    destruct (d !! "client_id") as [client_id|] eqn:Hid; [|done].
    destruct (d !! "client_secret") as [client_secret|] eqn:Hsecret; [|done].
    eexists client_id, client_secret, _, m, d. done.
  - left. apply (stopped_on_missing w m); [done|by repeat constructor|by rewrite Hexp].
Qed.

Lemma dev_gate w s :
  stopped_early (developer_token_authentication_secrets w s) s \/
  exists client_id client_secret developer_token,
    dev_configured w client_id client_secret developer_token.
Proof.
  destruct (secrets w) as [m|] eqn:Hm; [|left; by apply stopped_on_no_secrets].
  destruct (expected_missing m
              [ReqSection [("box_dev", ["client_id"; "client_secret"; "developer_token"])]])
    as [|x l] eqn:Hexp.
  - right. unfold expected_missing in Hexp. simpl in Hexp. unfold get_truthy in Hexp.
    destruct (m !! "box_dev") as [sec|] eqn:Hsec; [|done].
    destruct (sval_truthy sec); [|done]. unfold spec_resolves in Hexp. simpl in Hexp.
    rewrite Hsec in Hexp. destruct sec as [|d|]; [done| |done].
    destruct (d !! "client_id") as [client_id|] eqn:Hid; [|done].
    destruct (d !! "client_secret") as [client_secret|] eqn:Hsecret; [|done].
    destruct (d !! "developer_token") as [developer_token|] eqn:Htok; [|done].
    eexists client_id, client_secret, developer_token, m, d. done.
  - left. apply (stopped_on_missing w m); [done|by repeat constructor|by rewrite Hexp].
Qed.

Lemma jwt_after_check w config s :
  jwt_configured w config ->
  jwt_authentication_secrets w s =
  if negb (jwt_structure_ok config)
  then Outcome s [StError ErrJwtStructure; LogProblem LogJwtStructure] (inr tt)
  else if button_jwt w
       then try_except (jwt_attempt w config)
                       (fun e => emit (StError (ErrJwtFailed e)) ;;;
                                 emit (LogProblem LogJwtFailed)) s
       else Outcome s [] (inr tt).
Proof.
  intros (m & Hm & Hcfg & Ht). unfold jwt_authentication_secrets.
  rewrite (passed_check w m); [|done|by repeat constructor|].
  - rewrite (bind_pure _ _ _ config).
    + destruct (jwt_structure_ok config); [|done]. by destruct (button_jwt w).
    + unfold secrets_getitem. by rewrite Hm, Hcfg.
  - unfold expected_missing. simpl. unfold get_truthy. by rewrite Hcfg, Ht.
Qed.

Lemma secrets_getitem2_run w m d section key v s :
  secrets w = Some m -> m !! section = Some (SDict d) -> d !! key = Some v ->
  secrets_getitem2 w section key s = Outcome s [] (inr v).
Proof.
  intros Hm Hsec Hkey. unfold secrets_getitem2.
  rewrite (bind_pure _ _ _ (SDict d)).
  - unfold lift. simpl. by rewrite Hkey.
  - unfold secrets_getitem. by rewrite Hm, Hsec.
Qed.

Lemma dev_after_check w client_id client_secret developer_token s :
  dev_configured w client_id client_secret developer_token ->
  developer_token_authentication_secrets w s =
  if button_dev w
  then try_except (developer_token_attempt w client_id client_secret developer_token)
                  (fun e => emit (StError (ErrDevTokenFailed e)) ;;;
                            emit (LogProblem LogDevTokenFailed)) s
  else Outcome s [] (inr tt).
Proof.
  intros (m & d & Hm & Hsec & Hid & Hsecret & Htok).
  unfold developer_token_authentication_secrets.
  rewrite (passed_check w m); [|done|by repeat constructor|].
  - rewrite (bind_pure _ _ _ client_id) by by eapply secrets_getitem2_run.
    rewrite (bind_pure _ _ _ client_secret) by by eapply secrets_getitem2_run.
    rewrite (bind_pure _ _ _ developer_token) by by eapply secrets_getitem2_run.
    by destruct (button_dev w).
  - unfold expected_missing. simpl. unfold get_truthy. rewrite Hsec.
    rewrite (sdict_with_key_truthy d _ _ Hid). unfold spec_resolves. simpl.
    by rewrite Hsec, Hid, Hsecret, Htok.
Qed.

(** ** The three strategies, outcome by outcome *)

Lemma jwt_outcomes w s :
  creds_ok s ->
  (st_after (jwt_authentication_secrets w s) = s /\
   succeeded (emitted (jwt_authentication_secrets w s)) = false /\
   returned (jwt_authentication_secrets w s) = inr tt) \/
  (exists config name,
      st_after (jwt_authentication_secrets w s) = jwt_committed config name s /\
      succeeded (emitted (jwt_authentication_secrets w s)) = true /\
      returned (jwt_authentication_secrets w s) = inl RerunException).
Proof.
  intros Hok. destruct (jwt_gate w s) as [(? & ? & ? & ?)|[config Hconf]]; [by left|].
  rewrite (jwt_after_check w config) by done.
  destruct (jwt_structure_ok config); [|by left]. simpl.
  destruct (button_jwt w); [|by left].
  pose proof (jwt_attempt_run w config s Hok) as Hrun.
  destruct (sdk_jwt_from_settings w config) as [msg|];
    [|destruct (sdk_current_user w (JWTAuthObj config)) as [msg|name]];
    rewrite (try_except_guarded _ ErrJwtFailed LogJwtFailed _ _ _ _ Hrun);
    [by left|by left|].
  right. by exists config, name.
Qed.

Lemma dev_outcomes w s :
  creds_ok s ->
  (st_after (developer_token_authentication_secrets w s) = s /\
   succeeded (emitted (developer_token_authentication_secrets w s)) = false /\
   returned (developer_token_authentication_secrets w s) = inr tt) \/
  (exists client_id client_secret developer_token name,
      st_after (developer_token_authentication_secrets w s) =
        dev_committed client_id client_secret developer_token name s /\
      succeeded (emitted (developer_token_authentication_secrets w s)) = true /\
      returned (developer_token_authentication_secrets w s) = inl RerunException).
Proof.
  intros Hok.
  destruct (dev_gate w s) as [(? & ? & ? & ?)|(client_id & client_secret & tok & Hconf)];
    [by left|].
  rewrite (dev_after_check w client_id client_secret tok) by done.
  destruct (button_dev w); [|by left].
  pose proof (developer_token_attempt_run w client_id client_secret tok s Hok) as Hrun.
  simpl in Hrun.
  destruct (sdk_current_user w (OAuth2Obj client_id client_secret (Some tok))) as [msg|name];
    rewrite (try_except_guarded _ ErrDevTokenFailed LogDevTokenFailed _ _ _ _ Hrun);
    [by left|].
  right. by exists client_id, client_secret, tok, name.
Qed.

Lemma pending_session_creds_ok token oauth s :
  creds_ok s -> creds_ok (pending_session token oauth s).
Proof. unfold creds_ok, pending_session. by rewrite !lookup_insert_ne. Qed.

Lemma complete_outcomes w oauth url s :
  creds_ok s ->
  exists s2 evs r,
    complete_authorization w oauth url s = Outcome s2 evs r /\
    ((s2 = s /\ succeeded evs = false) \/
     (exists access_token refresh_token d,
         s2 = tokens_stored access_token refresh_token d s /\
         succeeded evs = false /\ exchange_called evs = true) \/
     (exists access_token refresh_token d name,
         s2 = committed oauth name (tokens_stored access_token refresh_token d s) /\
         succeeded evs = true)).
Proof.
  intros Hok.
  destruct (parse_query w url) as [q|] eqn:Hq.
  2: { exists s, [], (inl ValueError). split; [|by left].
       unfold complete_authorization. by rewrite Hq. }
  destruct (q !! "code") as [[|auth_code codes]|] eqn:Hcode.
  - exists s, [], (inl IndexError). split; [|by left].
    unfold complete_authorization. by rewrite Hq, Hcode.
  - destruct (decide (q !! "state" = Some [])) as [Hst|Hst].
    { exists s, [], (inl IndexError). split; [|by left].
      unfold complete_authorization. rewrite Hq, Hcode, Hst.
      by rewrite (bind_pure _ _ _ auth_code). }
    rewrite (complete_checks_state w oauth url q auth_code codes) by done.
    destruct (csrf_rejected _ _).
    { eexists s, _, _. split; [done|by left]. }
    destruct (sdk_authenticate w auth_code) as [msg|[access_token refresh_token]] eqn:Hsdk.
    { rewrite (exchange_rejected w oauth auth_code msg) by done.
      eexists s, _, _. split; [done|by left]. }
    destruct (exchange_accepted w oauth auth_code _ _ s Hsdk Hok) as (d & evs & Hlog & ->).
    destruct (sdk_current_user w oauth) as [msg|name].
    + eexists _, _, _. split; [done|]. right; left.
      exists access_token, refresh_token, d. split; [done|]. split; [|done].
      simpl. rewrite succeeded_app, (logs_not_succeeded evs) by done. done.
    + eexists _, _, _. split; [done|]. right; right.
      exists access_token, refresh_token, d, name. split; [done|].
      simpl. rewrite succeeded_app. simpl. by rewrite orb_true_r.
  - eexists s, _, _. split; [by eapply complete_no_code|by left].
Qed.

Lemma oauth_outcomes w s :
  creds_ok s ->
  (st_after (oauth2_authentication_secrets w s) = s /\
   succeeded (emitted (oauth2_authentication_secrets w s)) = false) \/
  (exists token oauth,
      st_after (oauth2_authentication_secrets w s) = pending_session token oauth s /\
      succeeded (emitted (oauth2_authentication_secrets w s)) = false) \/
  (exists token oauth access_token refresh_token d,
      st_after (oauth2_authentication_secrets w s) =
        tokens_stored access_token refresh_token d (pending_session token oauth s) /\
      succeeded (emitted (oauth2_authentication_secrets w s)) = false /\
      exchange_called (emitted (oauth2_authentication_secrets w s)) = true) \/
  (exists token oauth access_token refresh_token d name,
      st_after (oauth2_authentication_secrets w s) =
        committed oauth name
          (tokens_stored access_token refresh_token d (pending_session token oauth s)) /\
      succeeded (emitted (oauth2_authentication_secrets w s)) = true).
Proof.
  intros Hok.
  destruct (oauth_gate w s) as [(? & ? & ? & ?)|(client_id & client_secret & ruri & Hconf)];
    [by left|].
  destruct (sdk_get_authorization_url w (OAuth2Obj client_id client_secret None) ruri)
    as [msg|[auth_url token]] eqn:Hsdk.
  { left. rewrite (oauth2_after_check w client_id client_secret ruri) by done.
    assert (authorization_flow w (OAuth2Obj client_id client_secret None) ruri s =
            Outcome s [SdkGetAuthorizationUrl ruri] (inl (SdkError msg))) as Hflow.
    { unfold authorization_flow, begin_authorization. apply bind_raise, bind_raise.
      unfold get_authorization_url, bind, emit. simpl. by rewrite Hsdk. }
    by rewrite (try_except_guarded _ ErrOAuthInit LogOAuthInit _ _ _ _ Hflow). }
  destruct (str_truthy (text_redirect_url w)) eqn:Hurl.
  2: { right; left. exists token, (OAuth2Obj client_id client_secret None).
       rewrite (oauth2_run_no_input w client_id client_secret ruri auth_url token) by done.
       split; [done|]. cbn [emitted]. apply begin_events_quiet. }
  destruct (complete_outcomes w (OAuth2Obj client_id client_secret None)
              (text_redirect_url w)
              (pending_session token (OAuth2Obj client_id client_secret None) s))
    as (s2 & evs & r & Hrun & Hcases); [by apply pending_session_creds_ok|].
  rewrite (oauth2_run w client_id client_secret ruri auth_url token s s2 evs r) by done.
  destruct (guarded_events s2 evs r ErrProcessingCode LogProcessingCode) as (Hst & Hsucc & Hexch).
  destruct (begin_events_quiet w ruri auth_url) as [Hb1 Hb2].
  cbn [st_after emitted].
  rewrite succeeded_app, exchange_called_app, Hst, Hsucc, Hexch, Hb1, Hb2. simpl.
  destruct Hcases as [[-> ?]|[(a & rt & d & -> & ? & ?)|(a & rt & d & name & -> & ?)]].
  - right; left. by exists token, (OAuth2Obj client_id client_secret None).
  - right; right; left. by exists token, (OAuth2Obj client_id client_secret None), a, rt, d.
  - right; right; right. by exists token, (OAuth2Obj client_id client_secret None), a, rt, d, name.
Qed.

(** ** The anti-forgery check *)

Lemma pending_session_authenticated token oauth s :
  is_authenticated (pending_session token oauth s) = is_authenticated s.
Proof. unfold is_authenticated, pending_session. by rewrite !lookup_insert_ne. Qed.

(** A run whose pasted URL does not carry the issued token as its state:
    the session is left as it was when the URL was issued, and the exchange
    is not called. *)
Lemma oauth2_mismatch_run w client_id client_secret redirect_uri auth_url token s q :
  oauth_configured w client_id client_secret redirect_uri ->
  sdk_get_authorization_url w (OAuth2Obj client_id client_secret None) redirect_uri =
    inr (auth_url, token) ->
  parse_query w (text_redirect_url w) = Some q ->
  first_param q "state" <> Some token ->
  exists evs,
    oauth2_authentication_secrets w s =
    Outcome (pending_session token (OAuth2Obj client_id client_secret None) s)
            (begin_events w redirect_uri auth_url ++ evs) (inr tt) /\
    exchange_called evs = false /\
    (forall auth_code codes,
        text_redirect_url w <> "" ->
        q !! "code" = Some (auth_code :: codes) ->
        no_empty_entry q "state" ->
        evs = [StError ErrCsrfMismatch; LogProblem LogCsrfMismatch]).
Proof.
  intros Hconf Hsdk Hq Hstate.
  set (oauth := OAuth2Obj client_id client_secret None) in *.
  destruct (str_truthy (text_redirect_url w)) eqn:Hurl.
  2: { exists []. rewrite app_nil_r. split; [by apply oauth2_run_no_input|].
       split; [done|]. intros ? ? Hne. apply str_truthy_nonempty in Hne. congruence. }
  assert (Hrun : forall evs r,
             complete_authorization w oauth (text_redirect_url w)
               (pending_session token oauth s) =
             Outcome (pending_session token oauth s) evs r ->
             oauth2_authentication_secrets w s =
             Outcome (pending_session token oauth s)
               (begin_events w redirect_uri auth_url ++
                emitted (guarded (pending_session token oauth s) evs r
                           ErrProcessingCode LogProcessingCode))
               (returned (guarded (pending_session token oauth s) evs r
                            ErrProcessingCode LogProcessingCode))).
  { intros evs r Hc.
    rewrite (oauth2_run w client_id client_secret redirect_uri auth_url token s _ evs r)
      by done.
    cbn zeta. f_equal. apply guarded_events. }
  destruct (q !! "code") as [[|auth_code codes]|] eqn:Hcode.
  - exists [StError (ErrProcessingCode IndexError); LogProblem LogProcessingCode].
    split; [|split; [done|done]].
    apply (Hrun [] (inl IndexError)). unfold complete_authorization. by rewrite Hq, Hcode.
  - destruct (decide (q !! "state" = Some [])) as [Hst|Hst].
    { exists [StError (ErrProcessingCode IndexError); LogProblem LogProcessingCode].
      split; [|split; [done|]].
      - apply (Hrun [] (inl IndexError)). unfold complete_authorization.
        rewrite Hq, Hcode, Hst. by rewrite (bind_pure _ _ _ auth_code).
      - intros ? ? _ _ Hne. by destruct Hne. }
    assert (csrf_rejected (first_param q "state")
              (pending_session token oauth s !! "csrf_token") = true) as Hrej.
    { rewrite pending_session_csrf.
      destruct (csrf_rejected _ _) eqn:Hr; [done|].
      apply csrf_rejected_iff in Hr as [? _]. done. }
    exists [StError ErrCsrfMismatch; LogProblem LogCsrfMismatch].
    split; [|split; [done|done]].
    apply (Hrun _ (inr tt)).
    rewrite (complete_checks_state w oauth _ q auth_code codes) by done.
    by rewrite Hrej.
  - exists [StError ErrNoAuthCode]. split; [|split; [done|done]].
    apply (Hrun _ (inr tt)). by eapply complete_no_code.
Qed.

Lemma pasted_oauth_world_issues_token url :
  issues_token (paste url oauth_world) oauth_client default_redirect_uri
    "https://box/authorize?state=T1" "T1".
Proof.
  exists (SStr "c1"), (SStr "s1"). split; [reflexivity|]. split; [|reflexivity].
  exists secrets_oauth, {[ "client_id" := SStr "c1"; "client_secret" := SStr "s1" ]}.
  repeat split; reflexivity.
Qed.

(** C1, amended: in a run that issues the anti-forgery token [token], a
    pasted URL whose state parameter is absent or differs from [token] never
    reaches the token exchange and leaves the session as it was when the URL
    was issued, not marked authenticated if it was not before; when the URL
    also carries a code, the mismatch error is what the run reports. *)
Theorem antiforgery_mismatch_rejected w oauth redirect_uri auth_url token s q :
  issues_token w oauth redirect_uri auth_url token ->
  parse_query w (text_redirect_url w) = Some q ->
  first_param q "state" <> Some token ->
  exchange_called (emitted (oauth2_authentication_secrets w s)) = false /\
  st_after (oauth2_authentication_secrets w s) = pending_session token oauth s /\
  is_authenticated (st_after (oauth2_authentication_secrets w s)) = is_authenticated s /\
  (forall auth_code codes,
      text_redirect_url w <> "" ->
      q !! "code" = Some (auth_code :: codes) ->
      no_empty_entry q "state" ->
      emitted (oauth2_authentication_secrets w s) =
      begin_events w redirect_uri auth_url ++
      [StError ErrCsrfMismatch; LogProblem LogCsrfMismatch]).
Proof.
  intros (client_id & client_secret & -> & Hconf & Hsdk) Hq Hstate.
  destruct (oauth2_mismatch_run w _ _ _ _ _ s q Hconf Hsdk Hq Hstate)
    as (evs & -> & Hexch & Hevs).
  cbn [st_after emitted]. split; [|split; [done|split]].
  - rewrite exchange_called_app, Hexch.
    by destruct (begin_events_quiet w redirect_uri auth_url) as [_ ->].
  - apply pending_session_authenticated.
  - intros auth_code codes Hurl Hcode Hne. by rewrite (Hevs auth_code codes).
Qed.

Lemma antiforgery_mismatch_rejected_witness :
  exchange_called (emitted (oauth2_authentication_secrets scenario_b ∅)) = false /\
  st_after (oauth2_authentication_secrets scenario_b ∅) =
    pending_session "T1" oauth_client ∅ /\
  is_authenticated (st_after (oauth2_authentication_secrets scenario_b ∅)) =
    is_authenticated ∅ /\
  (forall auth_code codes,
      text_redirect_url scenario_b <> "" ->
      query_code_only !! "code" = Some (auth_code :: codes) ->
      no_empty_entry query_code_only "state" ->
      emitted (oauth2_authentication_secrets scenario_b ∅) =
      begin_events scenario_b default_redirect_uri "https://box/authorize?state=T1" ++
      [StError ErrCsrfMismatch; LogProblem LogCsrfMismatch]).
Proof.
  apply (antiforgery_mismatch_rejected scenario_b oauth_client default_redirect_uri
           "https://box/authorize?state=T1" "T1" ∅ query_code_only).
  - apply pasted_oauth_world_issues_token.
  - vm_compute. reflexivity.
  - vm_compute. discriminate.
Defined.

(** C1 as stated fails: a pasted URL with a wrong state and no code is
    answered with the missing-code message, not with the mismatch error. *)
Lemma antiforgery_claim_fails_without_code :
  ~ antiforgery_claim (paste "https://x/?state=BAD" oauth_world) "T1" ∅.
Proof.
  intros H.
  assert (emitted (oauth2_authentication_secrets
                       (paste "https://x/?state=BAD" oauth_world) ∅) =
            [SdkGetAuthorizationUrl default_redirect_uri; StError ErrNoAuthCode]) as Hev
      by (vm_compute; reflexivity).
  assert (Hp : parse_query (paste "https://x/?state=BAD" oauth_world)
                 (text_redirect_url (paste "https://x/?state=BAD" oauth_world)) =
               Some query_bad_state_only)
    by (vm_compute; reflexivity).
  assert (Hs : first_param query_bad_state_only "state" <> Some "T1")
    by (vm_compute; discriminate).
  destruct (H query_bad_state_only Hp Hs) as (Hin & _ & _).
  rewrite Hev in Hin.
  apply elem_of_cons in Hin as [Heq|Hin]; [discriminate Heq|].
  apply elem_of_cons in Hin as [Heq|Hin]; [discriminate Heq|].
  by apply elem_of_nil in Hin.
Qed.

(** C4, amended: a detected mismatch leaves the session as it was when the
    authorization URL was issued, the pending token still stored; nothing is
    invalidated at that point.  Any later run issues a new authorization URL,
    and it reaches the token exchange only on a callback whose state is the
    token issued by that later run. *)
Theorem mismatch_leaves_pending_token
    w1 oauth_a redirect_a url_a token_a q1 w2 oauth_b redirect_b url_b token_b q2 s :
  issues_token w1 oauth_a redirect_a url_a token_a ->
  parse_query w1 (text_redirect_url w1) = Some q1 ->
  first_param q1 "state" <> Some token_a ->
  issues_token w2 oauth_b redirect_b url_b token_b ->
  parse_query w2 (text_redirect_url w2) = Some q2 ->
  st_after (oauth2_authentication_secrets w1 s) = pending_session token_a oauth_a s /\
  st_after (oauth2_authentication_secrets w1 s) !! "csrf_token" = Some (VStr token_a) /\
  (exchange_called
     (emitted (oauth2_authentication_secrets w2
                 (st_after (oauth2_authentication_secrets w1 s)))) = true ->
   first_param q2 "state" = Some token_b).
Proof.
  intros (id_a & secret_a & -> & Hconf_a & Hsdk_a) Hq1 Hstate1
         (id_b & secret_b & -> & Hconf_b & Hsdk_b) Hq2.
  destruct (oauth2_mismatch_run w1 _ _ _ _ _ s q1 Hconf_a Hsdk_a Hq1 Hstate1)
    as (evs & -> & _ & _).
  cbn [st_after]. split; [reflexivity|]. split; [apply pending_session_csrf|].
  intros Hcalled.
  destruct (decide (first_param q2 "state" = Some token_b)) as [|Hstate2]; [assumption|].
  destruct (oauth2_mismatch_run w2 _ _ _ _ _
              (pending_session token_a (OAuth2Obj id_a secret_a None) s) q2
              Hconf_b Hsdk_b Hq2 Hstate2) as (evs2 & Hrun & Hexch & _).
  rewrite Hrun in Hcalled. cbn [emitted] in Hcalled.
  rewrite exchange_called_app, Hexch in Hcalled.
  destruct (begin_events_quiet w2 redirect_b url_b) as [_ Hb]. rewrite Hb in Hcalled.
  discriminate Hcalled.
Qed.

Lemma mismatch_leaves_pending_token_witness :
  st_after (oauth2_authentication_secrets mismatching_callback ∅) =
    pending_session "T1" oauth_client ∅ /\
  st_after (oauth2_authentication_secrets mismatching_callback ∅) !! "csrf_token" =
    Some (VStr "T1") /\
  (exchange_called
     (emitted (oauth2_authentication_secrets scenario_a
                 (st_after (oauth2_authentication_secrets mismatching_callback ∅)))) = true ->
   first_param (query_code_and "T1") "state" = Some "T1").
Proof.
  apply (mismatch_leaves_pending_token
           mismatching_callback oauth_client default_redirect_uri
           "https://box/authorize?state=T1" "T1" (query_code_and "BAD")
           scenario_a oauth_client default_redirect_uri
           "https://box/authorize?state=T1" "T1" (query_code_and "T1") ∅).
  - apply pasted_oauth_world_issues_token.
  - vm_compute. reflexivity.
  - vm_compute. discriminate.
  - apply pasted_oauth_world_issues_token.
  - vm_compute. reflexivity.
Defined.

(** C4 as stated fails: after a detected mismatch the pending token is still
    the stored one. *)
Lemma mismatch_invalidates_claim_fails :
  ~ mismatch_invalidates_claim mismatching_callback scenario_a "T1" ∅.
Proof.
  intros [H _]. apply H. vm_compute. reflexivity.
Qed.

(** Nothing in this code refuses the replay: when the SDK hands out the same
    token again, the later run accepts the callback. *)
Example replay_accepted_when_token_reissued :
  exchange_called
    (emitted (oauth2_authentication_secrets scenario_a
                (st_after (oauth2_authentication_secrets mismatching_callback ∅)))) = true /\
  is_authenticated
    (st_after (oauth2_authentication_secrets scenario_a
                 (st_after (oauth2_authentication_secrets mismatching_callback ∅)))) = true.
Proof. vm_compute. split; reflexivity. Qed.

(** ** A malformed callback and the retry *)

(** The part of C6 that holds: a pasted URL without a code is answered with
    the missing-code message and the token issued in that run stays stored. *)
Lemma malformed_callback_keeps_pending_token w oauth redirect_uri auth_url token s q :
  issues_token w oauth redirect_uri auth_url token ->
  text_redirect_url w <> "" ->
  parse_query w (text_redirect_url w) = Some q ->
  q !! "code" = None ->
  oauth2_authentication_secrets w s =
  Outcome (pending_session token oauth s)
          (begin_events w redirect_uri auth_url ++ [StError ErrNoAuthCode]) (inr tt).
Proof.
  intros (client_id & client_secret & -> & Hconf & Hsdk) Hurl%str_truthy_nonempty Hq Hcode.
  rewrite (oauth2_run w client_id client_secret redirect_uri auth_url token s
             _ _ _ Hconf Hsdk Hurl (complete_no_code w _ _ q _ Hq Hcode)).
  reflexivity.
Qed.

(** C6 at its failing input: the first run answers a callback without a
    code with the missing-code message and keeps the token [T1]; on the next
    run the SDK issues [T2], which replaces [T1], so the corrected callback
    that carries the code and [state=T1] is refused as a mismatch. *)
Theorem retry_after_malformed_callback_rejected :
  emitted (oauth2_authentication_secrets malformed_callback ∅) =
    [SdkGetAuthorizationUrl default_redirect_uri; StError ErrNoAuthCode] /\
  st_after (oauth2_authentication_secrets malformed_callback ∅) !! "csrf_token" =
    Some (VStr "T1") /\
  emitted (oauth2_authentication_secrets retried_callback
             (st_after (oauth2_authentication_secrets malformed_callback ∅))) =
    [SdkGetAuthorizationUrl default_redirect_uri;
     StError ErrCsrfMismatch; LogProblem LogCsrfMismatch] /\
  is_authenticated
    (st_after (oauth2_authentication_secrets retried_callback
                 (st_after (oauth2_authentication_secrets malformed_callback ∅)))) = false.
Proof. vm_compute. repeat split; reflexivity. Qed.

(** ** The page *)

Lemma authenticate_dispatch w s :
  opt_truthy (s !! "authenticated") && opt_truthy (s !! "client") = false ->
  authenticate w s =
  match radio_auth_method w with
  | OAuth20 => oauth2_authentication_secrets w s
  | JWT => jwt_authentication_secrets w s
  | DeveloperToken => developer_token_authentication_secrets w s
  end.
Proof.
  intros Hin. unfold authenticate.
  rewrite (bind_pure _ _ _ (s !! "authenticated")) by reflexivity.
  rewrite (bind_pure _ _ _ (s !! "client")) by reflexivity.
  rewrite Hin. by destruct (radio_auth_method w).
Qed.

Lemma authenticate_logged_in w s :
  opt_truthy (s !! "authenticated") && opt_truthy (s !! "client") = true ->
  authenticate w s =
  match s !! "user" with
  | Some (VUser name) =>
      if button_logout w
      then Outcome (logged_out s) [StSuccess (AlreadyAuthenticated name)] (inl RerunException)
      else Outcome s [StSuccess (AlreadyAuthenticated name)] (inr tt)
  | _ => Outcome s [] (inl AttributeError)
  end.
Proof.
  intros Hin. unfold authenticate.
  rewrite (bind_pure _ _ _ (s !! "authenticated")) by reflexivity.
  rewrite (bind_pure _ _ _ (s !! "client")) by reflexivity.
  rewrite Hin. unfold session_user_name.
  destruct (s !! "user") as [[| | | | |name| |]|] eqn:Huser;
    try (apply bind_raise; rewrite (bind_pure _ _ _ (s !! "user")) by reflexivity;
         by rewrite Huser).
  assert ((user <- get_key "user";;
           match user with
           | Some (VUser name0) => ret name0
           | _ => raise AttributeError
           end) s = Outcome s [] (inr name)) as Hname.
  { rewrite (bind_pure _ _ _ (s !! "user")) by reflexivity. by rewrite Huser. }
  rewrite (bind_pure _ _ _ name Hname).
  destruct (button_logout w); reflexivity.
Qed.

(** ** Lookups in the sessions the runs produce *)

Lemma pending_session_lookup token oauth s k :
  k <> "csrf_token" -> k <> "oauth" -> pending_session token oauth s !! k = s !! k.
Proof. intros. unfold pending_session. by rewrite !lookup_insert_ne. Qed.

Lemma record_refresh_session_lookup rt s k :
  k <> "refresh_token" -> record_refresh_session rt s !! k = s !! k.
Proof.
  intros. unfold record_refresh_session. destruct rt as [r|]; [|done].
  destruct (str_truthy r); [|done]. by rewrite lookup_insert_ne.
Qed.

Lemma record_refresh_creds_lookup rt d k :
  k <> "refresh_token" -> record_refresh_creds rt d !! k = d !! k.
Proof.
  intros. unfold record_refresh_creds. destruct rt as [r|]; [|done].
  destruct (str_truthy r); [|done]. by rewrite lookup_insert_ne.
Qed.

Lemma tokens_stored_lookup access_token rt d s k :
  k <> "auth_credentials" -> k <> "access_token" -> k <> "refresh_token" ->
  tokens_stored access_token rt d s !! k = s !! k.
Proof.
  intros. unfold tokens_stored.
  rewrite lookup_insert_ne, record_refresh_session_lookup, lookup_insert_ne; done.
Qed.

Lemma tokens_stored_creds access_token rt d s :
  exists d', tokens_stored access_token rt d s !! "auth_credentials" = Some (VCreds d') /\
             d' !! "access_token" = Some (SStr access_token).
Proof.
  eexists. unfold tokens_stored. rewrite lookup_insert_eq. split; [done|].
  rewrite record_refresh_creds_lookup by done. apply lookup_insert_eq.
Qed.

Lemma committed_lookup auth name s k :
  k <> "authenticated" -> k <> "client" -> k <> "user" -> committed auth name s !! k = s !! k.
Proof. intros. unfold committed. by rewrite !lookup_insert_ne. Qed.

Lemma committed_fields auth name s :
  committed auth name s !! "authenticated" = Some (VBool true) /\
  committed auth name s !! "client" = Some (VClient auth) /\
  committed auth name s !! "user" = Some (VUser name).
Proof.
  unfold committed. split; [|split].
  - rewrite !lookup_insert_ne by done. apply lookup_insert_eq.
  - rewrite lookup_insert_ne by done. apply lookup_insert_eq.
  - apply lookup_insert_eq.
Qed.

Lemma logged_out_fields s :
  logged_out s !! "authenticated" = Some (VBool false) /\
  logged_out s !! "client" = Some VNone /\
  logged_out s !! "user" = Some VNone /\
  logged_out s !! "auth_credentials" = None.
Proof.
  unfold logged_out. split; [|split; [|split]].
  - rewrite lookup_delete_ne, !lookup_insert_ne by done. apply lookup_insert_eq.
  - rewrite lookup_delete_ne, lookup_insert_ne by done. apply lookup_insert_eq.
  - rewrite lookup_delete_ne by done. apply lookup_insert_eq.
  - apply lookup_delete_eq.
Qed.

Lemma logged_out_lookup s k :
  k <> "authenticated" -> k <> "client" -> k <> "user" -> k <> "auth_credentials" ->
  logged_out s !! k = s !! k.
Proof. intros. unfold logged_out. by rewrite lookup_delete_ne, !lookup_insert_ne. Qed.

(** ** The invariant *)

Lemma session_inv_frame s s' :
  s' !! "authenticated" = s !! "authenticated" ->
  s' !! "client" = s !! "client" ->
  s' !! "user" = s !! "user" ->
  s' !! "auth_credentials" = s !! "auth_credentials" ->
  session_inv s -> session_inv s'.
Proof.
  unfold session_inv, creds_ok, is_authenticated, has_identity, has_client,
    has_token_material.
  intros -> -> -> ->. done.
Qed.

Lemma session_inv_committed auth name s :
  creds_ok s -> has_token_material s -> session_inv (committed auth name s).
Proof.
  intros Hok Htok. destruct (committed_fields auth name s) as (Ha & Hc & Hu).
  split; [by apply committed_creds_ok|]. left.
  unfold is_authenticated, has_identity, has_client, has_token_material in *.
  rewrite Ha, Hc, Hu, committed_creds.
  split; [done|]. split; [by eexists|]. split; [by eexists|]. exact Htok.
Qed.

Lemma session_inv_tokens_stored access_token rt d s :
  session_inv s -> session_inv (tokens_stored access_token rt d s).
Proof.
  intros [Hok Hinv].
  destruct (tokens_stored_creds access_token rt d s) as (d' & Hd' & Hat).
  split; [unfold creds_ok; by rewrite Hd'|].
  unfold is_authenticated, has_identity, has_client, has_token_material in *.
  rewrite !tokens_stored_lookup by done.
  destruct Hinv as [(? & ? & ? & _)|?]; [left|by right].
  repeat (split; [done|]). exists d'. split; [done|]. left. by rewrite Hat.
Qed.

Lemma session_inv_logged_out s : session_inv (logged_out s).
Proof.
  destruct (logged_out_fields s) as (Ha & Hc & Hu & Hcreds).
  split; [unfold creds_ok; by rewrite Hcreds|]. right.
  unfold is_authenticated, has_identity, has_client. rewrite Ha, Hc, Hu.
  split; [done|]. split; intros [? [=]].
Qed.

Lemma session_inv_jwt_committed config name s :
  creds_ok s -> session_inv (jwt_committed config name s).
Proof.
  intros Hok. unfold jwt_committed.
  destruct (committed_fields (JWTAuthObj config) name s) as (Ha & Hc & Hu).
  split; [unfold creds_ok; by rewrite lookup_insert_eq|]. left.
  unfold is_authenticated, has_identity, has_client, has_token_material.
  rewrite !lookup_insert_ne by done. rewrite Ha, Hc, Hu, lookup_insert_eq.
  split; [done|]. split; [by eexists|]. split; [by eexists|].
  eexists. split; [done|]. right. by rewrite lookup_insert_eq.
Qed.

Lemma session_inv_dev_committed client_id client_secret developer_token name s :
  creds_ok s -> session_inv (dev_committed client_id client_secret developer_token name s).
Proof.
  intros Hok. unfold dev_committed.
  destruct (committed_fields (OAuth2Obj client_id client_secret (Some developer_token)) name s)
    as (Ha & Hc & Hu).
  split; [unfold creds_ok; by rewrite lookup_insert_eq|]. left.
  unfold is_authenticated, has_identity, has_client, has_token_material.
  rewrite !lookup_insert_ne by done. rewrite Ha, Hc, Hu, lookup_insert_eq.
  split; [done|]. split; [by eexists|]. split; [by eexists|].
  eexists. split; [done|]. left. by rewrite lookup_insert_eq.
Qed.

Lemma session_inv_pending token oauth s :
  session_inv s -> session_inv (pending_session token oauth s).
Proof. apply session_inv_frame; by apply pending_session_lookup. Qed.

Lemma session_inv_logged_in s :
  session_inv s ->
  opt_truthy (s !! "authenticated") && opt_truthy (s !! "client") = is_authenticated s.
Proof.
  intros [_ [(Ha & _ & [auth Hc] & _)|(Ha & _)]]; unfold is_authenticated in *.
  - by rewrite Ha, Hc.
  - by rewrite Ha.
Qed.

Lemma authenticate_preserves_inv w s : session_inv s -> session_inv (st_after (authenticate w s)).
Proof.
  intros Hinv. pose proof Hinv as [Hok Hcases].
  pose proof (session_inv_logged_in s Hinv) as Hin.
  destruct (is_authenticated s) eqn:Hauth.
  - rewrite (authenticate_logged_in w s Hin).
    destruct (s !! "user") as [[| | | | |name| |]|]; try done.
    destruct (button_logout w); [apply session_inv_logged_out|done].
  - rewrite (authenticate_dispatch w s Hin).
    destruct (radio_auth_method w).
    + destruct (oauth_outcomes w s Hok)
        as [[-> _]|[(t & o & -> & _)|[(t & o & a & rt & d & -> & _)
                                       |(t & o & a & rt & d & n & -> & _)]]].
      * done.
      * by apply session_inv_pending.
      * by apply session_inv_tokens_stored, session_inv_pending.
      * destruct (session_inv_tokens_stored a rt d _ (session_inv_pending t o s Hinv))
          as [Hok' _].
        apply session_inv_committed; [done|].
        destruct (tokens_stored_creds a rt d (pending_session t o s)) as (d' & Hd' & Hat).
        exists d'. split; [done|]. left. by rewrite Hat.
    + destruct (jwt_outcomes w s Hok) as [(-> & _)|(c & n & -> & _)]; [done|].
      by apply session_inv_jwt_committed.
    + destruct (dev_outcomes w s Hok) as [(-> & _)|(c & cs & t & n & -> & _)]; [done|].
      by apply session_inv_dev_committed.
Qed.

Lemma session_inv_empty : session_inv ∅.
Proof.
  split; [done|]. right. unfold is_authenticated, has_identity, has_client.
  rewrite !lookup_empty. split; [done|]. split; intros [? [=]].
Qed.

Lemma reachable_inv s : reachable s -> session_inv s.
Proof.
  induction 1 as [|w s _ IH|w access_token refresh_token s _ IH].
  - apply session_inv_empty.
  - by apply authenticate_preserves_inv.
  - destruct IH as [Hok Hcases].
    destruct (store_tokens_run w access_token refresh_token s Hok) as (d & evs & -> & _).
    by apply session_inv_tokens_stored.
Qed.



(** Scenario A of the specification ends authenticated as Alice. *)
Example scenario_a_authenticates :
  is_authenticated (st_after (authenticate scenario_a ∅)) = true /\
  st_after (authenticate scenario_a ∅) !! "user" = Some (VUser "Alice").
Proof. vm_compute. split; reflexivity. Qed.

(** ** Logout *)

(** C8, amended: a logout (the Logout button clicked in a session that is
    authenticated with a client handle and an identity) sets the status to
    unauthenticated, empties the identity and the client handle and removes
    the credential store; the pending anti-forgery token is left as it
    was. *)
Theorem logout_resets_login w s :
  is_authenticated s = true ->
  has_client s ->
  has_identity s ->
  button_logout w = true ->
  st_after (authenticate w s) = logged_out s /\
  returned (authenticate w s) = inl RerunException /\
  st_after (authenticate w s) !! "authenticated" = Some (VBool false) /\
  is_authenticated (st_after (authenticate w s)) = false /\
  ~ has_identity (st_after (authenticate w s)) /\
  ~ has_client (st_after (authenticate w s)) /\
  st_after (authenticate w s) !! "auth_credentials" = None /\
  st_after (authenticate w s) !! "csrf_token" = s !! "csrf_token".
Proof.
  intros Hauth [auth Hclient] [name Huser] Hbutton.
  rewrite authenticate_logged_in.
  2: { unfold is_authenticated in Hauth. by rewrite Hauth, Hclient. }
  rewrite Huser, Hbutton. cbn [st_after returned].
  destruct (logged_out_fields s) as (Ha & Hc & Hu & Hcreds).
  unfold is_authenticated, has_identity, has_client. rewrite Ha, Hc, Hu.
  split; [done|]. split; [done|]. split; [done|]. split; [done|].
  split; [intros [? [=]]|]. split; [intros [? [=]]|]. split; [done|].
  by apply logged_out_lookup.
Qed.

Lemma logout_resets_login_witness :
  is_authenticated (st_after (authenticate scenario_a ∅)) = true /\
  has_client (st_after (authenticate scenario_a ∅)) /\
  has_identity (st_after (authenticate scenario_a ∅)) /\
  button_logout (clicking_logout oauth_world) = true /\
  st_after (authenticate (clicking_logout oauth_world) (st_after (authenticate scenario_a ∅))) =
    logged_out (st_after (authenticate scenario_a ∅)) /\
  returned (authenticate (clicking_logout oauth_world) (st_after (authenticate scenario_a ∅))) =
    inl RerunException /\
  st_after (authenticate (clicking_logout oauth_world) (st_after (authenticate scenario_a ∅)))
    !! "authenticated" = Some (VBool false) /\
  is_authenticated
    (st_after (authenticate (clicking_logout oauth_world)
                 (st_after (authenticate scenario_a ∅)))) = false /\
  ~ has_identity
      (st_after (authenticate (clicking_logout oauth_world)
                   (st_after (authenticate scenario_a ∅)))) /\
  ~ has_client
      (st_after (authenticate (clicking_logout oauth_world)
                   (st_after (authenticate scenario_a ∅)))) /\
  st_after (authenticate (clicking_logout oauth_world) (st_after (authenticate scenario_a ∅)))
    !! "auth_credentials" = None /\
  st_after (authenticate (clicking_logout oauth_world) (st_after (authenticate scenario_a ∅)))
    !! "csrf_token" = st_after (authenticate scenario_a ∅) !! "csrf_token".
Proof.
  assert (Ha : is_authenticated (st_after (authenticate scenario_a ∅)) = true)
    by (vm_compute; reflexivity).
  assert (Hc : has_client (st_after (authenticate scenario_a ∅)))
    by (exists oauth_client; vm_compute; reflexivity).
  assert (Hi : has_identity (st_after (authenticate scenario_a ∅)))
    by (exists "Alice"; vm_compute; reflexivity).
  split; [exact Ha|]. split; [exact Hc|]. split; [exact Hi|]. split; [reflexivity|].
  exact (logout_resets_login (clicking_logout oauth_world)
           (st_after (authenticate scenario_a ∅)) Ha Hc Hi eq_refl).
Defined.

(** C8 as stated fails: after a delegated login and a logout the anti-forgery
    token of the login is still in the session. *)
Lemma logout_clears_all_claim_fails :
  ~ logout_clears_all_claim (clicking_logout oauth_world)
      (st_after (authenticate scenario_a ∅)).
Proof.
  intros (_ & _ & _ & _ & H). vm_compute in H. discriminate H.
Qed.

(** The tokens that [store_tokens] put at the top of the session during a
    delegated login are also still there after the logout, although line 65
    means to clear the stored credentials. *)
Example logout_leaves_access_token :
  st_after (authenticate (clicking_logout oauth_world) (st_after (authenticate scenario_a ∅)))
    !! "access_token" = Some (VStr "AT1") /\
  st_after (authenticate (clicking_logout oauth_world) (st_after (authenticate scenario_a ∅)))
    !! "refresh_token" = Some (VStr "RT1").
Proof. vm_compute. split; reflexivity. Qed.

(** ** Successful and failed attempts *)

Lemma not_login_key k :
  k ∉ login_keys ->
  k <> "authenticated" /\ k <> "client" /\ k <> "user" /\ k <> "auth_credentials" /\
  k <> "access_token" /\ k <> "refresh_token" /\ k <> "csrf_token" /\ k <> "oauth".
Proof. unfold login_keys. rewrite !not_elem_of_cons. tauto. Qed.


Lemma not_commit_key k :
  k ∉ ["authenticated"; "client"; "user"; "auth_credentials"] ->
  k <> "authenticated" /\ k <> "client" /\ k <> "user" /\ k <> "auth_credentials".
Proof. rewrite !not_elem_of_cons. tauto. Qed.

(** C5, amended: a run that announces a successful authentication leaves the
    session with [authenticated = True], the identity, the client handle and
    credential material; apart from the keys a login writes nothing is
    modified, for the signed-assertion and static-token strategies nothing
    apart from the status, client, user and credential-store keys; a pending
    anti-forgery token is not cleared. *)
Theorem successful_run_commits w s :
  creds_ok s ->
  succeeded (emitted (authenticate w s)) = true ->
  st_after (authenticate w s) !! "authenticated" = Some (VBool true) /\
  has_identity (st_after (authenticate w s)) /\
  has_client (st_after (authenticate w s)) /\
  has_token_material (st_after (authenticate w s)) /\
  (forall k, k ∉ login_keys -> st_after (authenticate w s) !! k = s !! k) /\
  (is_Some (s !! "csrf_token") -> is_Some (st_after (authenticate w s) !! "csrf_token")) /\
  (radio_auth_method w <> OAuth20 ->
   forall k, k ∉ ["authenticated"; "client"; "user"; "auth_credentials"] ->
             st_after (authenticate w s) !! k = s !! k).
Proof.
  intros Hok Hsucc.
  destruct (opt_truthy (s !! "authenticated") && opt_truthy (s !! "client")) eqn:Hin.
  { rewrite (authenticate_logged_in w s Hin) in Hsucc.
    destruct (s !! "user") as [[| | | | |name| |]|]; try discriminate Hsucc.
    destruct (button_logout w); discriminate Hsucc. }
  rewrite (authenticate_dispatch w s Hin) in *.
  destruct (radio_auth_method w).
  - destruct (oauth_outcomes w s Hok)
      as [[_ Hf]|[(t & o & _ & Hf)|[(t & o & a & rt & d & _ & Hf & _)
                                    |(t & o & a & rt & d & n & Hst & _)]]];
      try congruence.
    rewrite Hst.
    destruct (committed_fields o n (tokens_stored a rt d (pending_session t o s)))
      as (Ha & Hc & Hu).
    destruct (tokens_stored_creds a rt d (pending_session t o s)) as (d' & Hd' & Hat).
    split; [done|]. split; [by eexists|]. split; [by eexists|]. split.
    { exists d'. rewrite committed_creds. split; [done|]. left. by rewrite Hat. }
    split.
    { intros k (? & ? & ? & ? & ? & ? & ? & ?)%not_login_key.
      by rewrite committed_lookup, tokens_stored_lookup, pending_session_lookup. }
    split; [|done]. intros _.
    rewrite committed_lookup, tokens_stored_lookup, pending_session_csrf by done. by eexists.
  - destruct (jwt_outcomes w s Hok) as [(_ & Hf & _)|(c & n & Hst & _)]; [congruence|].
    rewrite Hst. unfold jwt_committed.
    destruct (committed_fields (JWTAuthObj c) n s) as (Ha & Hc & Hu).
    rewrite !lookup_insert_ne by done.
    split; [done|]. unfold has_identity, has_client, has_token_material.
    rewrite !lookup_insert_ne by done. rewrite lookup_insert_eq.
    split; [by eexists|]. split; [by eexists|]. split.
    { eexists. split; [done|]. right. by rewrite lookup_insert_eq. }
    split.
    { intros k (? & ? & ? & ? & _)%not_login_key.
      by rewrite lookup_insert_ne, committed_lookup. }
    split.
    { by rewrite committed_lookup. }
    intros _ k (? & ? & ? & ?)%not_commit_key.
    by rewrite lookup_insert_ne, committed_lookup.
  - destruct (dev_outcomes w s Hok) as [(_ & Hf & _)|(c & cs & tok & n & Hst & _)];
      [congruence|].
    rewrite Hst. unfold dev_committed.
    destruct (committed_fields (OAuth2Obj c cs (Some tok)) n s) as (Ha & Hc & Hu).
    rewrite !lookup_insert_ne by done.
    split; [done|]. unfold has_identity, has_client, has_token_material.
    rewrite !lookup_insert_ne by done. rewrite lookup_insert_eq.
    split; [by eexists|]. split; [by eexists|]. split.
    { eexists. split; [done|]. left. by rewrite lookup_insert_eq. }
    split.
    { intros k (? & ? & ? & ? & _)%not_login_key.
      by rewrite lookup_insert_ne, committed_lookup. }
    split.
    { by rewrite committed_lookup. }
    intros _ k (? & ? & ? & ?)%not_commit_key.
    by rewrite lookup_insert_ne, committed_lookup.
Qed.

Lemma successful_run_commits_witness :
  creds_ok ∅ /\
  succeeded (emitted (authenticate scenario_a ∅)) = true /\
  st_after (authenticate scenario_a ∅) !! "authenticated" = Some (VBool true) /\
  has_identity (st_after (authenticate scenario_a ∅)) /\
  has_client (st_after (authenticate scenario_a ∅)) /\
  has_token_material (st_after (authenticate scenario_a ∅)) /\
  (forall k, k ∉ login_keys -> st_after (authenticate scenario_a ∅) !! k = (∅ : gmap string value) !! k) /\
  (is_Some ((∅ : gmap string value) !! "csrf_token") ->
   is_Some (st_after (authenticate scenario_a ∅) !! "csrf_token")) /\
  (radio_auth_method scenario_a <> OAuth20 ->
   forall k, k ∉ ["authenticated"; "client"; "user"; "auth_credentials"] ->
             st_after (authenticate scenario_a ∅) !! k = (∅ : gmap string value) !! k).
Proof.
  assert (Hs : succeeded (emitted (authenticate scenario_a ∅)) = true)
    by (vm_compute; reflexivity).
  split; [exact I|]. split; [exact Hs|].
  exact (successful_run_commits scenario_a ∅ I Hs).
Defined.

(** C5 as stated fails: after a successful delegated login the anti-forgery
    token is still stored. *)
Lemma commit_clears_pending_claim_fails : ~ commit_clears_pending_claim scenario_a ∅.
Proof.
  intros H.
  assert (Hs : succeeded (emitted (authenticate scenario_a ∅)) = true)
    by (vm_compute; reflexivity).
  destruct (H Hs) as [_ Hcsrf]. vm_compute in Hcsrf. discriminate Hcsrf.
Qed.

(** A run in which the anti-forgery check passes and the SDK rejects the
    exchange. *)
Lemma oauth2_exchange_rejected_run w oauth redirect_uri auth_url token s q auth_code codes msg :
  issues_token w oauth redirect_uri auth_url token ->
  text_redirect_url w <> "" ->
  parse_query w (text_redirect_url w) = Some q ->
  q !! "code" = Some (auth_code :: codes) ->
  first_param q "state" = Some token ->
  token <> "" ->
  sdk_authenticate w auth_code = inl msg ->
  oauth2_authentication_secrets w s =
  Outcome (pending_session token oauth s)
          (begin_events w redirect_uri auth_url ++
           [SdkAuthenticate auth_code; StError (ErrProcessingCode (SdkError msg));
            LogProblem LogProcessingCode])
          (inr tt).
Proof.
  intros (client_id & client_secret & -> & Hconf & Hsdk) Hurl%str_truthy_nonempty
         Hq Hcode Hstate Htoken Hrej.
  rewrite (oauth2_run w client_id client_secret redirect_uri auth_url token s
             (pending_session token (OAuth2Obj client_id client_secret None) s)
             [SdkAuthenticate auth_code] (inl (SdkError msg)) Hconf Hsdk Hurl);
    [reflexivity|].
  rewrite (complete_checks_state w _ _ q auth_code codes _ Hq Hcode).
  2: { unfold no_empty_entry, first_param in *. intros Hst. by rewrite Hst in Hstate. }
  rewrite pending_session_csrf.
  assert (csrf_rejected (first_param q "state") (Some (VStr token)) = false) as ->
    by by apply csrf_rejected_iff.
  by apply exchange_rejected.
Qed.




(** What that run leaves behind. *)
Example identity_failure_leaves_tokens :
  emitted (oauth2_authentication_secrets (identity_failing scenario_a) ∅) =
    [SdkGetAuthorizationUrl default_redirect_uri; SdkAuthenticate "ABC";
     SdkCurrentUser oauth_client;
     StError (ErrProcessingCode (SdkError "401 Unauthorized"));
     LogProblem LogProcessingCode] /\
  st_after (oauth2_authentication_secrets (identity_failing scenario_a) ∅)
    !! "access_token" = Some (VStr "AT1") /\
  is_authenticated
    (st_after (oauth2_authentication_secrets (identity_failing scenario_a) ∅)) = false.
Proof. vm_compute. repeat split; reflexivity. Qed.

(** * Further properties *)

(** ** The page on an authenticated session *)

(** In a reachable session that is authenticated, a run in which Logout is
    not clicked greets the user by the stored name and does nothing else:
    the session is unchanged and the selected method, the buttons and the
    pasted URL are ignored. *)
Theorem authenticated_session_is_left_alone w s :
  reachable s ->
  is_authenticated s = true ->
  button_logout w = false ->
  exists name,
    s !! "user" = Some (VUser name) /\
    authenticate w s = Outcome s [StSuccess (AlreadyAuthenticated name)] (inr tt).
Proof.
  intros Hinv%reachable_inv Hauth Hbutton.
  pose proof (session_inv_logged_in s Hinv) as Hin. rewrite Hauth in Hin.
  destruct Hinv as [_ [(_ & [name Huser] & _)|(Hno & _)]]; [|congruence].
  exists name. split; [exact Huser|].
  rewrite (authenticate_logged_in w s Hin), Huser, Hbutton. reflexivity.
Qed.

Lemma authenticated_session_is_left_alone_witness :
  reachable (st_after (authenticate scenario_a ∅)) /\
  is_authenticated (st_after (authenticate scenario_a ∅)) = true /\
  button_logout jwt_world = false /\
  exists name,
    st_after (authenticate scenario_a ∅) !! "user" = Some (VUser name) /\
    authenticate jwt_world (st_after (authenticate scenario_a ∅)) =
    Outcome (st_after (authenticate scenario_a ∅))
            [StSuccess (AlreadyAuthenticated name)] (inr tt).
Proof.
  assert (Hr : reachable (st_after (authenticate scenario_a ∅)))
    by apply reachable_run, reachable_init.
  assert (Ha : is_authenticated (st_after (authenticate scenario_a ∅)) = true)
    by (vm_compute; reflexivity).
  split; [exact Hr|]. split; [exact Ha|]. split; [reflexivity|].
  exact (authenticated_session_is_left_alone jwt_world
           (st_after (authenticate scenario_a ∅)) Hr Ha eq_refl).
Defined.

(** ** No uncaught exception *)

Lemma oauth_issued_outcomes w client_id client_secret redirect_uri auth_url token s :
  oauth_configured w client_id client_secret redirect_uri ->
  sdk_get_authorization_url w (OAuth2Obj client_id client_secret None) redirect_uri =
    inr (auth_url, token) ->
  creds_ok s ->
  (returned (oauth2_authentication_secrets w s) = inr tt \/
   returned (oauth2_authentication_secrets w s) = inl RerunException) /\
  (st_after (oauth2_authentication_secrets w s) =
     pending_session token (OAuth2Obj client_id client_secret None) s \/
   (exists access_token refresh_token d,
       st_after (oauth2_authentication_secrets w s) =
       tokens_stored access_token refresh_token d
         (pending_session token (OAuth2Obj client_id client_secret None) s)) \/
   (exists access_token refresh_token d name,
       st_after (oauth2_authentication_secrets w s) =
       committed (OAuth2Obj client_id client_secret None) name
         (tokens_stored access_token refresh_token d
            (pending_session token (OAuth2Obj client_id client_secret None) s)))).
Proof.
  intros Hconf Hsdk Hok.
  destruct (str_truthy (text_redirect_url w)) eqn:Hurl.
  2: { rewrite (oauth2_run_no_input w client_id client_secret redirect_uri auth_url token)
         by assumption.
       split; [by left|by left]. }
  destruct (complete_outcomes w (OAuth2Obj client_id client_secret None)
              (text_redirect_url w)
              (pending_session token (OAuth2Obj client_id client_secret None) s))
    as (s2 & evs & r & Hrun & Hcases); [by apply pending_session_creds_ok|].
  rewrite (oauth2_run w client_id client_secret redirect_uri auth_url token s s2 evs r)
    by assumption.
  destruct (guarded_events s2 evs r ErrProcessingCode LogProcessingCode) as (Hst & _ & _).
  cbn [st_after returned]. rewrite Hst. split.
  - apply guarded_returned.
  - destruct Hcases as [[-> _]|[(a & rt & d & -> & _)|(a & rt & d & n & -> & _)]].
    + by left.
    + right; left. by exists a, rt, d.
    + right; right. by exists a, rt, d, n.
Qed.

Lemma oauth_init_failure_run w client_id client_secret redirect_uri msg s :
  oauth_configured w client_id client_secret redirect_uri ->
  sdk_get_authorization_url w (OAuth2Obj client_id client_secret None) redirect_uri =
    inl msg ->
  oauth2_authentication_secrets w s =
  Outcome s [SdkGetAuthorizationUrl redirect_uri;
             StError (ErrOAuthInit (SdkError msg)); LogProblem LogOAuthInit] (inr tt).
Proof.
  intros Hconf Hsdk.
  rewrite (oauth2_after_check w client_id client_secret redirect_uri) by assumption.
  assert (authorization_flow w (OAuth2Obj client_id client_secret None) redirect_uri s =
          Outcome s [SdkGetAuthorizationUrl redirect_uri] (inl (SdkError msg))) as Hflow.
  { unfold authorization_flow, begin_authorization. apply bind_raise, bind_raise.
    unfold get_authorization_url, bind, emit. simpl. by rewrite Hsdk. }
  by rewrite (try_except_guarded _ ErrOAuthInit LogOAuthInit _ _ _ _ Hflow).
Qed.




(** ** The secrets gate *)

Lemma failed_check_stops w reqs (k : bool * list string -> M unit) missing s :
  Forall wf_required reqs ->
  returned (check_secrets_available w reqs s) = inr (false, missing) ->
  exists err,
    (chk <- check_secrets_available w reqs ;;
     if negb (fst chk) then ret tt else k chk) s = Outcome s [StError err] (inr tt) /\
    (err = ErrSecretsUnavailable \/ err = ErrMissingSecrets missing).
Proof.
  intros Hwf Hret. destruct (secrets w) as [m|] eqn:Hm.
  - pose proof (check_secrets_available_run w m reqs s Hm Hwf) as Hrun.
    destruct (expected_missing m reqs) as [|x l].
    { rewrite Hrun in Hret. discriminate Hret. }
    rewrite Hrun in Hret. injection Hret as <-.
    exists (ErrMissingSecrets (x :: l)). split; [|by right].
    by rewrite (bind_run _ _ _ _ _ _ s [] (inr tt) Hrun eq_refl).
  - assert (check_secrets_available w reqs s =
            Outcome s [StError ErrSecretsUnavailable]
                    (inr (false, ["Streamlit Secrets configuration"]))) as Hrun.
    { unfold check_secrets_available. by rewrite Hm. }
    exists ErrSecretsUnavailable. split; [|by left].
    by rewrite (bind_run _ _ _ _ _ _ s [] (inr tt) Hrun eq_refl).
Qed.

(** When the validator answers that secrets are missing, each strategy shows
    that one error and stops: the session is unchanged, no button or pasted
    URL is looked at and the SDK is not called. *)
Theorem missing_secrets_stop_every_strategy w s :
  (forall missing,
      returned (check_secrets_available w
                  [ReqSection [("box_oauth", ["client_id"; "client_secret"])]] s) =
        inr (false, missing) ->
      exists err,
        oauth2_authentication_secrets w s = Outcome s [StError err] (inr tt) /\
        (err = ErrSecretsUnavailable \/ err = ErrMissingSecrets missing)) /\
  (forall missing,
      returned (check_secrets_available w [ReqKey "box_jwt"] s) = inr (false, missing) ->
      exists err,
        jwt_authentication_secrets w s = Outcome s [StError err] (inr tt) /\
        (err = ErrSecretsUnavailable \/ err = ErrMissingSecrets missing)) /\
  (forall missing,
      returned (check_secrets_available w
                  [ReqSection [("box_dev", ["client_id"; "client_secret"; "developer_token"])]]
                  s) = inr (false, missing) ->
      exists err,
        developer_token_authentication_secrets w s = Outcome s [StError err] (inr tt) /\
        (err = ErrSecretsUnavailable \/ err = ErrMissingSecrets missing)).
Proof.
  split; [|split]; intros missing Hret.
  - apply (failed_check_stops w _ _ missing s); [by repeat constructor|exact Hret].
  - apply (failed_check_stops w _ _ missing s); [by repeat constructor|exact Hret].
  - apply (failed_check_stops w _ _ missing s); [by repeat constructor|exact Hret].
Qed.

(** Scenario C of the specification: a [box_dev] table that lacks the
    developer token. *)
Example scenario_c_missing_developer_token :
  authenticate (choosing DeveloperToken false true (quiet_world (Some secrets_dev_no_token))) ∅ =
  Outcome ∅ [StError (ErrMissingSecrets ["'box_dev.developer_token'"])] (inr tt).
Proof. vm_compute. reflexivity. Qed.

(** ** The structure check of the signed-assertion strategy *)

(** A [box_jwt] section that is not a table holding both [boxAppSettings]
    and [enterpriseID] is refused as a configuration error before anything
    else: whether or not the button is clicked, the SDK is not called and the
    session is unchanged. *)
Theorem jwt_structure_rejected w config s :
  jwt_configured w config ->
  ~ (exists d, config = SDict d /\
               is_Some (d !! "boxAppSettings") /\ is_Some (d !! "enterpriseID")) ->
  jwt_authentication_secrets w s =
  Outcome s [StError ErrJwtStructure; LogProblem LogJwtStructure] (inr tt).
Proof.
  intros Hconf Hbad. rewrite (jwt_after_check w config s Hconf).
  destruct (jwt_structure_ok config) eqn:Hstruct; [|reflexivity].
  exfalso. apply Hbad. unfold jwt_structure_ok in Hstruct.
  destruct config as [|d|]; try discriminate Hstruct. exists d.
  apply andb_true_iff in Hstruct as [H1%bool_decide_eq_true H2%bool_decide_eq_true].
  done.
Qed.

Lemma jwt_structure_rejected_witness :
  jwt_configured (choosing JWT true false (quiet_world (Some secrets_jwt_no_enterprise)))
    (SDict {[ "boxAppSettings" := SDict {[ "clientID" := SStr "j1" ]} ]}) /\
  ~ (exists d, SDict {[ "boxAppSettings" := SDict {[ "clientID" := SStr "j1" ]} ]} = SDict d /\
               is_Some (d !! "boxAppSettings") /\ is_Some (d !! "enterpriseID")) /\
  jwt_authentication_secrets
    (choosing JWT true false (quiet_world (Some secrets_jwt_no_enterprise))) ∅ =
  Outcome ∅ [StError ErrJwtStructure; LogProblem LogJwtStructure] (inr tt).
Proof.
  assert (Hc : jwt_configured
                 (choosing JWT true false (quiet_world (Some secrets_jwt_no_enterprise)))
                 (SDict {[ "boxAppSettings" := SDict {[ "clientID" := SStr "j1" ]} ]})).
  { exists secrets_jwt_no_enterprise. split; [reflexivity|]. split; reflexivity. }
  assert (Hb : ~ (exists d,
                     SDict {[ "boxAppSettings" := SDict {[ "clientID" := SStr "j1" ]} ]} =
                       SDict d /\
                     is_Some (d !! "boxAppSettings") /\ is_Some (d !! "enterpriseID"))).
  { intros (d & [= <-] & _ & [x Hx]). vm_compute in Hx. discriminate Hx. }
  split; [exact Hc|]. split; [exact Hb|].
  exact (jwt_structure_rejected _ _ ∅ Hc Hb).
Defined.

(** ** Delegated authorization: the other outcomes *)

Lemma tokens_stored_access_token access_token rt d s :
  tokens_stored access_token rt d s !! "access_token" = Some (VStr access_token).
Proof.
  unfold tokens_stored.
  rewrite lookup_insert_ne, record_refresh_session_lookup by done. apply lookup_insert_eq.
Qed.

Lemma pending_session_oauth token oauth s :
  pending_session token oauth s !! "oauth" = Some (VAuth oauth).
Proof. unfold pending_session. apply lookup_insert_eq. Qed.

Lemma matching_state_not_empty q token :
  first_param q "state" = Some token -> no_empty_entry q "state".
Proof. unfold first_param, no_empty_entry. intros Hst Hq. by rewrite Hq in Hst. Qed.

(** A run in which the anti-forgery check passes and the exchange succeeds. *)
Lemma oauth2_exchange_accepted_run
    w client_id client_secret redirect_uri auth_url token s q auth_code codes
    access_token refresh_token :
  oauth_configured w client_id client_secret redirect_uri ->
  sdk_get_authorization_url w (OAuth2Obj client_id client_secret None) redirect_uri =
    inr (auth_url, token) ->
  creds_ok s ->
  text_redirect_url w <> "" ->
  parse_query w (text_redirect_url w) = Some q ->
  q !! "code" = Some (auth_code :: codes) ->
  first_param q "state" = Some token ->
  token <> "" ->
  sdk_authenticate w auth_code = inr (access_token, refresh_token) ->
  exists d logs,
    Forall is_log logs /\
    oauth2_authentication_secrets w s =
    match sdk_current_user w (OAuth2Obj client_id client_secret None) with
    | inl msg =>
        Outcome (tokens_stored access_token refresh_token d
                   (pending_session token (OAuth2Obj client_id client_secret None) s))
                (begin_events w redirect_uri auth_url ++
                 (SdkAuthenticate auth_code :: logs ++
                  [SdkCurrentUser (OAuth2Obj client_id client_secret None)]) ++
                 [StError (ErrProcessingCode (SdkError msg)); LogProblem LogProcessingCode])
                (inr tt)
    | inr name =>
        Outcome (committed (OAuth2Obj client_id client_secret None) name
                   (tokens_stored access_token refresh_token d
                      (pending_session token (OAuth2Obj client_id client_secret None) s)))
                (begin_events w redirect_uri auth_url ++
                 SdkAuthenticate auth_code :: logs ++
                 [SdkCurrentUser (OAuth2Obj client_id client_secret None);
                  StSuccess (Authenticated name)])
                (inl RerunException)
    end.
Proof.
  intros Hconf Hsdk Hok Hurl%str_truthy_nonempty Hq Hcode Hstate Htoken Hexch.
  set (oauth := OAuth2Obj client_id client_secret None) in *.
  destruct (exchange_accepted w oauth auth_code access_token refresh_token
              (pending_session token oauth s) Hexch (pending_session_creds_ok _ _ _ Hok))
    as (d & logs & Hlogs & Hrun).
  exists d, logs. split; [exact Hlogs|].
  assert (complete_authorization w oauth (text_redirect_url w) (pending_session token oauth s) =
          exchange_and_commit w oauth auth_code (pending_session token oauth s)) as Hcomplete.
  { rewrite (complete_checks_state w oauth _ q auth_code codes _ Hq Hcode
               (matching_state_not_empty q token Hstate)).
    rewrite pending_session_csrf.
    assert (csrf_rejected (first_param q "state") (Some (VStr token)) = false) as ->
      by by apply csrf_rejected_iff.
    reflexivity. }
  rewrite Hrun in Hcomplete.
  destruct (sdk_current_user w oauth) as [msg|name].
  - by rewrite (oauth2_run w client_id client_secret redirect_uri auth_url token s
                  _ _ _ Hconf Hsdk Hurl Hcomplete).
  - by rewrite (oauth2_run w client_id client_secret redirect_uri auth_url token s
                  _ _ _ Hconf Hsdk Hurl Hcomplete).
Qed.



Lemma exchange_called_begin w redirect_uri auth_url evs :
  exchange_called (begin_events w redirect_uri auth_url ++ evs) = exchange_called evs.
Proof.
  rewrite exchange_called_app.
  by destruct (begin_events_quiet w redirect_uri auth_url) as [_ ->].
Qed.

(** In a run that issues a non-empty anti-forgery token, the token exchange
    is called exactly when something was pasted, the pasted URL carries a
    code, and the first state value of the URL is the token issued in this
    very run. *)
Theorem exchange_called_iff_state_matches w oauth redirect_uri auth_url token s q :
  issues_token w oauth redirect_uri auth_url token ->
  creds_ok s ->
  token <> "" ->
  parse_query w (text_redirect_url w) = Some q ->
  exchange_called (emitted (oauth2_authentication_secrets w s)) = true <->
  text_redirect_url w <> "" /\
  (exists auth_code codes, q !! "code" = Some (auth_code :: codes)) /\
  first_param q "state" = Some token.
Proof.
  intros (client_id & client_secret & -> & Hconf & Hsdk) Hok Htoken Hq. split.
  - intros Hcalled.
    destruct (decide (first_param q "state" = Some token)) as [Hstate|Hstate].
    2: { destruct (oauth2_mismatch_run w _ _ _ _ _ s q Hconf Hsdk Hq Hstate)
           as (evs & Hrun & Hexch & _).
         rewrite Hrun in Hcalled. cbn [emitted] in Hcalled.
         rewrite exchange_called_begin, Hexch in Hcalled. discriminate Hcalled. }
    destruct (str_truthy (text_redirect_url w)) eqn:Hurl.
    2: { rewrite (oauth2_run_no_input w client_id client_secret redirect_uri auth_url token)
           in Hcalled by assumption.
         cbn [emitted] in Hcalled.
         destruct (begin_events_quiet w redirect_uri auth_url) as [_ Hb].
         rewrite Hb in Hcalled. discriminate Hcalled. }
    split; [by apply str_truthy_nonempty|]. split; [|exact Hstate].
    destruct (q !! "code") as [[|auth_code codes]|] eqn:Hcode.
    + assert (complete_authorization w (OAuth2Obj client_id client_secret None)
                (text_redirect_url w)
                (pending_session token (OAuth2Obj client_id client_secret None) s) =
              Outcome (pending_session token (OAuth2Obj client_id client_secret None) s)
                      [] (inl IndexError)) as Hc.
      { unfold complete_authorization. by rewrite Hq, Hcode. }
      rewrite (oauth2_run w client_id client_secret redirect_uri auth_url token s
                 _ _ _ Hconf Hsdk Hurl Hc) in Hcalled.
      unfold guarded in Hcalled. cbn [emitted is_Exception] in Hcalled.
      rewrite exchange_called_begin in Hcalled. discriminate Hcalled.
    + by exists auth_code, codes.
    + rewrite (oauth2_run w client_id client_secret redirect_uri auth_url token s
                 _ _ _ Hconf Hsdk Hurl (complete_no_code w _ _ q _ Hq Hcode)) in Hcalled.
      unfold guarded in Hcalled. cbn [emitted is_Exception] in Hcalled.
      rewrite exchange_called_begin in Hcalled. discriminate Hcalled.
  - intros (Hurl & (auth_code & codes & Hcode) & Hstate).
    destruct (sdk_authenticate w auth_code) as [msg|[access_token refresh_token]] eqn:Hexch.
    + rewrite (oauth2_exchange_rejected_run w (OAuth2Obj client_id client_secret None)
                 redirect_uri auth_url token s q auth_code codes msg);
        try assumption.
      * cbn [emitted]. by rewrite exchange_called_begin.
      * by exists client_id, client_secret.
    + destruct (oauth2_exchange_accepted_run w client_id client_secret redirect_uri auth_url
                  token s q auth_code codes access_token refresh_token
                  Hconf Hsdk Hok Hurl Hq Hcode Hstate Htoken Hexch)
        as (d & logs & _ & Hrun).
      rewrite Hrun.
      destruct (sdk_current_user w (OAuth2Obj client_id client_secret None));
        cbn [emitted]; by rewrite exchange_called_begin.
Qed.

Lemma exchange_called_iff_state_matches_witness :
  exchange_called (emitted (oauth2_authentication_secrets retried_callback ∅)) = true <->
  text_redirect_url retried_callback <> "" /\
  (exists auth_code codes, query_code_and "T1" !! "code" = Some (auth_code :: codes)) /\
  first_param (query_code_and "T1") "state" = Some "T2".
Proof.
  apply (exchange_called_iff_state_matches retried_callback oauth_client default_redirect_uri
           "https://box/authorize?state=T2" "T2" ∅ (query_code_and "T1")).
  - exists (SStr "c1"), (SStr "s1"). split; [reflexivity|]. split; [|reflexivity].
    exists secrets_oauth, {[ "client_id" := SStr "c1"; "client_secret" := SStr "s1" ]}.
    repeat split; reflexivity.
  - exact I.
  - discriminate.
  - vm_compute. reflexivity.
Defined.

(** Every run of the delegated strategy that obtains an authorization URL
    stores the token issued with it, whatever token the session held before
    and whatever happens to the pasted URL afterwards. *)
Theorem every_run_replaces_pending_token w oauth redirect_uri auth_url token s :
  issues_token w oauth redirect_uri auth_url token ->
  creds_ok s ->
  st_after (oauth2_authentication_secrets w s) !! "csrf_token" = Some (VStr token) /\
  st_after (oauth2_authentication_secrets w s) !! "oauth" = Some (VAuth oauth).
Proof.
  intros (client_id & client_secret & -> & Hconf & Hsdk) Hok.
  destruct (oauth_issued_outcomes w client_id client_secret redirect_uri auth_url token s
              Hconf Hsdk Hok)
    as [_ [->|[(a & rt & d & ->)|(a & rt & d & n & ->)]]].
  - split; [apply pending_session_csrf|apply pending_session_oauth].
  - rewrite !tokens_stored_lookup by done.
    split; [apply pending_session_csrf|apply pending_session_oauth].
  - rewrite !committed_lookup, !tokens_stored_lookup by done.
    split; [apply pending_session_csrf|apply pending_session_oauth].
Qed.

Lemma every_run_replaces_pending_token_witness :
  creds_ok (st_after (oauth2_authentication_secrets malformed_callback ∅)) /\
  st_after (oauth2_authentication_secrets retried_callback
              (st_after (oauth2_authentication_secrets malformed_callback ∅)))
    !! "csrf_token" = Some (VStr "T2") /\
  st_after (oauth2_authentication_secrets retried_callback
              (st_after (oauth2_authentication_secrets malformed_callback ∅)))
    !! "oauth" = Some (VAuth oauth_client).
Proof.
  assert (Hok : creds_ok (st_after (oauth2_authentication_secrets malformed_callback ∅)))
    by (vm_compute; exact I).
  split; [exact Hok|].
  apply (every_run_replaces_pending_token retried_callback oauth_client default_redirect_uri
           "https://box/authorize?state=T2" "T2"
           (st_after (oauth2_authentication_secrets malformed_callback ∅))).
  - exists (SStr "c1"), (SStr "s1"). split; [reflexivity|]. split; [|reflexivity].
    exists secrets_oauth, {[ "client_id" := SStr "c1"; "client_secret" := SStr "s1" ]}.
    repeat split; reflexivity.
  - exact Hok.
Defined.

(** When the SDK fails to produce the authorization URL, the run reports an
    initialization error and stops: no anti-forgery token is stored, the
    pasted URL is not looked at and the session is unchanged. *)
Theorem authorization_url_failure_reported w client_id client_secret redirect_uri msg s :
  oauth_configured w client_id client_secret redirect_uri ->
  sdk_get_authorization_url w (OAuth2Obj client_id client_secret None) redirect_uri =
    inl msg ->
  oauth2_authentication_secrets w s =
  Outcome s [SdkGetAuthorizationUrl redirect_uri;
             StError (ErrOAuthInit (SdkError msg)); LogProblem LogOAuthInit] (inr tt).
Proof. apply oauth_init_failure_run. Qed.

Lemma authorization_url_failure_reported_witness :
  oauth_configured (url_failing scenario_a) (SStr "c1") (SStr "s1") default_redirect_uri /\
  sdk_get_authorization_url (url_failing scenario_a) oauth_client default_redirect_uri =
    inl "invalid client" /\
  oauth2_authentication_secrets (url_failing scenario_a) ∅ =
  Outcome ∅ [SdkGetAuthorizationUrl default_redirect_uri;
             StError (ErrOAuthInit (SdkError "invalid client")); LogProblem LogOAuthInit]
          (inr tt).
Proof.
  assert (Hc : oauth_configured (url_failing scenario_a) (SStr "c1") (SStr "s1")
                 default_redirect_uri).
  { exists secrets_oauth, {[ "client_id" := SStr "c1"; "client_secret" := SStr "s1" ]}.
    repeat split; reflexivity. }
  split; [exact Hc|]. split; [reflexivity|].
  exact (authorization_url_failure_reported (url_failing scenario_a) (SStr "c1") (SStr "s1")
           default_redirect_uri "invalid client" ∅ Hc eq_refl).
Defined.

Lemma malformed_callback_keeps_pending_token_witness :
  oauth2_authentication_secrets malformed_callback ∅ =
  Outcome (pending_session "T1" oauth_client ∅)
          (begin_events malformed_callback default_redirect_uri
             "https://box/authorize?state=T1" ++ [StError ErrNoAuthCode]) (inr tt).
Proof.
  apply (malformed_callback_keeps_pending_token malformed_callback oauth_client
           default_redirect_uri "https://box/authorize?state=T1" "T1" ∅
           (delete "code" (query_code_and "T1"))).
  - apply pasted_oauth_world_issues_token.
  - discriminate.
  - vm_compute. reflexivity.
  - vm_compute. reflexivity.
Defined.

(** A pasted text that the URL parser rejects is reported as a processing
    error; the session stays as it was when the URL was issued and the
    exchange is not called. *)
Theorem unparseable_callback_reported w oauth redirect_uri auth_url token s :
  issues_token w oauth redirect_uri auth_url token ->
  text_redirect_url w <> "" ->
  parse_query w (text_redirect_url w) = None ->
  oauth2_authentication_secrets w s =
  Outcome (pending_session token oauth s)
          (begin_events w redirect_uri auth_url ++
           [StError (ErrProcessingCode ValueError); LogProblem LogProcessingCode])
          (inr tt).
Proof.
  intros (client_id & client_secret & -> & Hconf & Hsdk) Hurl%str_truthy_nonempty Hq.
  assert (complete_authorization w (OAuth2Obj client_id client_secret None)
            (text_redirect_url w)
            (pending_session token (OAuth2Obj client_id client_secret None) s) =
          Outcome (pending_session token (OAuth2Obj client_id client_secret None) s)
                  [] (inl ValueError)) as Hc.
  { unfold complete_authorization. by rewrite Hq. }
  by rewrite (oauth2_run w client_id client_secret redirect_uri auth_url token s
                _ _ _ Hconf Hsdk Hurl Hc).
Qed.

Lemma unparseable_callback_reported_witness :
  issues_token (unparseable scenario_a) oauth_client default_redirect_uri
    "https://box/authorize?state=T1" "T1" /\
  text_redirect_url (unparseable scenario_a) <> "" /\
  parse_query (unparseable scenario_a) (text_redirect_url (unparseable scenario_a)) = None /\
  oauth2_authentication_secrets (unparseable scenario_a) ∅ =
  Outcome (pending_session "T1" oauth_client ∅)
          (begin_events (unparseable scenario_a) default_redirect_uri
             "https://box/authorize?state=T1" ++
           [StError (ErrProcessingCode ValueError); LogProblem LogProcessingCode])
          (inr tt).
Proof.
  assert (Hi : issues_token (unparseable scenario_a) oauth_client default_redirect_uri
                 "https://box/authorize?state=T1" "T1").
  { exists (SStr "c1"), (SStr "s1"). split; [reflexivity|]. split; [|reflexivity].
    exists secrets_oauth, {[ "client_id" := SStr "c1"; "client_secret" := SStr "s1" ]}.
    repeat split; reflexivity. }
  assert (Hu : text_redirect_url (unparseable scenario_a) <> "") by discriminate.
  split; [exact Hi|]. split; [exact Hu|]. split; [reflexivity|].
  exact (unparseable_callback_reported (unparseable scenario_a) oauth_client
           default_redirect_uri "https://box/authorize?state=T1" "T1" ∅ Hi Hu eq_refl).
Defined.

(** ** The token-storage callback, exactly *)

(** Lines 342-343 and 347-348 on one section. *)
Lemma copy_section_entries w m section sec s d :
  secrets w = Some m ->
  m !! section = Some sec ->
  s !! "auth_credentials" = Some (VCreds d) ->
  exists r,
    (client_id <- secrets_getitem2 w section "client_id" ;;
     creds_setitem "client_id" client_id ;;;
     client_secret <- secrets_getitem2 w section "client_secret" ;;
     creds_setitem "client_secret" client_secret) s =
    Outcome (<["auth_credentials" := VCreds (section_client_entries sec ∪ d)]> s) [] r /\
    match r with inl e => is_Exception e = true | inr _ => True end.
Proof.
  intros Hm Hsec Hs.
  assert (Hget : forall key s0,
             secrets_getitem2 w section key s0 = Outcome s0 [] (sval_getitem sec key)).
  { intros key s0. unfold secrets_getitem2.
    rewrite (bind_pure _ _ _ sec); [reflexivity|].
    unfold secrets_getitem. by rewrite Hm, Hsec. }
  assert (Hexn : forall key e, sval_getitem sec key = inl e -> is_Exception e = true).
  { intros key e. unfold sval_getitem. destruct sec as [|d0|]; [by intros [= <-]| |by intros [= <-]].
    destruct (d0 !! key); [discriminate|by intros [= <-]]. }
  unfold section_client_entries.
  destruct (sval_getitem sec "client_id") as [e|client_id] eqn:Hid.
  { exists (inl e). split; [|by eapply Hexn].
    rewrite (left_id ∅ (∪)), insert_id by assumption.
    apply bind_raise. by rewrite Hget, Hid. }
  assert (Hs1 : <["auth_credentials" := VCreds (<["client_id" := client_id]> d)]> s
                  !! "auth_credentials" = Some (VCreds (<["client_id" := client_id]> d)))
    by apply lookup_insert_eq.
  destruct (sval_getitem sec "client_secret") as [e|client_secret] eqn:Hsecret.
  - exists (inl e). split; [|by eapply Hexn].
    rewrite <- insert_union_singleton_l.
    eapply (bind_run _ _ _ s [] client_id _ []); [by rewrite Hget, Hid|].
    eapply (bind_run _ _ _ _ [] tt _ []); [by apply creds_setitem_run|].
    apply bind_raise. by rewrite Hget, Hsecret.
  - exists (inr tt). split; [|done].
    rewrite <- insert_union_l, <- insert_union_singleton_l.
    eapply (bind_run _ _ _ s [] client_id _ []); [by rewrite Hget, Hid|].
    eapply (bind_run _ _ _ _ [] tt _ []); [by apply creds_setitem_run|].
    eapply (bind_run _ _ _ _ [] client_secret _ []); [by rewrite Hget, Hsecret|].
    rewrite (creds_setitem_run _ _ _ _ Hs1). by rewrite insert_insert_eq.
Qed.

Lemma get_truthy_lookup (m : gmap string sval) k :
  get_truthy m k = true -> exists v, m !! k = Some v.
Proof. unfold get_truthy. destruct (m !! k); [by eexists|discriminate]. Qed.

(** Lines 339-353: the guarded lookup adds [captured_entries w] to the
    credential dictionary and nothing else. *)
Lemma capture_guarded_exact w s d :
  s !! "auth_credentials" = Some (VCreds d) ->
  exists evs,
    try_except (capture_client_secrets w)
               (fun e => emit (LogProblem (LogSecretsAccess e))) s =
    Outcome (<["auth_credentials" := VCreds (captured_entries w ∪ d)]> s) evs (inr tt) /\
    Forall is_log evs.
Proof.
  intros Hs.
  assert (Hsame : <["auth_credentials" := VCreds (∅ ∪ d)]> s = s)
    by by rewrite (left_id ∅ (∪)), insert_id.
  assert (Hfinish : forall d' r,
             capture_client_secrets w s =
               Outcome (<["auth_credentials" := VCreds d']> s) [] r ->
             match r with inl e => is_Exception e = true | inr _ => True end ->
             exists evs,
               try_except (capture_client_secrets w)
                 (fun e => emit (LogProblem (LogSecretsAccess e))) s =
               Outcome (<["auth_credentials" := VCreds d']> s) evs (inr tt) /\
               Forall is_log evs).
  { intros d' r Hrun Hr. destruct r as [e|[]].
    - eexists. split; [by eapply try_except_caught|]. by repeat constructor.
    - eexists. split; [by eapply try_except_passed|]. constructor. }
  unfold captured_entries.
  destruct (secrets w) as [m|] eqn:Hm.
  2: { apply (Hfinish (∅ ∪ d) (inl AttributeError)); [|done].
       rewrite Hsame. apply bind_raise. unfold secrets_get. by rewrite Hm. }
  assert (Hget : forall k, secrets_get w k s = Outcome s [] (inr (m !! k))).
  { intros k. unfold secrets_get. by rewrite Hm. }
  assert (Htruthy : forall k, opt_sval_truthy (m !! k) = get_truthy m k) by done.
  destruct (get_truthy m "box_oauth") eqn:Hoauth.
  { destruct (get_truthy_lookup m _ Hoauth) as [sec Hsec]. rewrite Hsec. simpl.
    destruct (copy_section_entries w m "box_oauth" sec s d Hm Hsec Hs) as (r & Hrun & Hr).
    apply (Hfinish _ r); [|exact Hr]. unfold capture_client_secrets.
    rewrite (bind_pure _ _ _ _ (Hget "box_oauth")), Htruthy, Hoauth. exact Hrun. }
  destruct (get_truthy m "box_dev") eqn:Hdev.
  { destruct (get_truthy_lookup m _ Hdev) as [sec Hsec]. rewrite Hsec. simpl.
    destruct (copy_section_entries w m "box_dev" sec s d Hm Hsec Hs) as (r & Hrun & Hr).
    apply (Hfinish _ r); [|exact Hr]. unfold capture_client_secrets.
    rewrite (bind_pure _ _ _ _ (Hget "box_oauth")), Htruthy, Hoauth.
    rewrite (bind_pure _ _ _ _ (Hget "box_dev")), Htruthy, Hdev. exact Hrun. }
  exists [LogProblem LogNoClientSecrets]. split; [|by repeat constructor].
  rewrite Hsame. apply try_except_passed; [|done]. unfold capture_client_secrets.
  rewrite (bind_pure _ _ _ _ (Hget "box_oauth")), Htruthy, Hoauth.
  rewrite (bind_pure _ _ _ _ (Hget "box_dev")), Htruthy, Hdev. reflexivity.
Qed.

Lemma store_tokens_exact w access_token refresh_token s :
  creds_ok s ->
  exists evs,
    store_tokens w access_token refresh_token s =
    Outcome (tokens_stored access_token refresh_token (captured_entries w ∪ creds_dict s) s)
            evs (inr (access_token, refresh_token)) /\
    Forall is_log evs.
Proof.
  intros Hok.
  set (s1 := record_refresh_session refresh_token (<["access_token" := VStr access_token]> s)).
  assert (creds_ok s1) as Hok1.
  { unfold creds_ok, s1. by rewrite record_refresh_session_creds, lookup_insert_ne. }
  assert (creds_dict s1 = creds_dict s) as Hdict.
  { unfold creds_dict, s1. by rewrite record_refresh_session_creds, lookup_insert_ne. }
  destruct (ensure_auth_credentials_run s1 Hok1) as (s2 & Hens & Hs2 & Hins).
  rewrite Hdict in Hs2.
  destruct (capture_guarded_exact w s2 _ Hs2) as (evs & Hcap & Hlog).
  exists (evs ++ []). split; [|by rewrite app_nil_r].
  unfold store_tokens, tokens_stored. fold s1.
  eapply (bind_run _ _ _ _ []); [done|].
  eapply (bind_run _ _ _ s1 []).
  { subst s1. unfold record_refresh_session. destruct refresh_token as [r|]; [|done].
    by destruct (str_truthy r). }
  eapply (bind_run _ _ _ _ []); [exact Hens|].
  eapply bind_run; [exact Hcap|].
  eapply (bind_run _ _ _ _ []).
  { unfold creds_setitem. by rewrite lookup_insert_eq. }
  rewrite insert_insert_eq, Hins.
  eapply (bind_run _ _ _ _ []); [|done].
  unfold record_refresh_creds. destruct refresh_token as [r|]; [|done].
  destruct (str_truthy r); [|done].
  unfold creds_setitem. rewrite lookup_insert_eq. by rewrite insert_insert_eq.
Qed.

Lemma section_client_entries_keys sec k :
  k <> "client_id" -> k <> "client_secret" -> section_client_entries sec !! k = None.
Proof.
  intros Hid Hsecret. unfold section_client_entries.
  destruct (sval_getitem sec "client_id"); [apply lookup_empty|].
  destruct (sval_getitem sec "client_secret").
  - by rewrite lookup_singleton_ne.
  - by rewrite lookup_insert_ne, lookup_singleton_ne.
Qed.

Lemma captured_entries_keys w k :
  k <> "client_id" -> k <> "client_secret" -> captured_entries w !! k = None.
Proof.
  intros Hid Hsecret. unfold captured_entries.
  destruct (secrets w) as [m|]; [|apply lookup_empty].
  destruct (get_truthy m "box_oauth").
  { destruct (m !! "box_oauth"); simpl;
      [by apply section_client_entries_keys|apply lookup_empty]. }
  destruct (get_truthy m "box_dev"); [|apply lookup_empty].
  destruct (m !! "box_dev"); simpl;
    [by apply section_client_entries_keys|apply lookup_empty].
Qed.

Lemma tokens_stored_creds_dict access_token rt d s :
  creds_dict (tokens_stored access_token rt d s) =
  record_refresh_creds rt (<["access_token" := SStr access_token]> d).
Proof. unfold creds_dict, tokens_stored. by rewrite lookup_insert_eq. Qed.

Lemma tokens_stored_creds_ok access_token rt d s :
  creds_ok (tokens_stored access_token rt d s).
Proof. unfold creds_ok, tokens_stored. by rewrite lookup_insert_eq. Qed.

Lemma not_token_key k :
  k ∉ ["access_token"; "refresh_token"; "auth_credentials"] ->
  k <> "access_token" /\ k <> "refresh_token" /\ k <> "auth_credentials".
Proof. rewrite !not_elem_of_cons. tauto. Qed.

Lemma not_credential_key k :
  k ∉ ["client_id"; "client_secret"; "access_token"; "refresh_token"] ->
  k <> "client_id" /\ k <> "client_secret" /\ k <> "access_token" /\ k <> "refresh_token".
Proof. rewrite !not_elem_of_cons. tauto. Qed.

(** [store_tokens] writes the two token keys and the credential store and
    nothing else: the status, the client, the user and the pending
    anti-forgery token are as before, and in the credential store every entry
    other than the client id, the client secret and the two tokens is
    kept. *)
Theorem store_tokens_leaves_the_rest w access_token refresh_token s :
  creds_ok s ->
  (forall k, k ∉ ["access_token"; "refresh_token"; "auth_credentials"] ->
             st_after (store_tokens w access_token refresh_token s) !! k = s !! k) /\
  is_authenticated (st_after (store_tokens w access_token refresh_token s)) =
    is_authenticated s /\
  (forall k, k ∉ ["client_id"; "client_secret"; "access_token"; "refresh_token"] ->
             creds_dict (st_after (store_tokens w access_token refresh_token s)) !! k =
             creds_dict s !! k).
Proof.
  intros Hok.
  destruct (store_tokens_exact w access_token refresh_token s Hok) as (evs & -> & _).
  cbn [st_after]. split; [|split].
  - intros k (? & ? & ?)%not_token_key. by apply tokens_stored_lookup.
  - unfold is_authenticated. by rewrite tokens_stored_lookup.
  - intros k (? & ? & ? & ?)%not_credential_key.
    rewrite tokens_stored_creds_dict, record_refresh_creds_lookup, lookup_insert_ne by done.
    by rewrite lookup_union_r by by apply captured_entries_keys.
Qed.

Lemma store_tokens_leaves_the_rest_witness :
  creds_ok session_with_jwt_config /\
  (forall k, k ∉ ["access_token"; "refresh_token"; "auth_credentials"] ->
             st_after (store_tokens oauth_world "AT1" (Some "RT1") session_with_jwt_config)
               !! k = session_with_jwt_config !! k) /\
  is_authenticated
    (st_after (store_tokens oauth_world "AT1" (Some "RT1") session_with_jwt_config)) =
    is_authenticated session_with_jwt_config /\
  (forall k, k ∉ ["client_id"; "client_secret"; "access_token"; "refresh_token"] ->
             creds_dict
               (st_after (store_tokens oauth_world "AT1" (Some "RT1") session_with_jwt_config))
               !! k = creds_dict session_with_jwt_config !! k).
Proof.
  assert (Hok : creds_ok session_with_jwt_config) by (vm_compute; exact I).
  split; [exact Hok|].
  exact (store_tokens_leaves_the_rest oauth_world "AT1" (Some "RT1")
           session_with_jwt_config Hok).
Defined.

Lemma captured_lookup w access_token refresh_token s k :
  creds_ok s ->
  k <> "access_token" -> k <> "refresh_token" ->
  creds_dict (st_after (store_tokens w access_token refresh_token s)) !! k =
  (captured_entries w ∪ creds_dict s) !! k.
Proof.
  intros Hok ? ?.
  destruct (store_tokens_exact w access_token refresh_token s Hok) as (evs & -> & _).
  cbn [st_after].
  by rewrite tokens_stored_creds_dict, record_refresh_creds_lookup, lookup_insert_ne.
Qed.

(** Which client id and secret [store_tokens] records.  A [box_oauth] table
    that holds both wins over [box_dev]; [box_dev] is used when [box_oauth]
    is absent or empty; a non-empty [box_oauth] table without a client id
    makes the lookup fail, and then nothing is taken from [box_dev]
    either. *)
Theorem store_tokens_prefers_box_oauth w m access_token refresh_token s :
  secrets w = Some m ->
  creds_ok s ->
  (forall d client_id client_secret,
      m !! "box_oauth" = Some (SDict d) ->
      d !! "client_id" = Some client_id ->
      d !! "client_secret" = Some client_secret ->
      creds_dict (st_after (store_tokens w access_token refresh_token s)) !! "client_id" =
        Some client_id /\
      creds_dict (st_after (store_tokens w access_token refresh_token s)) !! "client_secret" =
        Some client_secret) /\
  (forall d client_id client_secret,
      get_truthy m "box_oauth" = false ->
      m !! "box_dev" = Some (SDict d) ->
      d !! "client_id" = Some client_id ->
      d !! "client_secret" = Some client_secret ->
      creds_dict (st_after (store_tokens w access_token refresh_token s)) !! "client_id" =
        Some client_id /\
      creds_dict (st_after (store_tokens w access_token refresh_token s)) !! "client_secret" =
        Some client_secret) /\
  (forall d,
      m !! "box_oauth" = Some (SDict d) ->
      get_truthy m "box_oauth" = true ->
      d !! "client_id" = None ->
      creds_dict (st_after (store_tokens w access_token refresh_token s)) !! "client_id" =
        creds_dict s !! "client_id" /\
      creds_dict (st_after (store_tokens w access_token refresh_token s)) !! "client_secret" =
        creds_dict s !! "client_secret").
Proof.
  intros Hm Hok.
  assert (Hfull : forall d client_id client_secret,
             d !! "client_id" = Some client_id ->
             d !! "client_secret" = Some client_secret ->
             section_client_entries (SDict d) =
             <["client_secret" := client_secret]> {[ "client_id" := client_id ]}).
  { intros d ? ? Hid Hsecret. unfold section_client_entries. simpl. by rewrite Hid, Hsecret. }
  split; [|split].
  - intros d client_id client_secret Hsec Hid Hsecret.
    rewrite !captured_lookup by done. unfold captured_entries. rewrite Hm.
    unfold get_truthy. rewrite Hsec, (sdict_with_key_truthy d _ _ Hid). simpl.
    rewrite (Hfull d client_id client_secret Hid Hsecret). split.
    + erewrite lookup_union_Some_l; [done|].
      rewrite lookup_insert_ne by done. apply lookup_singleton_eq.
    + erewrite lookup_union_Some_l; [done|]. apply lookup_insert_eq.
  - intros d client_id client_secret Hoauth Hsec Hid Hsecret.
    rewrite !captured_lookup by done. unfold captured_entries. rewrite Hm, Hoauth.
    unfold get_truthy. rewrite Hsec, (sdict_with_key_truthy d _ _ Hid). simpl.
    rewrite (Hfull d client_id client_secret Hid Hsecret). split.
    + erewrite lookup_union_Some_l; [done|].
      rewrite lookup_insert_ne by done. apply lookup_singleton_eq.
    + erewrite lookup_union_Some_l; [done|]. apply lookup_insert_eq.
  - intros d Hsec Htruthy Hid.
    rewrite !captured_lookup by done. unfold captured_entries. rewrite Hm, Htruthy, Hsec.
    simpl. unfold section_client_entries. simpl. rewrite Hid.
    by rewrite !(left_id ∅ (∪)).
Qed.

Lemma store_tokens_prefers_box_oauth_witness :
  secrets (quiet_world (Some secrets_oauth_and_dev)) = Some secrets_oauth_and_dev /\
  creds_ok ∅ /\
  creds_dict (st_after (store_tokens (quiet_world (Some secrets_oauth_and_dev))
                          "AT1" None ∅)) !! "client_id" = Some (SStr "c1") /\
  creds_dict (st_after (store_tokens (quiet_world (Some secrets_oauth_and_dev))
                          "AT1" None ∅)) !! "client_secret" = Some (SStr "s1").
Proof.
  assert (Hok : creds_ok (∅ : gmap string value)) by (vm_compute; exact I).
  split; [reflexivity|]. split; [exact Hok|].
  apply (proj1 (store_tokens_prefers_box_oauth (quiet_world (Some secrets_oauth_and_dev))
                  secrets_oauth_and_dev "AT1" None ∅ eq_refl Hok)
           {[ "client_id" := SStr "c1"; "client_secret" := SStr "s1" ]}
           (SStr "c1") (SStr "s1")).
  - vm_compute. reflexivity.
  - vm_compute. reflexivity.
  - vm_compute. reflexivity.
Defined.

Lemma record_refresh_creds_id rt (d : gmap string sval) :
  (forall r, rt = Some r -> str_truthy r = true -> d !! "refresh_token" = Some (SStr r)) ->
  record_refresh_creds rt d = d.
Proof.
  intros H. unfold record_refresh_creds. destruct rt as [r|]; [|done].
  destruct (str_truthy r) eqn:Hr; [|done]. by rewrite insert_id by by apply H.
Qed.

Lemma record_refresh_session_id rt (s : gmap string value) :
  (forall r, rt = Some r -> str_truthy r = true -> s !! "refresh_token" = Some (VStr r)) ->
  record_refresh_session rt s = s.
Proof.
  intros H. unfold record_refresh_session. destruct rt as [r|]; [|done].
  destruct (str_truthy r) eqn:Hr; [|done]. by rewrite insert_id by by apply H.
Qed.

Lemma record_refresh_creds_set rt (d : gmap string sval) r :
  rt = Some r -> str_truthy r = true ->
  record_refresh_creds rt d !! "refresh_token" = Some (SStr r).
Proof. intros -> Hr. unfold record_refresh_creds. rewrite Hr. apply lookup_insert_eq. Qed.

Lemma record_refresh_session_set rt (s : gmap string value) r :
  rt = Some r -> str_truthy r = true ->
  record_refresh_session rt s !! "refresh_token" = Some (VStr r).
Proof. intros -> Hr. unfold record_refresh_session. rewrite Hr. apply lookup_insert_eq. Qed.

Lemma record_refresh_creds_subseteq rt (e d : gmap string sval) :
  e !! "refresh_token" = None -> e ⊆ d -> e ⊆ record_refresh_creds rt d.
Proof.
  intros He Hsub. unfold record_refresh_creds. destruct rt as [r|]; [|done].
  destruct (str_truthy r); [|done]. by apply insert_subseteq_r.
Qed.

(** Calling [store_tokens] again with the same tokens, as the SDK may, leaves
    the session as the first call left it. *)
Theorem store_tokens_idempotent w access_token refresh_token s :
  creds_ok s ->
  st_after (store_tokens w access_token refresh_token
              (st_after (store_tokens w access_token refresh_token s))) =
  st_after (store_tokens w access_token refresh_token s).
Proof.
  intros Hok.
  destruct (store_tokens_exact w access_token refresh_token s Hok) as (evs & -> & _).
  cbn [st_after].
  set (d1 := captured_entries w ∪ creds_dict s).
  destruct (store_tokens_exact w access_token refresh_token
              (tokens_stored access_token refresh_token d1 s)
              (tokens_stored_creds_ok _ _ _ _)) as (evs2 & -> & _).
  cbn [st_after]. rewrite tokens_stored_creds_dict.
  set (D := record_refresh_creds refresh_token (<["access_token" := SStr access_token]> d1)).
  assert (captured_entries w ⊆ D) as Hsub.
  { apply record_refresh_creds_subseteq; [by apply captured_entries_keys|].
    apply insert_subseteq_r; [by apply captured_entries_keys|].
    apply map_union_subseteq_l. }
  assert (D !! "access_token" = Some (SStr access_token)) as Hat.
  { unfold D. rewrite record_refresh_creds_lookup by done. apply lookup_insert_eq. }
  unfold tokens_stored at 1. fold D.
  rewrite (map_subseteq_union _ _ Hsub), (insert_id D) by exact Hat.
  rewrite (record_refresh_creds_id refresh_token D)
    by (intros r Hrt Hr; by apply record_refresh_creds_set).
  rewrite (insert_id (tokens_stored access_token refresh_token d1 s) "access_token")
    by apply tokens_stored_access_token.
  rewrite record_refresh_session_id.
  - apply insert_id. unfold tokens_stored. fold D. apply lookup_insert_eq.
  - intros r Hrt Hr. unfold tokens_stored. rewrite lookup_insert_ne by done.
    by apply record_refresh_session_set.
Qed.

Lemma store_tokens_idempotent_witness :
  creds_ok session_with_jwt_config /\
  st_after (store_tokens oauth_world "AT1" (Some "RT1")
              (st_after (store_tokens oauth_world "AT1" (Some "RT1") session_with_jwt_config))) =
  st_after (store_tokens oauth_world "AT1" (Some "RT1") session_with_jwt_config).
Proof.
  assert (Hok : creds_ok session_with_jwt_config) by (vm_compute; exact I).
  split; [exact Hok|].
  exact (store_tokens_idempotent oauth_world "AT1" (Some "RT1") session_with_jwt_config Hok).
Defined.

(** ** The signed-assertion and static-token strategies *)





Lemma jwt_committed_lookup config name s k :
  k ∉ ["authenticated"; "client"; "user"; "auth_credentials"] ->
  jwt_committed config name s !! k = s !! k.
Proof.
  rewrite !not_elem_of_cons. intros (? & ? & ? & ? & _).
  unfold jwt_committed, committed. by rewrite !lookup_insert_ne.
Qed.

Lemma dev_committed_lookup client_id client_secret developer_token name s k :
  k ∉ ["authenticated"; "client"; "user"; "auth_credentials"] ->
  dev_committed client_id client_secret developer_token name s !! k = s !! k.
Proof.
  rewrite !not_elem_of_cons. intros (? & ? & ? & ? & _).
  unfold dev_committed, committed. by rewrite !lookup_insert_ne.
Qed.

(** A click on the signed-assertion button with a well-formed [box_jwt]
    section, when the SDK accepts the configuration and returns the service
    account: the run builds the auth object from the section, asks for the
    account, marks the session authenticated with a client on that object,
    keeps the configuration under [jwt_config] in the credential store next
    to whatever was there, greets the account and asks for a rerun.  No other
    key of the session is written; in particular no token is stored. *)
Theorem jwt_login_succeeds w config name s :
  jwt_configured w config ->
  jwt_structure_ok config = true ->
  button_jwt w = true ->
  sdk_jwt_from_settings w config = None ->
  sdk_current_user w (JWTAuthObj config) = inr name ->
  creds_ok s ->
  returned (jwt_authentication_secrets w s) = inl RerunException /\
  emitted (jwt_authentication_secrets w s) =
    [SdkJwtFromSettings config; SdkCurrentUser (JWTAuthObj config);
     StSuccess (AuthenticatedServiceAccount name)] /\
  st_after (jwt_authentication_secrets w s) !! "authenticated" = Some (VBool true) /\
  st_after (jwt_authentication_secrets w s) !! "client" =
    Some (VClient (JWTAuthObj config)) /\
  st_after (jwt_authentication_secrets w s) !! "user" = Some (VUser name) /\
  (exists d,
      st_after (jwt_authentication_secrets w s) !! "auth_credentials" = Some (VCreds d) /\
      d !! "jwt_config" = Some config /\
      forall k, k <> "jwt_config" -> d !! k = creds_dict s !! k) /\
  (forall k, k ∉ ["authenticated"; "client"; "user"; "auth_credentials"] ->
             st_after (jwt_authentication_secrets w s) !! k = s !! k).
Proof.
  intros Hconf Hstruct Hbutton Hsettings Huser Hok.
  rewrite (jwt_after_check w config s Hconf), Hstruct, Hbutton. simpl.
  pose proof (jwt_attempt_run w config s Hok) as Hrun.
  rewrite Hsettings, Huser in Hrun.
  rewrite (try_except_guarded _ ErrJwtFailed LogJwtFailed _ _ _ _ Hrun).
  unfold guarded. cbn [is_Exception st_after emitted returned].
  split; [done|]. split; [done|].
  repeat split.
  - unfold jwt_committed, committed. rewrite !lookup_insert_ne by done.
    apply lookup_insert_eq.
  - unfold jwt_committed, committed. rewrite !lookup_insert_ne by done.
    apply lookup_insert_eq.
  - unfold jwt_committed, committed. rewrite !lookup_insert_ne by done.
    apply lookup_insert_eq.
  - eexists. unfold jwt_committed. rewrite lookup_insert_eq. split; [done|].
    split; [apply lookup_insert_eq|]. intros k Hk. by rewrite lookup_insert_ne.
  - intros k Hk. by apply jwt_committed_lookup.
Qed.

Lemma jwt_login_succeeds_witness :
  returned (jwt_authentication_secrets jwt_world session_with_jwt_config) =
    inl RerunException /\
  emitted (jwt_authentication_secrets jwt_world session_with_jwt_config) =
    [SdkJwtFromSettings jwt_config_sample; SdkCurrentUser (JWTAuthObj jwt_config_sample);
     StSuccess (AuthenticatedServiceAccount "Alice")] /\
  st_after (jwt_authentication_secrets jwt_world session_with_jwt_config) !! "authenticated" =
    Some (VBool true) /\
  st_after (jwt_authentication_secrets jwt_world session_with_jwt_config) !! "client" =
    Some (VClient (JWTAuthObj jwt_config_sample)) /\
  st_after (jwt_authentication_secrets jwt_world session_with_jwt_config) !! "user" =
    Some (VUser "Alice") /\
  (exists d,
      st_after (jwt_authentication_secrets jwt_world session_with_jwt_config)
        !! "auth_credentials" = Some (VCreds d) /\
      d !! "jwt_config" = Some jwt_config_sample /\
      forall k, k <> "jwt_config" -> d !! k = creds_dict session_with_jwt_config !! k) /\
  (forall k, k ∉ ["authenticated"; "client"; "user"; "auth_credentials"] ->
             st_after (jwt_authentication_secrets jwt_world session_with_jwt_config) !! k =
             session_with_jwt_config !! k).
Proof.
  apply (jwt_login_succeeds jwt_world jwt_config_sample "Alice" session_with_jwt_config).
  - exists secrets_jwt. split; [reflexivity|]. split; vm_compute; reflexivity.
  - vm_compute. reflexivity.
  - reflexivity.
  - reflexivity.
  - reflexivity.
  - vm_compute. exact I.
Defined.

(** A click on the static-token button with a complete [box_dev] section,
    when the SDK returns the user for the developer token: the session is
    marked authenticated with a client on an auth object built from the three
    secrets, the client id, the client secret and the developer token (under
    [access_token]) are recorded in the credential store next to whatever was
    there, the user is greeted and a rerun is requested.  The token-storage
    callback is not run: the top-level [access_token] and every other key of
    the session are as before. *)
Theorem developer_token_login_succeeds
    w client_id client_secret developer_token name s :
  dev_configured w client_id client_secret developer_token ->
  button_dev w = true ->
  sdk_current_user w (OAuth2Obj client_id client_secret (Some developer_token)) = inr name ->
  creds_ok s ->
  returned (developer_token_authentication_secrets w s) = inl RerunException /\
  emitted (developer_token_authentication_secrets w s) =
    [SdkCurrentUser (OAuth2Obj client_id client_secret (Some developer_token));
     StSuccess (Authenticated name)] /\
  st_after (developer_token_authentication_secrets w s) !! "authenticated" =
    Some (VBool true) /\
  st_after (developer_token_authentication_secrets w s) !! "client" =
    Some (VClient (OAuth2Obj client_id client_secret (Some developer_token))) /\
  st_after (developer_token_authentication_secrets w s) !! "user" = Some (VUser name) /\
  (exists d,
      st_after (developer_token_authentication_secrets w s) !! "auth_credentials" =
        Some (VCreds d) /\
      d !! "client_id" = Some client_id /\
      d !! "client_secret" = Some client_secret /\
      d !! "access_token" = Some developer_token /\
      forall k, k ∉ ["client_id"; "client_secret"; "access_token"] ->
                d !! k = creds_dict s !! k) /\
  (forall k, k ∉ ["authenticated"; "client"; "user"; "auth_credentials"] ->
             st_after (developer_token_authentication_secrets w s) !! k = s !! k).
Proof.
  intros Hconf Hbutton Huser Hok.
  rewrite (dev_after_check w client_id client_secret developer_token s Hconf), Hbutton.
  pose proof (developer_token_attempt_run w client_id client_secret developer_token s Hok)
    as Hrun.
  cbv zeta in Hrun. rewrite Huser in Hrun.
  rewrite (try_except_guarded _ ErrDevTokenFailed LogDevTokenFailed _ _ _ _ Hrun).
  unfold guarded. cbn [is_Exception st_after emitted returned].
  split; [done|]. split; [done|].
  repeat split.
  - unfold dev_committed, committed. rewrite !lookup_insert_ne by done.
    apply lookup_insert_eq.
  - unfold dev_committed, committed. rewrite !lookup_insert_ne by done.
    apply lookup_insert_eq.
  - unfold dev_committed, committed. rewrite !lookup_insert_ne by done.
    apply lookup_insert_eq.
  - eexists. unfold dev_committed. rewrite lookup_insert_eq. split; [done|].
    split; [|split; [|split]].
    + rewrite !lookup_insert_ne by done. apply lookup_insert_eq.
    + rewrite !lookup_insert_ne by done. apply lookup_insert_eq.
    + apply lookup_insert_eq.
    + intros k. rewrite !not_elem_of_cons. intros (? & ? & ? & _).
      by rewrite !lookup_insert_ne.
  - intros k Hk. by apply dev_committed_lookup.
Qed.

Lemma developer_token_login_succeeds_witness :
  returned (developer_token_authentication_secrets dev_world session_with_jwt_config) =
    inl RerunException /\
  emitted (developer_token_authentication_secrets dev_world session_with_jwt_config) =
    [SdkCurrentUser (OAuth2Obj (SStr "c2") (SStr "s2") (Some (SStr "DT")));
     StSuccess (Authenticated "Alice")] /\
  st_after (developer_token_authentication_secrets dev_world session_with_jwt_config)
    !! "authenticated" = Some (VBool true) /\
  st_after (developer_token_authentication_secrets dev_world session_with_jwt_config)
    !! "client" = Some (VClient (OAuth2Obj (SStr "c2") (SStr "s2") (Some (SStr "DT")))) /\
  st_after (developer_token_authentication_secrets dev_world session_with_jwt_config)
    !! "user" = Some (VUser "Alice") /\
  (exists d,
      st_after (developer_token_authentication_secrets dev_world session_with_jwt_config)
        !! "auth_credentials" = Some (VCreds d) /\
      d !! "client_id" = Some (SStr "c2") /\
      d !! "client_secret" = Some (SStr "s2") /\
      d !! "access_token" = Some (SStr "DT") /\
      forall k, k ∉ ["client_id"; "client_secret"; "access_token"] ->
                d !! k = creds_dict session_with_jwt_config !! k) /\
  (forall k, k ∉ ["authenticated"; "client"; "user"; "auth_credentials"] ->
             st_after (developer_token_authentication_secrets dev_world
                         session_with_jwt_config) !! k =
             session_with_jwt_config !! k).
Proof.
  apply (developer_token_login_succeeds dev_world (SStr "c2") (SStr "s2") (SStr "DT")
           "Alice" session_with_jwt_config).
  - exists secrets_dev,
      ({[ "client_id" := SStr "c2"; "client_secret" := SStr "s2";
          "developer_token" := SStr "DT" ]} : gmap string sval).
    split; [reflexivity|]. repeat split; vm_compute; reflexivity.
  - reflexivity.
  - reflexivity.
  - vm_compute. exact I.
Defined.

(** A click on the signed-assertion button whose attempt fails, either
    because the SDK refuses the configuration (then the account is never
    asked for) or because the account cannot be fetched: the message
    'JWT Authentication failed' is shown with the SDK's text and logged, and
    the session is exactly as before. *)
Theorem jwt_failure_reported w config msg s :
  jwt_configured w config ->
  jwt_structure_ok config = true ->
  button_jwt w = true ->
  sdk_jwt_from_settings w config = Some msg \/
  (sdk_jwt_from_settings w config = None /\
   sdk_current_user w (JWTAuthObj config) = inl msg) ->
  jwt_authentication_secrets w s =
  Outcome s
    (SdkJwtFromSettings config ::
     match sdk_jwt_from_settings w config with
     | Some _ => []
     | None => [SdkCurrentUser (JWTAuthObj config)]
     end ++
     [StError (ErrJwtFailed (SdkError msg)); LogProblem LogJwtFailed])
    (inr tt).
Proof.
  intros Hconf Hstruct Hbutton Hfail.
  rewrite (jwt_after_check w config s Hconf), Hstruct, Hbutton. simpl negb. cbv iota.
  assert (jwt_attempt w config s =
          Outcome s (SdkJwtFromSettings config ::
                     match sdk_jwt_from_settings w config with
                     | Some _ => []
                     | None => [SdkCurrentUser (JWTAuthObj config)]
                     end) (inl (SdkError msg))) as Hrun.
  { unfold jwt_attempt. destruct Hfail as [Hsettings|[Hsettings Huser]]; rewrite Hsettings.
    - apply bind_raise. unfold jwt_from_settings, bind, emit. simpl. by rewrite Hsettings.
    - eapply (bind_run _ _ _ s [SdkJwtFromSettings config] (JWTAuthObj config)).
      + unfold jwt_from_settings, bind, emit. simpl. by rewrite Hsettings.
      + apply bind_raise. unfold current_user_get, bind, emit. simpl. by rewrite Huser. }
  by rewrite (try_except_guarded _ ErrJwtFailed LogJwtFailed _ _ _ _ Hrun).
Qed.

Lemma jwt_failure_reported_witness :
  jwt_authentication_secrets (identity_failing jwt_world) ∅ =
  Outcome ∅
    [SdkJwtFromSettings jwt_config_sample; SdkCurrentUser (JWTAuthObj jwt_config_sample);
     StError (ErrJwtFailed (SdkError "401 Unauthorized")); LogProblem LogJwtFailed]
    (inr tt).
Proof.
  apply (jwt_failure_reported (identity_failing jwt_world) jwt_config_sample
           "401 Unauthorized" ∅).
  - exists secrets_jwt. split; [reflexivity|]. split; vm_compute; reflexivity.
  - vm_compute. reflexivity.
  - reflexivity.
  - right. split; reflexivity.
Defined.

(** A click on the static-token button when the SDK cannot fetch the user
    (an expired developer token, say): 'Developer Token Authentication
    failed' is shown with the SDK's text and logged, and the session is
    exactly as before. *)
Theorem developer_token_failure_reported
    w client_id client_secret developer_token msg s :
  dev_configured w client_id client_secret developer_token ->
  button_dev w = true ->
  sdk_current_user w (OAuth2Obj client_id client_secret (Some developer_token)) = inl msg ->
  developer_token_authentication_secrets w s =
  Outcome s
    [SdkCurrentUser (OAuth2Obj client_id client_secret (Some developer_token));
     StError (ErrDevTokenFailed (SdkError msg)); LogProblem LogDevTokenFailed]
    (inr tt).
Proof.
  intros Hconf Hbutton Huser.
  rewrite (dev_after_check w client_id client_secret developer_token s Hconf), Hbutton.
  assert (developer_token_attempt w client_id client_secret developer_token s =
          Outcome s [SdkCurrentUser (OAuth2Obj client_id client_secret (Some developer_token))]
                  (inl (SdkError msg))) as Hrun.
  { unfold developer_token_attempt. apply bind_raise.
    unfold current_user_get, bind, emit. simpl. by rewrite Huser. }
  by rewrite (try_except_guarded _ ErrDevTokenFailed LogDevTokenFailed _ _ _ _ Hrun).
Qed.

Lemma developer_token_failure_reported_witness :
  developer_token_authentication_secrets (identity_failing dev_world) ∅ =
  Outcome ∅
    [SdkCurrentUser (OAuth2Obj (SStr "c2") (SStr "s2") (Some (SStr "DT")));
     StError (ErrDevTokenFailed (SdkError "401 Unauthorized"));
     LogProblem LogDevTokenFailed]
    (inr tt).
Proof.
  apply (developer_token_failure_reported (identity_failing dev_world)
           (SStr "c2") (SStr "s2") (SStr "DT") "401 Unauthorized" ∅).
  - exists secrets_dev,
      ({[ "client_id" := SStr "c2"; "client_secret" := SStr "s2";
          "developer_token" := SStr "DT" ]} : gmap string sval).
    split; [reflexivity|]. repeat split; vm_compute; reflexivity.
  - reflexivity.
  - reflexivity.
Defined.

(** ** What the credential store can hold *)

Section Keeps.
Context (P : gmap string value -> Prop).

Lemma keeps_ret {A} (a : A) : keeps P (ret a).
Proof. by intros s. Qed.

Lemma keeps_raise {A} e : keeps P (raise e : M A).
Proof. by intros s. Qed.

Lemma keeps_lift {A} (r : exn + A) : keeps P (lift r).
Proof. by intros s. Qed.

Lemma keeps_emit ev : keeps P (emit ev).
Proof. by intros s. Qed.

Lemma keeps_get_key k : keeps P (get_key k).
Proof. by intros s. Qed.

Lemma keeps_bind {A B} (m : M A) (f : A -> M B) :
  keeps P m -> (forall a, keeps P (f a)) -> keeps P (bind m f).
Proof.
  intros Hm Hf s Hs. specialize (Hm s Hs). unfold bind.
  destruct (m s) as [s1 evs1 [e|a]]; cbn [st_after emitted returned] in *; [done|].
  by apply Hf.
Qed.

Lemma keeps_try_except {A} (m : M A) (h : exn -> M A) :
  keeps P m -> (forall e, keeps P (h e)) -> keeps P (try_except m h).
Proof.
  intros Hm Hh s Hs. specialize (Hm s Hs). unfold try_except.
  destruct (m s) as [s1 evs1 [e|a]]; cbn [st_after emitted returned] in *; [|done].
  destruct (is_Exception e); cbn [st_after]; [|done]. by apply Hh.
Qed.

End Keeps.

Ltac keeps_step :=
  first [ apply keeps_ret | apply keeps_raise | apply keeps_lift | apply keeps_emit
        | apply keeps_get_key
        | apply keeps_bind; [|intros ?]
        | apply keeps_try_except; [|intros ?] ].

Lemma known_credentials_frame s s' :
  s' !! "auth_credentials" = s !! "auth_credentials" ->
  known_credentials s -> known_credentials s'.
Proof. unfold known_credentials, creds_ok, creds_dict. by intros ->. Qed.

Lemma keeps_set_key k v :
  k <> "auth_credentials" -> keeps known_credentials (set_key k v).
Proof.
  intros Hk s. apply known_credentials_frame. unfold set_key. cbn [st_after].
  by rewrite lookup_insert_ne.
Qed.

Lemma keeps_pop_credentials : keeps known_credentials (pop_key "auth_credentials").
Proof.
  intros s _. unfold pop_key, known_credentials, creds_ok, creds_dict. cbn [st_after].
  rewrite lookup_delete_eq. split; [done|]. intros k [v Hv]. by rewrite lookup_empty in Hv.
Qed.

Lemma keeps_ensure_auth_credentials : keeps known_credentials ensure_auth_credentials.
Proof.
  intros s Hs. unfold ensure_auth_credentials.
  destruct (s !! "auth_credentials") eqn:Hc; cbn [st_after]; [done|].
  unfold known_credentials, creds_ok, creds_dict. rewrite lookup_insert_eq.
  split; [done|]. intros k [v Hv]. by rewrite lookup_empty in Hv.
Qed.

Lemma keeps_creds_setitem k v :
  k ∈ credential_keys -> keeps known_credentials (creds_setitem k v).
Proof.
  intros Hk s [Hok Hkeys]. unfold creds_setitem.
  unfold creds_dict in Hkeys.
  destruct (s !! "auth_credentials") as [[]|] eqn:Hc; cbn [st_after];
    try (split; [exact Hok|]; unfold creds_dict; by rewrite Hc).
  unfold known_credentials, creds_ok, creds_dict. rewrite lookup_insert_eq.
  split; [done|]. intros k' Hk'. destruct (decide (k' = k)) as [->|Hne]; [done|].
  rewrite lookup_insert_ne in Hk' by done. by apply Hkeys.
Qed.

Lemma credential_key_client_id : "client_id" ∈ credential_keys.
Proof. unfold credential_keys. set_solver. Qed.

Lemma credential_key_client_secret : "client_secret" ∈ credential_keys.
Proof. unfold credential_keys. set_solver. Qed.

Lemma credential_key_access_token : "access_token" ∈ credential_keys.
Proof. unfold credential_keys. set_solver. Qed.

Lemma credential_key_refresh_token : "refresh_token" ∈ credential_keys.
Proof. unfold credential_keys. set_solver. Qed.

Lemma credential_key_jwt_config : "jwt_config" ∈ credential_keys.
Proof. unfold credential_keys. set_solver. Qed.

Ltac keeps_credentials_using known :=
  repeat first
    [ known
    | keeps_step
    | apply keeps_set_key; discriminate
    | apply keeps_pop_credentials
    | apply keeps_ensure_auth_credentials
    | apply keeps_creds_setitem;
      first [ apply credential_key_client_id | apply credential_key_client_secret
            | apply credential_key_access_token | apply credential_key_refresh_token
            | apply credential_key_jwt_config ]
    | match goal with
      | |- keeps _ (match ?x with _ => _ end) => destruct x
      end ].

Ltac keeps_credentials := keeps_credentials_using fail.

Lemma keeps_secrets_get w k : keeps known_credentials (secrets_get w k).
Proof. unfold secrets_get. keeps_credentials. Qed.

Lemma keeps_secrets_getitem2 w section key :
  keeps known_credentials (secrets_getitem2 w section key).
Proof. unfold secrets_getitem2, secrets_getitem. keeps_credentials. Qed.

Lemma keeps_check_secrets_available w reqs :
  keeps known_credentials (check_secrets_available w reqs).
Proof. unfold check_secrets_available. keeps_credentials. Qed.

Lemma keeps_store_tokens w access_token refresh_token :
  keeps known_credentials (store_tokens w access_token refresh_token).
Proof.
  unfold store_tokens, capture_client_secrets.
  pose proof (keeps_secrets_get w) as Hget.
  pose proof (keeps_secrets_getitem2 w) as Hget2.
  keeps_credentials_using ltac:(first [ apply Hget | apply Hget2 ]).
Qed.

Lemma keeps_current_user_get w auth : keeps known_credentials (current_user_get w auth).
Proof. unfold current_user_get. keeps_credentials. Qed.

Lemma keeps_commit auth name : keeps known_credentials (commit auth name).
Proof. unfold commit. keeps_credentials. Qed.

Lemma keeps_complete_authorization w oauth url :
  keeps known_credentials (complete_authorization w oauth url).
Proof.
  unfold complete_authorization, exchange_and_commit, oauth_authenticate, first_item.
  pose proof (keeps_store_tokens w) as Hstore.
  pose proof (keeps_current_user_get w) as Huser.
  pose proof keeps_commit as Hcommit.
  keeps_credentials_using ltac:(first [ apply Hstore | apply Huser | apply Hcommit ]).
Qed.

Lemma keeps_oauth2 w : keeps known_credentials (oauth2_authentication_secrets w).
Proof.
  unfold oauth2_authentication_secrets, authorization_flow, begin_authorization,
    get_authorization_url, secrets_redirect_uri.
  cbv zeta.
  pose proof (keeps_check_secrets_available w) as Hcheck.
  pose proof (keeps_secrets_get w) as Hget.
  pose proof (keeps_secrets_getitem2 w) as Hget2.
  pose proof (keeps_complete_authorization w) as Hcomplete.
  keeps_credentials_using ltac:(first [ apply Hcheck | apply Hget | apply Hget2 | apply Hcomplete ]).
Qed.

Lemma keeps_jwt w : keeps known_credentials (jwt_authentication_secrets w).
Proof.
  unfold jwt_authentication_secrets, jwt_attempt, jwt_from_settings, secrets_getitem.
  cbv zeta.
  pose proof (keeps_check_secrets_available w) as Hcheck.
  pose proof (keeps_current_user_get w) as Huser.
  pose proof keeps_commit as Hcommit.
  keeps_credentials_using ltac:(first [ apply Hcheck | apply Huser | apply Hcommit ]).
Qed.

Lemma keeps_developer_token w :
  keeps known_credentials (developer_token_authentication_secrets w).
Proof.
  unfold developer_token_authentication_secrets, developer_token_attempt.
  cbv zeta.
  pose proof (keeps_check_secrets_available w) as Hcheck.
  pose proof (keeps_secrets_getitem2 w) as Hget2.
  pose proof (keeps_current_user_get w) as Huser.
  pose proof keeps_commit as Hcommit.
  keeps_credentials_using ltac:(first [ apply Hcheck | apply Hget2 | apply Huser | apply Hcommit ]).
Qed.

Lemma keeps_authenticate w : keeps known_credentials (authenticate w).
Proof.
  unfold authenticate, logout, session_user_name.
  pose proof (keeps_oauth2 w) as Hoauth.
  pose proof (keeps_jwt w) as Hjwt.
  pose proof (keeps_developer_token w) as Hdev.
  keeps_credentials_using ltac:(first [ apply Hoauth | apply Hjwt | apply Hdev ]).
Qed.

Lemma reachable_known_credentials s : reachable s -> known_credentials s.
Proof.
  induction 1 as [|w s _ IH|w access_token refresh_token s _ IH].
  - split; [done|]. intros k [v Hv]. unfold creds_dict in Hv.
    rewrite lookup_empty in Hv. by rewrite lookup_empty in Hv.
  - by apply keeps_authenticate.
  - by apply keeps_store_tokens.
Qed.

(** Whatever runs of the page and token refreshes a session has been
    through, its credential store, when there is one, is a dictionary that
    holds nothing but a client id, a client secret, an access token, a refresh
    token and a signed-assertion configuration. *)
Theorem credential_store_holds_known_keys s :
  reachable s ->
  s !! "auth_credentials" = None \/
  exists d, s !! "auth_credentials" = Some (VCreds d) /\
            forall k, is_Some (d !! k) ->
                      k ∈ ["client_id"; "client_secret"; "access_token"; "refresh_token";
                           "jwt_config"].
Proof.
  intros [Hok Hkeys]%reachable_known_credentials.
  unfold creds_ok in Hok. unfold creds_dict in Hkeys.
  destruct (s !! "auth_credentials") as [[]|]; try done; [|by left].
  right. eexists. split; [done|]. exact Hkeys.
Qed.

Lemma credential_store_holds_known_keys_witness :
  st_after (authenticate scenario_a ∅) !! "auth_credentials" = None \/
  exists d, st_after (authenticate scenario_a ∅) !! "auth_credentials" = Some (VCreds d) /\
            forall k, is_Some (d !! k) ->
                      k ∈ ["client_id"; "client_secret"; "access_token"; "refresh_token";
                           "jwt_config"].
Proof.
  apply (credential_store_holds_known_keys (st_after (authenticate scenario_a ∅))).
  apply reachable_run, reachable_init.
Defined.

(** ** The debug view *)

Lemma shown_credential_keys_known d :
  (forall k, is_Some (d !! k) -> k ∈ credential_keys) ->
  shown_credential_keys d = dom d ∖ {[ "access_token"; "refresh_token" ]}.
Proof.
  intros Hkeys. unfold shown_credential_keys. apply set_eq. intros k.
  rewrite elem_of_filter, elem_of_difference, elem_of_dom. split.
  - intros [Hshown Hin]. split; [done|]. intros Htok.
    apply elem_of_union in Htok as [->%elem_of_singleton| ->%elem_of_singleton];
      vm_compute in Hshown; discriminate Hshown.
  - intros [Hin Htok]. split; [|done].
    specialize (Hkeys k Hin). unfold credential_keys in Hkeys.
    rewrite !elem_of_cons in Hkeys.
    destruct Hkeys as [->|[->|[->|[->|[->|Hnil]]]]].
    + vm_compute. reflexivity.
    + vm_compute. reflexivity.
    + exfalso. apply Htok. rewrite elem_of_union, !elem_of_singleton. by left.
    + exfalso. apply Htok. rewrite elem_of_union, !elem_of_singleton. by right.
    + vm_compute. reflexivity.
    + by apply elem_of_nil in Hnil.
Qed.

(** On every session the module can produce, the debug view is written to
    the end without an exception, and the credential entries it names are
    exactly the stored ones other than the access token and the refresh
    token: of a credential store it shows the names of the client id, the
    client secret and the signed-assertion configuration, and never a
    value. *)
Theorem debug_view_names_all_but_tokens s :
  reachable s ->
  exists written,
    debug_authentication true s = (written, None) /\
    forall d, s !! "auth_credentials" = Some (VCreds d) ->
              last written =
              Some (DebugCredentialKeys (dom d ∖ {[ "access_token"; "refresh_token" ]})) /\
              dom d ∖ {[ "access_token"; "refresh_token" ]} ⊆
                ({[ "client_id"; "client_secret"; "jwt_config" ]} : gset string).
Proof.
  intros [Hok Hkeys]%reachable_known_credentials.
  unfold creds_ok in Hok. unfold creds_dict in Hkeys. unfold debug_authentication.
  destruct (s !! "auth_credentials") as [[]|] eqn:Hc; try done.
  - eexists. split; [done|]. intros d' [= <-].
    rewrite (shown_credential_keys_known d Hkeys). split.
    + by rewrite !app_assoc, last_snoc.
    + intros k [Hin Htok]%elem_of_difference. apply elem_of_dom in Hin.
      specialize (Hkeys k Hin). unfold credential_keys in Hkeys.
      rewrite !elem_of_cons in Hkeys. rewrite !elem_of_union, !elem_of_singleton.
      rewrite !elem_of_union, !elem_of_singleton in Htok.
      destruct Hkeys as [?|[?|[?|[?|[?|Hnil]]]]]; [tauto..|].
      by apply elem_of_nil in Hnil.
  - eexists. split; [done|]. intros d [=].
Qed.

Lemma debug_view_names_all_but_tokens_witness :
  exists written,
    debug_authentication true (st_after (authenticate scenario_a ∅)) = (written, None) /\
    forall d, st_after (authenticate scenario_a ∅) !! "auth_credentials" = Some (VCreds d) ->
              last written =
              Some (DebugCredentialKeys (dom d ∖ {[ "access_token"; "refresh_token" ]})) /\
              dom d ∖ {[ "access_token"; "refresh_token" ]} ⊆
                ({[ "client_id"; "client_secret"; "jwt_config" ]} : gset string).
Proof.
  apply (debug_view_names_all_but_tokens (st_after (authenticate scenario_a ∅))).
  apply reachable_run, reachable_init.
Defined.

(** After a logout the debug view reports the session as not authenticated
    and without credentials, but still writes 'Client: Available': the
    logout stores [None] under [client] and the view only asks whether the
    key is there. *)
Theorem debug_view_after_logout w s :
  reachable s ->
  is_authenticated s = true ->
  button_logout w = true ->
  debug_authentication true (st_after (authenticate w s)) =
  ([DebugSessionKeys (dom (st_after (authenticate w s)));
    DebugAuthenticated (VBool false);
    DebugClientAvailable;
    DebugCredentialsNotAvailable], None) /\
  st_after (authenticate w s) !! "client" = Some VNone.
Proof.
  intros Hreach Hauth Hlogout.
  pose proof (reachable_inv s Hreach) as Hinv.
  pose proof (session_inv_logged_in s Hinv) as Hin. rewrite Hauth in Hin.
  destruct Hinv as [_ [(_ & [name Hname] & _)|[Hno _]]]; [|congruence].
  rewrite (authenticate_logged_in w s Hin), Hname, Hlogout. cbn [st_after].
  assert (logged_out s !! "authenticated" = Some (VBool false)) as Ha.
  { unfold logged_out. rewrite lookup_delete_ne by done.
    rewrite !lookup_insert_ne by done. apply lookup_insert_eq. }
  assert (logged_out s !! "client" = Some VNone) as Hc.
  { unfold logged_out. rewrite lookup_delete_ne by done.
    rewrite !lookup_insert_ne by done. apply lookup_insert_eq. }
  assert (logged_out s !! "auth_credentials" = None) as Hcr.
  { unfold logged_out. apply lookup_delete_eq. }
  split; [|exact Hc].
  unfold debug_authentication. rewrite Ha, Hc, Hcr.
  rewrite bool_decide_eq_true_2 by by eexists. done.
Qed.

Lemma debug_view_after_logout_witness :
  debug_authentication true
    (st_after (authenticate (clicking_logout scenario_a)
                 (st_after (authenticate scenario_a ∅)))) =
  ([DebugSessionKeys
      (dom (st_after (authenticate (clicking_logout scenario_a)
                        (st_after (authenticate scenario_a ∅)))));
    DebugAuthenticated (VBool false);
    DebugClientAvailable;
    DebugCredentialsNotAvailable], None) /\
  st_after (authenticate (clicking_logout scenario_a)
              (st_after (authenticate scenario_a ∅))) !! "client" = Some VNone.
Proof.
  apply (debug_view_after_logout (clicking_logout scenario_a)
           (st_after (authenticate scenario_a ∅))).
  - apply reachable_run, reachable_init.
  - vm_compute. reflexivity.
  - reflexivity.
Defined.

(** * The metadata configuration page *)

(** ** Its entry *)

(** The gate of the metadata page agrees with the login status kept by
    [authentication.py]: on every session that module can produce and that
    holds an [authenticated] entry, the page asks for a login exactly when the
    session is not authenticated; the second test, on the client, never
    decides.  Without an [authenticated] entry the attribute access
    raises. *)
Theorem metadata_page_follows_login s :
  reachable s ->
  login_required s =
  match s !! "authenticated" with
  | Some _ => inr (negb (is_authenticated s))
  | None => inl AttributeError
  end.
Proof.
  intros Hreach. pose proof (reachable_inv s Hreach) as [_ Hinv].
  unfold login_required, session_attr, is_authenticated in *.
  destruct (s !! "authenticated") as [authenticated|] eqn:Ha; [|done].
  cbn [opt_truthy] in *. destruct (value_truthy authenticated); [|done].
  destruct Hinv as [(_ & _ & [auth Hclient] & _)|[? _]]; [|done].
  by rewrite Hclient.
Qed.

Lemma metadata_page_follows_login_witness :
  login_required (st_after (authenticate scenario_a ∅)) =
  match st_after (authenticate scenario_a ∅) !! "authenticated" with
  | Some _ => inr (negb (is_authenticated (st_after (authenticate scenario_a ∅))))
  | None => inl AttributeError
  end.
Proof.
  apply (metadata_page_follows_login (st_after (authenticate scenario_a ∅))).
  apply reachable_run, reachable_init.
Defined.

(** ** The template selection *)

Lemma items_get_Some {V} (d : list (string * V)) k v :
  items_get d k = Some v -> (k, v) ∈ d.
Proof.
  unfold items_get. destruct (list_find _ d) as [[i [k' v']]|] eqn:Hfind; [|done].
  simpl. intros [= ->]. apply list_find_Some in Hfind as (Hi & Hk & _).
  simpl in Hk. subst k'. by eapply list_elem_of_lookup_2.
Qed.

Lemma items_get_is_Some {V} (d : list (string * V)) k :
  is_Some (items_get d k) <-> k ∈ d.*1.
Proof.
  split.
  - intros [v Hv%items_get_Some]. apply list_elem_of_fmap. by exists (k, v).
  - intros ([k' v] & -> & Hin)%list_elem_of_fmap. cbn [fst].
    destruct (list_find_elem_of (fun p : string * V => p.1 = k') d (k', v) Hin eq_refl)
      as [[i [k'' v']] Hfind].
    unfold items_get. rewrite Hfind. by eexists.
Qed.

Lemma items_get_NoDup {V} (d : list (string * V)) k v :
  NoDup d.*1 -> (k, v) ∈ d -> items_get d k = Some v.
Proof.
  intros Hnodup Hin.
  destruct (list_find_elem_of (fun p : string * V => p.1 = k) d (k, v) Hin eq_refl)
    as [[i [k' v']] Hfind].
  unfold items_get. rewrite Hfind. simpl.
  apply list_find_Some in Hfind as (Hi & Hk & _). simpl in Hk. subst k'.
  apply list_elem_of_lookup in Hin as [j Hj].
  assert (i = j) as ->.
  { apply (NoDup_lookup d.*1 i j k Hnodup); rewrite list_lookup_fmap.
    - by rewrite Hi.
    - by rewrite Hj. }
  congruence.
Qed.

(** An option is recovered from its name when no two options share a
    name. *)
Lemma selected_template_id_of_option (options : list (string * string)) id name :
  NoDup options.*2 -> (id, name) ∈ options -> selected_template_id options name = id.
Proof.
  intros Hnodup Hin.
  destruct (list_find_elem_of (fun p : string * string => p.2 = name) options (id, name)
              Hin eq_refl) as [[i [id' name']] Hfind].
  unfold selected_template_id. rewrite Hfind. simpl.
  apply list_find_Some in Hfind as (Hi & Hname & _). simpl in Hname. subst name'.
  apply list_elem_of_lookup in Hin as [j Hj].
  assert (i = j) as ->.
  { apply (NoDup_lookup options.*2 i j name Hnodup); rewrite list_lookup_fmap.
    - by rewrite Hi.
    - by rewrite Hj. }
  congruence.
Qed.

Lemma template_options_elem templates id t :
  (id, t) ∈ templates -> (id, displayName t) ∈ template_options templates.
Proof.
  intros Hin. unfold template_options. apply elem_of_cons. right.
  apply list_elem_of_fmap. by exists (id, t).
Qed.

Lemma selected_template_id_elem options name :
  selected_template_id options name = "" \/
  (selected_template_id options name, name) ∈ options.
Proof.
  unfold selected_template_id.
  destruct (list_find _ options) as [[i [id name']]|] eqn:Hfind; [|by left].
  right. simpl. apply list_find_Some in Hfind as (Hi & Hname & _). simpl in Hname.
  subst name'. by eapply list_elem_of_lookup_2.
Qed.

(** Choosing a template by its display name selects that template, provided
    no two options of the select box read the same: its id is stored as
    [template_id], [use_template] tells whether the id is non-empty, and the
    details shown are those of the chosen template. *)
Theorem template_choice_round_trip templates selectbox metadata_config id t :
  NoDup (template_options templates).*2 ->
  NoDup templates.*1 ->
  (id, t) ∈ templates ->
  selectbox (template_options templates).*2 0 = displayName t ->
  fst (select_template templates selectbox metadata_config) !! "template_id" =
    Some (CStr id) /\
  fst (select_template templates selectbox metadata_config) !! "use_template" =
    Some (CBool (negb (String.eqb id ""))) /\
  (id <> "" -> snd (select_template templates selectbox metadata_config) = inr (Some t)) /\
  (forall k, k <> "template_id" -> k <> "use_template" ->
             fst (select_template templates selectbox metadata_config) !! k =
             metadata_config !! k).
Proof.
  intros Hnames Hids Hin Hchoice. unfold select_template. cbv zeta. rewrite Hchoice.
  rewrite (selected_template_id_of_option _ id (displayName t) Hnames)
    by by apply template_options_elem.
  cbn [fst snd]. split; [|split; [|split]].
  - rewrite lookup_insert_ne by done. apply lookup_insert_eq.
  - apply lookup_insert_eq.
  - intros Hne. apply str_truthy_nonempty in Hne. rewrite Hne.
    by rewrite (items_get_NoDup templates id t Hids Hin).
  - intros k ? ?. by rewrite !lookup_insert_ne.
Qed.

Lemma template_choice_round_trip_witness :
  fst (select_template templates_sample (picking "Contract") ∅) !! "template_id" =
    Some (CStr "contract") /\
  fst (select_template templates_sample (picking "Contract") ∅) !! "use_template" =
    Some (CBool (negb (String.eqb "contract" ""))) /\
  ("contract" <> "" ->
   snd (select_template templates_sample (picking "Contract") ∅) =
   inr (Some {| displayName := "Contract"; fields := [("Party", "string")] |})) /\
  (forall k, k <> "template_id" -> k <> "use_template" ->
             fst (select_template templates_sample (picking "Contract") ∅) !! k =
             (∅ : gmap string cval) !! k).
Proof.
  apply (template_choice_round_trip templates_sample (picking "Contract") ∅ "contract"
           {| displayName := "Contract"; fields := [("Party", "string")] |}).
  - apply (bool_decide_unpack _). vm_compute. exact I.
  - apply (bool_decide_unpack _). vm_compute. exact I.
  - apply elem_of_cons. right. apply elem_of_cons. by left.
  - reflexivity.
Defined.

(** Whatever the select box returns, the lookup of the chosen template for
    the details cannot fail, and [use_template] is set exactly when details
    are shown. *)
Theorem template_details_never_fail templates selectbox metadata_config :
  exists shown,
    snd (select_template templates selectbox metadata_config) = inr shown /\
    fst (select_template templates selectbox metadata_config) !! "use_template" =
      Some (CBool (match shown with Some _ => true | None => false end)).
Proof.
  unfold select_template. cbv zeta. cbn [fst snd]. rewrite lookup_insert_eq.
  set (name := selectbox (template_options templates).*2 0).
  destruct (selected_template_id_elem (template_options templates) name) as [Hid|Hin].
  - rewrite Hid. by exists None.
  - unfold str_truthy.
    destruct (String.eqb_spec (selected_template_id (template_options templates) name) "")
      as [Hempty|Hne]; [by exists None|].
    cbn [negb].
    apply elem_of_cons in Hin as [[= Hid _]|Hin]; [done|].
    apply list_elem_of_fmap in Hin as ([id t] & [= Hid Hname] & Hin). simpl in Hid.
    assert (is_Some (items_get templates (selected_template_id (template_options templates)
                                            name))) as [t' Ht'].
    { apply items_get_is_Some. rewrite Hid. apply list_elem_of_fmap. by exists (id, t). }
    rewrite Ht'. by exists (Some t').
Qed.

Lemma list_find_head {A} (P : A -> Prop) `{forall x, Decision (P x)} x l :
  P x -> list_find P (x :: l) = Some (0, x).
Proof. intros HP. cbn [list_find]. by rewrite decide_True. Qed.

(** What an untouched select box does to the template of a document type:
    a mapping to a template that is still offered is kept; no mapping, and a
    mapping to a template that is no longer offered, become the empty id of
    'None - Use custom fields'.  The other document types are not
    touched. *)
Theorem untouched_mapping_normalised templates selectbox doc_type document_type_to_template :
  NoDup (template_options templates).*2 ->
  (forall index,
      index < length (template_options templates) ->
      (template_options templates).*2 !! index =
      Some (selectbox (template_options templates).*2 index)) ->
  map_document_type templates selectbox doc_type document_type_to_template !! doc_type =
    Some (Some (match mjoin (document_type_to_template !! doc_type) with
                | Some current =>
                    if bool_decide (current ∈ (template_options templates).*1)
                    then current else ""
                | None => ""
                end)) /\
  (forall other, other <> doc_type ->
                 map_document_type templates selectbox doc_type document_type_to_template
                   !! other = document_type_to_template !! other).
Proof.
  intros Hnames Hbox. unfold map_document_type. cbv zeta.
  split; [|intros other Hother; by rewrite lookup_insert_ne].
  rewrite lookup_insert_eq. do 2 f_equal.
  set (options := template_options templates) in *.
  assert (Hfirst : selected_template_id options (selectbox options.*2 0) = "").
  { assert (selectbox options.*2 0 = "None - Use custom fields") as ->.
    { assert (0 < length options) as Hlt by (unfold options; simpl; lia).
      specialize (Hbox 0 Hlt).
      change (options.*2 !! 0) with (Some "None - Use custom fields") in Hbox.
      congruence. }
    unfold selected_template_id, options, template_options.
    by rewrite list_find_head. }
  destruct (mjoin (document_type_to_template !! doc_type)) as [current|]; [|exact Hfirst].
  unfold selected_index.
  destruct (list_find (fun entry : string * string => entry.1 = current) options)
    as [[i [id name]]|] eqn:Hfind.
  - apply list_find_Some in Hfind as (Hi & Hid & _). simpl in Hid. subst id.
    cbn [from_option fst].
    assert ((current, name) ∈ options) as Hin by by eapply list_elem_of_lookup_2.
    rewrite bool_decide_eq_true_2
      by (apply list_elem_of_fmap; by exists (current, name)).
    assert (selectbox options.*2 i = name) as ->.
    { assert (i < length options) as Hlt by by eapply lookup_lt_Some.
      specialize (Hbox i Hlt). rewrite list_lookup_fmap, Hi in Hbox.
      cbn [fmap option_fmap option_map snd] in Hbox. congruence. }
    by apply selected_template_id_of_option.
  - cbn [from_option]. rewrite Hfirst.
    rewrite bool_decide_eq_false_2; [done|].
    intros ([id name] & -> & Hin)%list_elem_of_fmap.
    apply list_find_None in Hfind. rewrite Forall_forall in Hfind.
    by apply (Hfind (id, name) Hin).
Qed.

Lemma untouched_mapping_normalised_witness :
  map_document_type templates_sample untouched "Invoices"
    {[ "Invoices" := Some "deleted_template" ]} !! "Invoices" =
    Some (Some "") /\
  (forall other, other <> "Invoices" ->
                 map_document_type templates_sample untouched "Invoices"
                   {[ "Invoices" := Some "deleted_template" ]} !! other =
                 ({[ "Invoices" := Some "deleted_template" ]}
                    : gmap string (option string)) !! other).
Proof.
  assert (Hkept : match mjoin (({[ "Invoices" := Some "deleted_template" ]}
                                  : gmap string (option string)) !! "Invoices") with
                  | Some current =>
                      if bool_decide (current ∈ (template_options templates_sample).*1)
                      then current else ""
                  | None => ""
                  end = "") by (vm_compute; reflexivity).
  assert (Hnames : NoDup (template_options templates_sample).*2).
  { apply (bool_decide_unpack _). vm_compute. exact I. }
  assert (Hbox : forall index,
             index < length (template_options templates_sample) ->
             (template_options templates_sample).*2 !! index =
             Some (untouched (template_options templates_sample).*2 index)).
  { intros index Hlt. unfold untouched.
    destruct (lookup_lt_is_Some_2 (template_options templates_sample).*2 index) as [x ->];
      [by rewrite length_fmap|reflexivity]. }
  pose proof (untouched_mapping_normalised templates_sample untouched "Invoices"
                {[ "Invoices" := Some "deleted_template" ]} Hnames Hbox) as Hrun.
  rewrite Hkept in Hrun. exact Hrun.
Defined.

(** ** The model selection *)

Lemma items_set_elem {V} (d : list (string * V)) x v k :
  k ∈ (items_set d x v).*1 <-> k ∈ d.*1 \/ k = x.
Proof.
  induction d as [|[k' v'] d IH]; simpl.
  - rewrite elem_of_cons, elem_of_nil. tauto.
  - destruct (decide (k' = x)) as [->|Hne]; simpl.
    + rewrite !elem_of_cons. tauto.
    + rewrite !elem_of_cons, IH. tauto.
Qed.

Lemma described_models_keys_from all l d0 k :
  k ∈ (foldl (fun d name =>
                if bool_decide (is_Some (items_get all name))
                then items_set d name
                       (default (description_not_found name) (items_get all name))
                else d) d0 l).*1 <->
  k ∈ d0.*1 \/ (k ∈ l /\ k ∈ all.*1).
Proof.
  revert d0. induction l as [|x l IH]; intros d0; simpl.
  - rewrite elem_of_nil. tauto.
  - rewrite IH, elem_of_cons. destruct (bool_decide_reflect (is_Some (items_get all x)))
      as [Hx|Hx]; rewrite items_get_is_Some in Hx.
    + rewrite items_set_elem. split.
      * intros [[?| ->]|?]; tauto.
      * intros [?|[[-> | ?] ?]]; tauto.
    + split; [tauto|]. intros [?|[[-> | ?] ?]]; tauto.
Qed.

Lemma add_placeholder_keys acc x k :
  k ∈ (fst (add_placeholder acc x)).*1 <-> k ∈ (fst acc).*1 \/ k = x.
Proof.
  unfold add_placeholder.
  destruct (bool_decide_reflect (is_Some (items_get acc.1 x))) as [Hx|Hx].
  - rewrite items_get_is_Some in Hx. split; [tauto|]. by intros [?| ->].
  - cbn [fst]. apply items_set_elem.
Qed.

Lemma placeholder_keys_from l acc k :
  k ∈ (fst (foldl add_placeholder acc l)).*1 <-> k ∈ (fst acc).*1 \/ k ∈ l.
Proof.
  revert acc. induction l as [|x l IH]; intros acc; simpl.
  - rewrite elem_of_nil. tauto.
  - rewrite IH, add_placeholder_keys, elem_of_cons. tauto.
Qed.

(** The select box offers the allowed models and no others. *)
Lemma ai_models_with_desc_keys all allowed k :
  k ∈ (ai_models_with_desc all allowed).*1 <-> k ∈ allowed.
Proof.
  unfold ai_models_with_desc, ai_models_with_desc_logged.
  rewrite placeholder_keys_from. cbn [fst]. unfold described_models.
  rewrite described_models_keys_from. simpl. rewrite elem_of_nil. tauto.
Qed.

Lemma selected_name_elem (models : list (string * string)) desc :
  desc ∈ models.*2 ->
  exists name,
    list_find (fun item : string * string => item.2 = desc) models ≫=
      (fun found => Some (fst (snd found))) = Some name /\
    (name, desc) ∈ models.
Proof.
  intros ([name d] & -> & Hin)%list_elem_of_fmap. cbn [snd].
  destruct (list_find_elem_of (fun item : string * string => item.2 = d) models (name, d)
              Hin eq_refl) as [[i [name' d']] Hfind].
  rewrite Hfind. exists name'. split; [done|].
  apply list_find_Some in Hfind as (Hi & Hd & _). simpl in Hd. subst d'.
  by eapply list_elem_of_lookup_2.
Qed.

(** Whatever [ai_model] held before and whatever the user picks among the
    options offered, the block ends with [ai_model] set to one of the allowed
    model names; the index passed to the select box is in range and no other
    entry of the configuration is written. *)
Theorem stored_model_is_allowed all allowed selectbox metadata_config :
  allowed <> [] ->
  (forall index,
      selectbox (ai_models_with_desc all allowed).*2 index ∈
      (ai_models_with_desc all allowed).*2) ->
  exists selection name,
    select_ai_model all allowed selectbox metadata_config = inr selection /\
    metadata_config_after selection !! "ai_model" = Some (CStr name) /\
    name ∈ allowed /\
    shown_index selection < length (shown_options selection) /\
    (forall k, k <> "ai_model" ->
               metadata_config_after selection !! k = metadata_config !! k).
Proof.
  intros Hallowed Hbox. unfold select_ai_model. cbv zeta.
  pose proof (ai_models_with_desc_keys all allowed) as Hkeys.
  set (items := ai_models_with_desc all allowed) in *.
  assert (exists first_name first_option,
             head items.*1 = Some first_name /\ head items.*2 = Some first_option)
    as (first_name & first_option & -> & ->).
  { destruct items as [|[first_name first_option] models]; [|by eexists _, _].
    destruct allowed as [|x allowed]; [done|].
    specialize (Hkeys x). simpl in Hkeys. rewrite elem_of_nil, elem_of_cons in Hkeys.
    exfalso. apply Hkeys. by left. }
  match goal with
  | |- context [selectbox items.*2 ?index] => set (idx := index)
  end.
  destruct (selected_name_elem items (selectbox items.*2 idx)) as (name & Hname & Hin);
    [exact (Hbox idx)|].
  eexists _, name. split; [reflexivity|].
  cbn [metadata_config_after shown_index shown_options]. split; [|split; [|split]].
  - rewrite lookup_insert_eq. do 2 f_equal.
    destruct (list_find (fun item : string * string => item.2 = selectbox items.*2 idx) items)
      as [[j [n d]]|]; [|done].
    cbn [mbind option_bind snd fst] in Hname. cbn [from_option snd fst]. congruence.
  - apply Hkeys. apply list_elem_of_fmap. by exists (name, selectbox items.*2 idx).
  - subst idx.
    match goal with
    | |- from_option fst 0 ?found < _ => destruct found as [[j d]|] eqn:Hfound
    end.
    + apply list_find_Some in Hfound as (Hj & _). cbn [from_option fst].
      by eapply lookup_lt_Some.
    + cbn [from_option]. pose proof (Hbox 0) as Hin0.
      destruct items.*2; [by apply elem_of_nil in Hin0|simpl; lia].
  - intros k Hk. rewrite lookup_insert_ne by done.
    repeat match goal with
           | |- context [match ?x with Some _ => _ | None => _ end] => destruct x
           | |- context [match ?x with CStr _ => _ | _ => _ end] => destruct x
           | |- context [if ?b then _ else _] => destruct b
           end;
      rewrite ?lookup_insert_ne by done; reflexivity.
Qed.

Lemma stored_model_is_allowed_witness :
  exists selection name,
    select_ai_model all_models_with_desc allowed_model_names
      (picking "AWS Claude 3 Haiku: Tailored for various language tasks")
      {[ "ai_model" := CStr "azure__openai__gpt_4o" ]} = inr selection /\
    metadata_config_after selection !! "ai_model" = Some (CStr name) /\
    name ∈ allowed_model_names /\
    shown_index selection < length (shown_options selection) /\
    (forall k, k <> "ai_model" ->
               metadata_config_after selection !! k =
               ({[ "ai_model" := CStr "azure__openai__gpt_4o" ]} : gmap string cval) !! k).
Proof.
  apply (stored_model_is_allowed all_models_with_desc allowed_model_names
           (picking "AWS Claude 3 Haiku: Tailored for various language tasks")
           {[ "ai_model" := CStr "azure__openai__gpt_4o" ]}).
  - discriminate.
  - intros index. unfold picking. apply (bool_decide_unpack _). vm_compute. exact I.
Defined.

(** What an untouched select box does to the stored model, when no two
    options read the same: an allowed model is kept; a missing entry and any
    other value are replaced by the first allowed model. *)
Theorem untouched_model_kept_or_reset all allowed selectbox metadata_config first_name :
  NoDup (ai_models_with_desc all allowed).*2 ->
  head (ai_models_with_desc all allowed).*1 = Some first_name ->
  (forall index,
      index < length (ai_models_with_desc all allowed) ->
      (ai_models_with_desc all allowed).*2 !! index =
      Some (selectbox (ai_models_with_desc all allowed).*2 index)) ->
  exists selection,
    select_ai_model all allowed selectbox metadata_config = inr selection /\
    metadata_config_after selection !! "ai_model" =
      Some (CStr (match metadata_config !! "ai_model" with
                  | Some (CStr name) =>
                      if bool_decide (name ∈ allowed) then name else first_name
                  | _ => first_name
                  end)).
Proof.
  intros Hnodup Hfirst Hbox. unfold select_ai_model. cbv zeta.
  pose proof (ai_models_with_desc_keys all allowed) as Hkeys.
  set (items := ai_models_with_desc all allowed) in *.
  rewrite Hfirst.
  assert (first_name ∈ items.*1) as Hfirst_in.
  { destruct items.*1; [done|]. injection Hfirst as ->. apply elem_of_cons. by left. }
  assert (exists first_option, head items.*2 = Some first_option) as [first_option ->].
  { destruct items; [done|]. by eexists. }
  set (kept := match metadata_config !! "ai_model" with
               | Some (CStr name) =>
                   if bool_decide (name ∈ allowed) then name else first_name
               | _ => first_name
               end).
  set (allowed_current :=
         match default (CStr first_name) (metadata_config !! "ai_model") with
         | CStr name => if bool_decide (name ∈ items.*1) then Some name else None
         | _ => None
         end).
  assert (default first_name allowed_current = kept /\ kept ∈ items.*1) as [Hcurrent Hkept].
  { unfold allowed_current, kept.
    destruct (metadata_config !! "ai_model") as [[name| |]|]; cbn [from_option id].
    - rewrite (bool_decide_ext (name ∈ items.*1) (name ∈ allowed)) by apply Hkeys.
      destruct (bool_decide_reflect (name ∈ allowed)) as [Hin|Hin]; [|done].
      split; [done|]. by apply Hkeys.
    - done.
    - done.
    - by rewrite bool_decide_eq_true_2. }
  rewrite Hcurrent.
  destruct (proj2 (items_get_is_Some items kept) Hkept) as [desc Hdesc].
  rewrite Hdesc. cbn [from_option id].
  assert (Hitem : (kept, desc) ∈ items) by by apply items_get_Some.
  assert (desc ∈ items.*2) as Hdesc_in.
  { apply list_elem_of_fmap. by exists (kept, desc). }
  destruct (list_find_elem_of (fun d : string => d = desc) items.*2 desc Hdesc_in eq_refl)
    as [[i d] Hfind].
  rewrite Hfind. cbn [from_option fst].
  apply list_find_Some in Hfind as (Hi & -> & _).
  assert (selectbox items.*2 i = desc) as ->.
  { assert (i < length items) as Hlt.
    { rewrite <- (length_fmap snd). by eapply lookup_lt_Some. }
    specialize (Hbox i Hlt). congruence. }
  eexists. split; [reflexivity|]. cbn [metadata_config_after].
  rewrite lookup_insert_eq. do 2 f_equal.
  exact (selected_template_id_of_option items kept desc Hnodup Hitem).
Qed.

Lemma untouched_model_kept_or_reset_witness :
  exists selection,
    select_ai_model all_models_with_desc allowed_model_names untouched
      {[ "ai_model" := CStr "azure__openai__gpt_4o" ]} = inr selection /\
    metadata_config_after selection !! "ai_model" =
      Some (CStr "azure__openai__gpt_4o_mini").
Proof.
  assert (Hkept : match ({[ "ai_model" := CStr "azure__openai__gpt_4o" ]}
                           : gmap string cval) !! "ai_model" with
                  | Some (CStr name) =>
                      if bool_decide (name ∈ allowed_model_names)
                      then name else "azure__openai__gpt_4o_mini"
                  | _ => "azure__openai__gpt_4o_mini"
                  end = "azure__openai__gpt_4o_mini") by (vm_compute; reflexivity).
  assert (Hoptions : NoDup (ai_models_with_desc all_models_with_desc allowed_model_names).*2).
  { apply (bool_decide_unpack _). vm_compute. exact I. }
  assert (Hfirst : head (ai_models_with_desc all_models_with_desc allowed_model_names).*1 =
                   Some "azure__openai__gpt_4o_mini") by (vm_compute; reflexivity).
  assert (Hbox : forall index,
             index < length (ai_models_with_desc all_models_with_desc allowed_model_names) ->
             (ai_models_with_desc all_models_with_desc allowed_model_names).*2 !! index =
             Some (untouched
                     (ai_models_with_desc all_models_with_desc allowed_model_names).*2 index)).
  { intros index Hlt. unfold untouched.
    destruct (lookup_lt_is_Some_2 (ai_models_with_desc all_models_with_desc
                                     allowed_model_names).*2 index) as [x ->];
      [by rewrite length_fmap|reflexivity]. }
  pose proof (untouched_model_kept_or_reset all_models_with_desc allowed_model_names untouched
                {[ "ai_model" := CStr "azure__openai__gpt_4o" ]} "azure__openai__gpt_4o_mini"
                Hoptions Hfirst Hbox) as Hrun.
  rewrite Hkept in Hrun. exact Hrun.
Defined.

(** ** The custom fields *)

Lemma field_type_index t :
  t ∈ field_type_options ->
  exists index,
    list_find (fun candidate => candidate = t) field_type_options = Some (index, t) /\
    index < 4.
Proof.
  intros Hin.
  destruct (list_find_elem_of (fun option : string => option = t) field_type_options t Hin
              eq_refl) as [[index t'] Hfind].
  exists index. pose proof Hfind as (Hi & -> & _)%list_find_Some.
  split; [done|]. by apply lookup_lt_Some in Hi.
Qed.

Lemma edit_custom_fields_valid w i before rest :
  (forall row index, index < 4 -> field_type_selectbox w row index ∈ field_type_options) ->
  Forall (fun field => field_type field ∈ field_type_options) before ->
  Forall (fun field => field_type field ∈ field_type_options) rest ->
  Forall (fun field => field_type field ∈ field_type_options)
         (fst (edit_custom_fields w i before rest)) /\
  ((snd (edit_custom_fields w i before rest) = inr tt /\
    length (fst (edit_custom_fields w i before rest)) = length before + length rest /\
    forall j, j < length rest -> remove_field_button w (i + j) = false) \/
   (snd (edit_custom_fields w i before rest) = inl RerunException /\
    S (length (fst (edit_custom_fields w i before rest))) = length before + length rest /\
    exists j, j < length rest /\ remove_field_button w (i + j) = true)).
Proof.
  intros Hbox. revert i before.
  induction rest as [|field rest IH]; intros i before Hbefore Hrest; cbn [edit_custom_fields].
  - split; [done|]. left. cbn [fst snd length]. split; [done|]. split; [lia|].
    intros j Hj. lia.
  - apply Forall_cons in Hrest as [Hfield Hrest].
    destruct (field_type_index _ Hfield) as (index & -> & Hindex).
    destruct (remove_field_button w i) eqn:Hremove.
    + cbn [fst snd]. split; [by apply Forall_app|]. right. split; [done|].
      rewrite !length_app. cbn [length]. split; [lia|].
      exists 0. split; [lia|]. by rewrite Nat.add_0_r.
    + destruct (IH (S i) (before ++ [{| field_name := field_name_input w i (field_name field);
                                        field_type := field_type_selectbox w i index |}]))
        as [Hvalid Hend]; [|done|].
      { apply Forall_app. split; [done|]. apply Forall_singleton. cbn [field_type].
        by apply Hbox. }
      split; [done|]. rewrite length_app in Hend. cbn [length] in *.
      destruct Hend as [(Hr & Hlen & Hno)|(Hr & Hlen & j & Hj & Hyes)].
      * left. split; [done|]. split; [lia|]. intros [|j] Hj.
        -- by rewrite Nat.add_0_r.
        -- replace (i + S j) with (S i + j) by lia. apply Hno. lia.
      * right. split; [done|]. split; [lia|]. exists (S j). split; [lia|].
        by replace (i + S j) with (S i + j) by lia.
Qed.

(** The custom fields keep well-formed types: when every stored field has
    one of the four types and the select boxes return one of their options,
    the block does not fail on [index], every field it leaves has one of the
    four types, and the list loses one row on a Remove click, gains one on an
    Add click (when no Remove was clicked) and keeps its length otherwise; it
    asks for a rerun exactly when it changed the length. *)
Theorem custom_field_types_stay_valid w custom_fields :
  (forall row index, index < 4 -> field_type_selectbox w row index ∈ field_type_options) ->
  Forall (fun field => field_type field ∈ field_type_options) (default [] custom_fields) ->
  Forall (fun field => field_type field ∈ field_type_options)
         (fst (custom_fields_block w custom_fields)) /\
  ((exists row, row < length (default [] custom_fields) /\
                remove_field_button w row = true) /\
   snd (custom_fields_block w custom_fields) = inl RerunException /\
   S (length (fst (custom_fields_block w custom_fields))) =
     length (default [] custom_fields)
   \/
   (forall row, row < length (default [] custom_fields) ->
                remove_field_button w row = false) /\
   add_field_button w = true /\
   snd (custom_fields_block w custom_fields) = inl RerunException /\
   length (fst (custom_fields_block w custom_fields)) =
     S (length (default [] custom_fields))
   \/
   (forall row, row < length (default [] custom_fields) ->
                remove_field_button w row = false) /\
   add_field_button w = false /\
   snd (custom_fields_block w custom_fields) = inr tt /\
   length (fst (custom_fields_block w custom_fields)) =
     length (default [] custom_fields)).
Proof.
  intros Hbox Hvalid. unfold custom_fields_block. cbv zeta.
  destruct (edit_custom_fields_valid w 0 [] (default [] custom_fields) Hbox
              (Forall_nil_2 _) Hvalid) as [Hfields Hend].
  cbn [length Nat.add] in Hend.
  destruct Hend as [(-> & Hlen & Hno)|(-> & Hlen & j & Hj & Hyes)].
  - destruct (add_field_button w) eqn:Hadd; cbn [fst snd].
    + split.
      { apply Forall_app. split; [done|]. apply Forall_singleton. cbn [field_type].
        apply elem_of_cons. by left. }
      right; left. split; [done|]. split; [done|]. split; [done|].
      rewrite length_app. cbn [length]. lia.
    + split; [done|]. right; right. by repeat split.
  - cbn [fst snd]. split; [done|]. left. split; [|by split].
    by exists j.
Qed.

Lemma custom_field_types_stay_valid_witness :
  Forall (fun field => field_type field ∈ field_type_options)
         (fst (custom_fields_block (removing 1) (Some fields_sample))) /\
  ((exists row, row < length fields_sample /\
                remove_field_button (removing 1) row = true) /\
   snd (custom_fields_block (removing 1) (Some fields_sample)) = inl RerunException /\
   S (length (fst (custom_fields_block (removing 1) (Some fields_sample)))) =
     length fields_sample
   \/
   (forall row, row < length fields_sample ->
                remove_field_button (removing 1) row = false) /\
   add_field_button (removing 1) = true /\
   snd (custom_fields_block (removing 1) (Some fields_sample)) = inl RerunException /\
   length (fst (custom_fields_block (removing 1) (Some fields_sample))) =
     S (length fields_sample)
   \/
   (forall row, row < length fields_sample ->
                remove_field_button (removing 1) row = false) /\
   add_field_button (removing 1) = false /\
   snd (custom_fields_block (removing 1) (Some fields_sample)) = inr tt /\
   length (fst (custom_fields_block (removing 1) (Some fields_sample))) =
     length fields_sample).
Proof.
  apply (custom_field_types_stay_valid (removing 1) (Some fields_sample)).
  - intros row index Hindex. cbn [removing field_type_selectbox].
    destruct index as [|[|[|[|index]]]]; [| | | |lia];
      apply (bool_decide_unpack _); vm_compute; exact I.
  - apply (bool_decide_unpack _). vm_compute. exact I.
Defined.

Lemma edit_custom_fields_remove w rest :
  forall clicked i before,
    Forall (fun field => field_type field ∈ field_type_options) (take clicked rest) ->
    clicked < length rest ->
    (forall j, j < clicked -> remove_field_button w (i + j) = false) ->
    remove_field_button w (i + clicked) = true ->
    (exists index,
        list_find (fun candidate => candidate = from_option field_type "" (rest !! clicked))
                  field_type_options = Some index) ->
    edit_custom_fields w i before rest =
    (before ++ imap (fun j => edited_row w (i + j)) (take clicked rest) ++
     drop (S clicked) rest,
     inl RerunException).
Proof.
  induction rest as [|field rest IH]; intros clicked i before Hvalid Hlt Hno Hyes Hfound.
  { simpl in Hlt. lia. }
  cbn [edit_custom_fields]. destruct clicked as [|clicked].
  - cbn [lookup list_lookup from_option] in Hfound. destruct Hfound as [[index t] ->].
    rewrite Nat.add_0_r in Hyes. rewrite Hyes. rewrite take_0. by cbn [imap app drop].
  - cbn [take] in Hvalid. apply Forall_cons in Hvalid as [Hfield Hvalid].
    destruct (field_type_index _ Hfield) as (index & Hindex & _). rewrite Hindex.
    rewrite <- (Nat.add_0_r i) at 1. rewrite (Hno 0) by lia.
    rewrite (IH clicked (S i)).
    + cbn [take drop imap]. rewrite <- !app_assoc. cbn [app]. do 3 f_equal.
      * unfold edited_row. rewrite Nat.add_0_r, Hindex. done.
      * f_equal. apply imap_ext. intros j x _. cbn. f_equal. lia.
    + done.
    + simpl in Hlt. lia.
    + intros j Hj. replace (S i + j) with (i + S j) by lia. apply Hno. lia.
    + by replace (S i + clicked) with (i + S clicked) by lia.
    + exact Hfound.
Qed.

(** A click on the Remove button of a row deletes exactly that row and asks
    for a rerun: the rows above it carry the values of their widgets, the rows
    below it are kept as they were stored, whatever their widgets held, and
    the Add button is not looked at. *)
Theorem remove_deletes_one_row w custom_fields clicked :
  Forall (fun field => field_type field ∈ field_type_options) custom_fields ->
  clicked < length custom_fields ->
  remove_field_button w clicked = true ->
  (forall row, row < clicked -> remove_field_button w row = false) ->
  custom_fields_block w (Some custom_fields) =
  (imap (edited_row w) (take clicked custom_fields) ++ drop (S clicked) custom_fields,
   inl RerunException).
Proof.
  intros Hvalid Hlt Hyes Hno. unfold custom_fields_block. cbv zeta. cbn [default from_option id].
  rewrite (edit_custom_fields_remove w custom_fields clicked 0 []).
  - cbn [fst snd app]. done.
  - by apply Forall_take.
  - done.
  - done.
  - done.
  - destruct (lookup_lt_is_Some_2 custom_fields clicked Hlt) as [field Hfield].
    rewrite Hfield. cbn [from_option].
    rewrite Forall_forall in Hvalid.
    destruct (field_type_index (field_type field)) as (index & Hindex & _).
    { apply Hvalid. by eapply list_elem_of_lookup_2. }
    by eexists.
Qed.

Lemma remove_deletes_one_row_witness :
  custom_fields_block (removing 1) (Some fields_sample) =
  ([{| field_name := "Vendor"; field_type := "string" |};
    {| field_name := "Due"; field_type := "date" |}],
   inl RerunException).
Proof.
  apply (remove_deletes_one_row (removing 1) fields_sample 1).
  - apply (bool_decide_unpack _). vm_compute. exact I.
  - vm_compute. lia.
  - reflexivity.
  - intros row Hrow. destruct row as [|row]; [reflexivity|lia].
Defined.
